(** * Ticketing-System: the ticket routes, embedded and verified

    A shallow embedding of [api/routes/tickets.js] (the REST handlers
    over the Mongo collection and the CSV mirror) and of the schema in
    [models/Ticket.js].

    Conventions of the embedding:
    - a JavaScript string is a [string] (a sequence of 8-bit code units);
    - a JavaScript value that can come out of a JSON body is a [jsval];
    - a JavaScript object used as a record or table is a finite map of
      its own properties, [gmap string jsval]; reading a property that
      is not there yields [VUndef] (request bodies and rows), or what
      [Object.prototype] has under that name (the two code tables);
    - the file system and the Mongo collections are explicit state. *)

From Stdlib Require Import ZArith Ascii Lia.
From Stdlib Require String.
From stdpp Require Import base strings gmap list sorting.

Local Open Scope Z_scope.

(** ** Characters and strings as JavaScript uses them *)

Definition dquote : ascii := "034"%char.
Definition comma : ascii := ","%char.
Definition newline : ascii := "010"%char.
Definition semicolon : ascii := ";"%char.
Definition dash : ascii := "-"%char.

Definition is_dquote (c : ascii) : bool := Ascii.eqb c dquote.
Definition is_comma (c : ascii) : bool := Ascii.eqb c comma.

Definition str1 (c : ascii) : string := String c EmptyString.

(** [Array.prototype.join] *)
Fixpoint join (sep : string) (l : list string) : string :=
  match l with
  | [] => EmptyString
  | [x] => x
  | x :: rest => x +:+ sep +:+ join sep rest
  end.

(** ** JSON values *)

Inductive jsval : Type :=
  | VUndef
  | VNull
  | VBool (b : bool)
  | VNum (n : Z)
  | VStr (s : string)
  | VArr (l : list string).

#[global] Instance jsval_eq_dec : EqDecision jsval.
Proof. solve_decision. Defined.

#[global] Instance jsval_inhabited : Inhabited jsval := populate VUndef.

(** Decimal text of a natural number, most significant digit first. *)
Definition digit_char (d : N) : ascii := ascii_of_N (48 + d).

Fixpoint dec_go (fuel : nat) (n : N) (acc : string) : string :=
  match fuel with
  | O => acc
  | S f =>
      let acc' := String (digit_char (n mod 10)) acc in
      if (n <? 10)%N then acc' else dec_go f (n / 10)%N acc'
  end.

Definition dec_of_N (n : N) : string := dec_go (S (N.to_nat (N.log2 n))) n EmptyString.

Definition dec_of_Z (z : Z) : string :=
  if z <? 0 then String dash (dec_of_N (Z.to_N (- z))) else dec_of_N (Z.to_N z).

(** JavaScript truthiness. *)
Definition truthy (v : jsval) : bool :=
  match v with
  | VUndef | VNull => false
  | VBool b => b
  | VNum n => negb (n =? 0)
  | VStr s => negb (String.eqb s EmptyString)
  | VArr _ => true
  end.

(** [String(v)] *)
Definition to_str (v : jsval) : string :=
  match v with
  | VUndef => "undefined"
  | VNull => "null"
  | VBool true => "true"
  | VBool false => "false"
  | VNum n => dec_of_Z n
  | VStr s => s
  | VArr l => join "," l
  end.

(** [a || b] and [a ?? b] *)
Definition js_or (a b : jsval) : jsval := if truthy a then a else b.

Definition js_nullish (a b : jsval) : jsval :=
  match a with
  | VUndef | VNull => b
  | _ => a
  end.

(** Objects: own properties only. *)
Definition get (o : gmap string jsval) (k : string) : jsval := default VUndef (o !! k).

(** [for each (k, v) in order: o[k] = v] *)
Definition assign_all (o : gmap string jsval) (kvs : list (string * jsval)) : gmap string jsval :=
  foldl (fun acc kv => <[kv.1 := kv.2]> acc) o kvs.

(** ** CSV quoting: [csvEscape] *)

(** [s.replace(/Q/g, 'QQ')], writing Q for the double-quote character *)
Fixpoint double_quotes (s : string) : string :=
  match s with
  | EmptyString => EmptyString
  | String c t =>
      if is_dquote c then String dquote (String dquote (double_quotes t))
      else String c (double_quotes t)
  end.

(** [csvEscape = val => `Q${String(val || '').replace(/Q/g, 'QQ')}Q`] *)
Definition csvEscape (val : jsval) : string :=
  String dquote (double_quotes (to_str (js_or val (VStr EmptyString))) +:+ str1 dquote).

(** ** Regular expressions, as JavaScript matches them

    A backtracking matcher: the alternatives of [Alt] are tried from left to
    right, [Star] is greedy and gives iterations back one by one, and an
    iteration that consumes nothing is refused. [k] is what has to match
    after the expression; the result is the text left over. The fuel bounds
    the iterations of [Star]: the length of the text is enough. *)

Inductive regex : Type :=
  | Chr (p : ascii -> bool)
  | Cat (a b : regex)
  | Alt (a b : regex)
  | Star (a : regex).

Fixpoint run (fuel : nat) : regex -> string -> (string -> option string) -> option string :=
  fix go (r : regex) (s : string) (k : string -> option string) {struct r} : option string :=
    match r with
    | Chr p =>
        match s with
        | String c t => if p c then k t else None
        | EmptyString => None
        end
    | Cat a b => go a s (fun s' => go b s' k)
    | Alt a b =>
        match go a s k with
        | Some rest => Some rest
        | None => go b s k
        end
    | Star a =>
        match fuel with
        | O => k s
        | S f =>
            match go a s (fun s' =>
                            if (String.length s' <? String.length s)%nat
                            then run f (Star a) s' k else None) with
            | Some rest => Some rest
            | None => k s
            end
        end
    end.

(** [s.slice(0, n)] *)
Fixpoint take_str (n : nat) (s : string) : string :=
  match n, s with
  | S k, String c t => String c (take_str k t)
  | _, _ => EmptyString
  end.

(** One attempt of the expression at the start of [s]: the text matched
    and the text left. *)
Definition regex_at (r : regex) (s : string) : option (string * string) :=
  match run (String.length s) r s Some with
  | Some rest => Some (take_str (String.length s - String.length rest) s, rest)
  | None => None
  end.

(** [s.match(/r/g) || []]: the leftmost matches, one after the other; after
    an empty match the search moves on by one character. *)
Fixpoint match_all_go (fuel : nat) (r : regex) (s : string) : list string :=
  match fuel with
  | O => []
  | S f =>
      match regex_at r s with
      | Some (String c tok, rest) => String c tok :: match_all_go f r rest
      | Some (EmptyString, _) =>
          EmptyString :: match s with
                         | EmptyString => []
                         | String _ t => match_all_go f r t
                         end
      | None =>
          match s with
          | EmptyString => []
          | String _ t => match_all_go f r t
          end
      end
  end.

Definition match_all (r : regex) (s : string) : list string :=
  match_all_go (S (String.length s)) r s.

(** ** The row tokenizer: [line.match(/(Q([^Q]|QQ)*Q|[^,]+)/g) || []] *)

Definition not_dquote (c : ascii) : bool := negb (is_dquote c).
Definition not_comma (c : ascii) : bool := negb (is_comma c).

(** [Q([^Q]|QQ)*Q|[^,]+]; a plus is one match and a star. *)
Definition quoted_body : regex := Alt (Chr not_dquote) (Cat (Chr is_dquote) (Chr is_dquote)).

Definition token_regex : regex :=
  Alt (Cat (Chr is_dquote) (Cat (Star quoted_body) (Chr is_dquote)))
      (Cat (Chr not_comma) (Star (Chr not_comma))).

Definition csv_tokens (line : string) : list string := match_all token_regex line.

(** *** The same pattern, unrolled by hand

    The three functions below scan a field directly; [regex_at_token] shows
    that they compute what the matcher computes on [token_regex]. *)

(** After an opening quote: the rest of the first alternative,
    [([^Q]|QQ)*Q], with its backtracking (the star is greedy; when no
    closing quote follows, the last doubled quote is given back and its
    first character closes the field). Returns the text matched (closing
    quote included) and what is left. *)
Fixpoint quoted_tail (s : string) : option (string * string) :=
  match s with
  | EmptyString => None
  | String c t =>
      if is_dquote c then
        match t with
        | String c' t' =>
            if is_dquote c' then
              match quoted_tail t' with
              | Some (m, r) => Some (String c (String c' m), r)
              | None => Some (str1 c, t)
              end
            else Some (str1 c, t)
        | EmptyString => Some (str1 c, t)
        end
      else
        match quoted_tail t with
        | Some (m, r) => Some (String c m, r)
        | None => None
        end
  end.

(** The second alternative, [[^,]+]: the longest run without a comma. *)
Fixpoint bare_run (s : string) : string * string :=
  match s with
  | EmptyString => (EmptyString, EmptyString)
  | String c t =>
      if is_comma c then (EmptyString, s)
      else let '(m, r) := bare_run t in (String c m, r)
  end.

(** What has to follow the body of a quoted field: the closing quote. *)
Definition closing_quote (s : string) : option string :=
  match s with
  | String c t => if is_dquote c then Some t else None
  | EmptyString => None
  end.

(** One attempt of the whole pattern at the start of [s]. *)
Definition token_at (s : string) : option (string * string) :=
  match s with
  | EmptyString => None
  | String c t =>
      let bare := if is_comma c then None else Some (bare_run s) in
      if is_dquote c then
        match quoted_tail t with
        | Some (m, r) => Some (String c m, r)
        | None => bare
        end
      else bare
  end.

(** ** Unquoting: [v.replace(/^Q|Q$/g, '').replace(/QQ/g, 'Q')] *)

Definition strip_lead (s : string) : string :=
  match s with
  | String c t => if is_dquote c then t else s
  | EmptyString => s
  end.

Fixpoint strip_trail (s : string) : string :=
  match s with
  | EmptyString => EmptyString
  | String c t =>
      match t with
      | EmptyString => if is_dquote c then EmptyString else s
      | String _ _ => String c (strip_trail t)
      end
  end.

Fixpoint undouble (s : string) : string :=
  match s with
  | EmptyString => EmptyString
  | String c t =>
      match t with
      | String c' t' =>
          if is_dquote c && is_dquote c' then String dquote (undouble t')
          else String c (undouble t)
      | EmptyString => s
      end
  end.

Definition unquote (v : string) : string := undouble (strip_trail (strip_lead v)).


(** ** String methods used by the handlers *)

Definition cons_head (a : ascii) (l : list string) : list string :=
  match l with
  | x :: xs => String a x :: xs
  | [] => [str1 a]
  end.

Fixpoint is_prefix (p s : string) : bool :=
  match p, s with
  | EmptyString, _ => true
  | String a p', String b s' => Ascii.eqb a b && is_prefix p' s'
  | String _ _, EmptyString => false
  end.

(** [s.split(sep)] for a separator that is not empty; [skip] counts the
    characters of a separator occurrence still to be passed over. *)
Fixpoint split_go (sep : string) (skip : nat) (s : string) : list string :=
  match s with
  | EmptyString => [EmptyString]
  | String a t =>
      match skip with
      | S k => split_go sep k t
      | O =>
          if is_prefix sep s then EmptyString :: split_go sep (Nat.pred (String.length sep)) t
          else cons_head a (split_go sep O t)
      end
  end.

Definition split (sep s : string) : list string := split_go sep O s.

(** White space of [String.prototype.trim] among 8-bit code units:
    TAB, LF, VT, FF, CR, SP and NBSP. *)
Definition is_space (c : ascii) : bool :=
  let n := N_of_ascii c in
  ((9 <=? n) && (n <=? 13) || (n =? 32) || (n =? 160))%N.

Fixpoint trim_start (s : string) : string :=
  match s with
  | EmptyString => EmptyString
  | String c t => if is_space c then trim_start t else s
  end.

Fixpoint trim_end (s : string) : string :=
  match s with
  | EmptyString => EmptyString
  | String c t =>
      match trim_end t with
      | EmptyString => if is_space c then EmptyString else str1 c
      | t' => String c t'
      end
  end.

Definition trim (s : string) : string := trim_end (trim_start s).

(** [h.replace(/Q/g, '')] *)
Fixpoint remove_quotes (s : string) : string :=
  match s with
  | EmptyString => EmptyString
  | String c t => if is_dquote c then remove_quotes t else String c (remove_quotes t)
  end.

(** [s.replace(/-/g, '')] *)
Fixpoint remove_dashes (s : string) : string :=
  match s with
  | EmptyString => EmptyString
  | String c t => if Ascii.eqb c dash then remove_dashes t else String c (remove_dashes t)
  end.

Fixpoint repeat_char (c : ascii) (n : nat) : string :=
  match n with
  | O => EmptyString
  | S k => String c (repeat_char c k)
  end.

(** [s.padStart(n, '0')] *)
Definition padStart0 (n : nat) (s : string) : string :=
  repeat_char "0"%char (n - String.length s) +:+ s.

Definition nonempty (s : string) : bool := negb (String.eqb s EmptyString).

(** ** Reading the CSV mirror *)

(** [lines.shift().split(',').map(h => h.replace(/Q/g, ''))] *)
Definition parse_header (line : string) : list string :=
  map remove_quotes (split "," line).

(** The cell of column [i]: [cols[i] || ''], unquoted. In the handlers that
    write [cols[i]?.replace(..).replace(..) || ''] the result is the same. *)
Definition cell (cols : list string) (i : nat) : string :=
  unquote (default EmptyString (cols !! i)).

(** [header.forEach((h, i) => { obj[h] = cell i })] on a fresh object. *)
Definition row_object (header cols : list string) : gmap string jsval :=
  assign_all ∅ (imap (fun i h => (h, VStr (cell cols i))) header).

Definition uploads_url (f : string) : string := "/uploads/" +:+ f.

(** [toAttachmentUrls] *)
Definition toAttachmentUrls (filenames : jsval) : list string :=
  if truthy filenames then
    match filenames with
    | VArr l => map uploads_url (filter (fun f => nonempty f = true) l)
    | v => map uploads_url (filter (fun f => nonempty (trim f) = true) (split ";" (to_str v)))
    end
  else [].

(** One data line of [tickets.csv], as [GET /] returns it. *)
Definition ticket_of_line (header : list string) (line : string) : gmap string jsval :=
  let obj := row_object header (csv_tokens line) in
  if truthy (get obj "attachments")
  then <["attachments" := VArr (toAttachmentUrls (get obj "attachments"))]> obj
  else <["attachments" := VArr []]> obj.

(** [fs.readFileSync(TICKETS_FILE, 'utf8').trim().split('\n')], then the
    header is shifted off. [split] never returns the empty array. *)
Definition file_lines (content : string) : string * list string :=
  match split (str1 newline) (trim content) with
  | hl :: rows => (hl, rows)
  | [] => (EmptyString, [])
  end.

(** The CSV fallback of [GET /]: every line is read on its own. *)
Definition read_tickets_csv (content : string) : list (gmap string jsval) :=
  let '(hl, rows) := file_lines content in
  map (ticket_of_line (parse_header hl)) rows.

(** ** Numbers from text: [Number(s)]

    Only the decimal integer forms are modelled (white space around, an
    optional sign, digits; the empty text is 0). Every other text is taken
    as [NaN], written [None]. *)

Definition digit_val (c : ascii) : option N :=
  let n := N_of_ascii c in
  if ((48 <=? n) && (n <=? 57))%N then Some (n - 48)%N else None.

Definition is_digit (c : ascii) : bool :=
  match digit_val c with Some _ => true | None => false end.

Fixpoint digits_go (acc : N) (s : string) : option N :=
  match s with
  | EmptyString => Some acc
  | String c t =>
      match digit_val c with
      | Some d => digits_go (10 * acc + d)%N t
      | None => None
      end
  end.

(** A non-empty run of digits. *)
Definition digits_value (s : string) : option N :=
  match s with
  | EmptyString => None
  | _ => digits_go 0%N s
  end.

Definition js_number (s : string) : option Z :=
  match trim s with
  | EmptyString => Some 0
  | String c t =>
      if Ascii.eqb c dash then (fun n => - Z.of_N n) <$> digits_value t
      else if Ascii.eqb c "+"%char then Z.of_N <$> digits_value t
      else Z.of_N <$> digits_value (String c t)
  end.

Fixpoint all_chars (p : ascii -> bool) (s : string) : bool :=
  match s with
  | EmptyString => true
  | String c t => p c && all_chars p t
  end.

(** ** Calendar arithmetic of ECMAScript dates (UTC) *)

Definition msPerDay : Z := 86400000.

Definition is_leap (y : Z) : bool :=
  (y mod 4 =? 0) && (negb (y mod 100 =? 0) || (y mod 400 =? 0)).

(** [DayFromYear]: the day number of 1 January of [y], counted from the epoch. *)
Definition DayFromYear (y : Z) : Z :=
  365 * (y - 1970) + (y - 1969) / 4 - (y - 1901) / 100 + (y - 1601) / 400.

Definition days_in_month (y m : Z) : Z :=
  if m =? 2 then (if is_leap y then 29 else 28)
  else if (m =? 4) || (m =? 6) || (m =? 9) || (m =? 11) then 30
  else 31.

(** Days of the year before the first of month [m] (1..12). *)
Definition month_start (y m : Z) : Z :=
  let feb := if is_leap y then 1 else 0 in
  if m <=? 1 then 0
  else if m =? 2 then 31
  else feb + (if m =? 3 then 59 else if m =? 4 then 90 else if m =? 5 then 120
         else if m =? 6 then 151 else if m =? 7 then 181 else if m =? 8 then 212
         else if m =? 9 then 243 else if m =? 10 then 273 else if m =? 11 then 304
         else 334).

(** [MakeDay(y, m - 1, d)] for a month within the year; [d] may overflow. *)
Definition MakeDay (y m d : Z) : Z := DayFromYear y + month_start y m + (d - 1).

(** A [Date], broken down in UTC. *)
Record datetime : Type := mkDate {
  dt_year : Z; dt_month : Z; dt_day : Z;
  dt_hour : Z; dt_min : Z; dt_sec : Z; dt_ms : Z }.

#[global] Instance datetime_eq_dec : EqDecision datetime.
Proof. solve_decision. Defined.

Definition valid_datetime (t : datetime) : bool :=
  (1 <=? dt_month t) && (dt_month t <=? 12) &&
  (1 <=? dt_day t) && (dt_day t <=? days_in_month (dt_year t) (dt_month t)) &&
  (0 <=? dt_hour t) && (dt_hour t <? 24) && (0 <=? dt_min t) && (dt_min t <? 60) &&
  (0 <=? dt_sec t) && (dt_sec t <? 60) && (0 <=? dt_ms t) && (dt_ms t <? 1000).

(** [getTime()]: milliseconds since the epoch. *)
Definition time_ms (t : datetime) : Z :=
  MakeDay (dt_year t) (dt_month t) (dt_day t) * msPerDay
  + dt_hour t * 3600000 + dt_min t * 60000 + dt_sec t * 1000 + dt_ms t.

Definition pad_num (width : nat) (z : Z) : string := padStart0 width (dec_of_Z z).

(** [toISOString()]: four digits for the years 0..9999, the expanded form
    (sign and six digits) outside. *)
Definition iso_year (y : Z) : string :=
  if (0 <=? y) && (y <=? 9999) then pad_num 4 y
  else (if y <? 0 then "-" else "+") +:+ pad_num 6 (Z.abs y).

Definition toISOString (t : datetime) : string :=
  iso_year (dt_year t) +:+ "-" +:+ pad_num 2 (dt_month t) +:+ "-" +:+ pad_num 2 (dt_day t)
  +:+ "T" +:+ pad_num 2 (dt_hour t) +:+ ":" +:+ pad_num 2 (dt_min t) +:+ ":"
  +:+ pad_num 2 (dt_sec t) +:+ "." +:+ pad_num 3 (dt_ms t) +:+ "Z".

(** ** What the handlers take from the platform

    [date_iso v] is [new Date(v).toISOString()], or the empty text when
    [new Date(v)] is an invalid date; [JSON_stringify] is [JSON.stringify] on
    a request body; [tz_offset] is what local time is ahead of UTC, in
    milliseconds. *)
Class Runtime : Type := {
  date_iso : jsval -> string;
  JSON_stringify : gmap string jsval -> string;
  tz_offset : Z }.

(** ** The Record Store and the CSV files

    The Mongo collections are lists of documents in insertion order. A
    ticket document keeps the attributes the handlers write in [fields]
    (a Date-valued attribute is kept as its ISO text) and the three
    instants [closedAt], [createdAt] and [updatedAt] apart. The store
    executes the operations the handlers issue; of the schema it enforces
    [required], [unique] and, for updates, the strict set of paths; the
    casting of attribute types is not modelled. *)

Record ticket_doc : Type := mkDoc {
  fields : gmap string jsval;
  closedAt : option datetime;
  createdAt : datetime;
  updatedAt : datetime }.

Record history_entry : Type := mkHistory {
  h_ticket_id : jsval;
  h_timestamp : datetime;
  h_action : string;
  h_changes : string;
  h_editor : jsval }.

Record store : Type := mkStore {
  tickets_db : list ticket_doc;
  history_db : list history_entry;
  tickets_file : option string;
  history_file : option string }.

Inductive db_error : Type := DuplicateKey | ValidationError | StoreUnavailable.

Inductive dbres (A : Type) : Type :=
  | Ok (a : A)
  | Err (e : db_error).
Arguments Ok {A} a.
Arguments Err {A} e.

Inductive response : Type :=
  | RJson (o : gmap string jsval)
  | RList (l : list (gmap string jsval))
  | RError (code : Z) (msg : string).

Definition doc_id (d : ticket_doc) : jsval := get (fields d) "ticket_id".

(** [required: true] of a String path: null, undefined and the empty text fail. *)
Definition required_ok (v : jsval) : bool :=
  match v with
  | VUndef | VNull => false
  | VStr s => nonempty s
  | _ => true
  end.

(** [new Ticket(fields).save()] under the schema of [models/Ticket.js]:
    [ticket_id] and [category] are required, [ticket_id] is unique, and
    [timestamps: true] stamps the document. [up] tells whether the store
    answers. *)
Definition ticket_save (up : bool) (now : datetime) (f : gmap string jsval)
    (docs : list ticket_doc) : dbres (list ticket_doc) :=
  if negb up then Err StoreUnavailable
  else if negb (required_ok (get f "ticket_id") && required_ok (get f "category"))
  then Err ValidationError
  else if bool_decide (get f "ticket_id" ∈ map doc_id docs) then Err DuplicateKey
  else Ok (docs ++ [mkDoc f None now now]).

(** [TicketHistory.create(entry)]; [ticket_id] and [action] are required. *)
Definition history_save (up : bool) (e : history_entry)
    (hs : list history_entry) : dbres (list history_entry) :=
  if negb up then Err StoreUnavailable
  else if negb (required_ok (h_ticket_id e)) then Err ValidationError
  else Ok (hs ++ [e]).

(** A [try { await op } catch { log }]: the collection stays as it was. *)
Definition or_unchanged {A : Type} (r : dbres A) (old : A) : A :=
  match r with
  | Ok a => a
  | Err _ => old
  end.

(** [fs.appendFileSync]: the file is created when it is not there. *)
Definition append_file (file : option string) (text : string) : option string :=
  Some (default EmptyString file +:+ text).

Definition TICKETS_HEADER : list string :=
  ["ticket_id"; "category"; "sub_category"; "opened"; "reported_by"; "priority";
   "building"; "location"; "impacted"; "description"; "detectedBy"; "time_detected";
   "root_cause"; "actions_taken"; "status"; "assigned_to"; "resolution_summary";
   "resolution_time"; "duration"; "post_review"; "attachments"; "escalation_history";
   "closed"; "sla_breach"].

(** The content [tickets.csv] is created with when the module loads. *)
Definition fresh_tickets_file : string := join "," TICKETS_HEADER +:+ str1 newline.

Definition fresh_history_file : string :=
  "ticket_id,timestamp,action,changes,editor" +:+ str1 newline.

(** ** The identifier generator *)

Definition BUILDING_CODES : gmap string jsval :=
  list_to_map [("LOS1", VStr "LOS1"); ("LOS2", VStr "LOS2"); ("LOS3", VStr "LOS3");
               ("LOS4", VStr "LOS4"); ("LOS5", VStr "LOS5")].

Definition CATEGORY_SHORT : gmap string jsval :=
  list_to_map [("Network", VStr "NET"); ("Server", VStr "SER"); ("Storage", VStr "STOR");
               ("Power", VStr "PWD"); ("Cooling", VStr "COOL"); ("Security", VStr "SEC");
               ("Access Control", VStr "AC"); ("Application", VStr "APP");
               ("Database", VStr "DBS")].

(** *** What a plain object inherits

    [CATEGORY_SHORT] and [BUILDING_CODES] are object literals, so
    [table[key]] finds the table's own properties and, under a name the
    table does not have, the property of [Object.prototype] of that name.
    Each of these is a function, except [__proto__], which reads as
    [Object.prototype] itself; all of them are truthy. The texts are what
    a template literal makes of them in Node.js. *)

Definition native_function (name : string) : string :=
  "function " +:+ name +:+ "() { [native code] }".

Definition OBJECT_PROTOTYPE : list (string * string) :=
  [ ("constructor", native_function "Object");
    ("__defineGetter__", native_function "__defineGetter__");
    ("__defineSetter__", native_function "__defineSetter__");
    ("hasOwnProperty", native_function "hasOwnProperty");
    ("__lookupGetter__", native_function "__lookupGetter__");
    ("__lookupSetter__", native_function "__lookupSetter__");
    ("isPrototypeOf", native_function "isPrototypeOf");
    ("propertyIsEnumerable", native_function "propertyIsEnumerable");
    ("toString", native_function "toString");
    ("valueOf", native_function "valueOf");
    ("__proto__", "[object Object]");
    ("toLocaleString", native_function "toLocaleString") ].

Definition inherited (key : string) : option string :=
  (list_to_map OBJECT_PROTOTYPE : gmap string string) !! key.

(** [Ticket.countDocuments({ category })] *)
Definition count_category (docs : list ticket_doc) (category : jsval) : nat :=
  length (filter (fun d => get (fields d) "category" = category) docs).

(** [header.indexOf(name)] *)
Fixpoint index_of (name : string) (l : list string) : option nat :=
  match l with
  | [] => None
  | x :: rest => if String.eqb x name then Some O else S <$> index_of name rest
  end.

(** [cols[i]?.replace(..).replace(..)]: undefined when the column is not there. *)
Definition cell_opt (cols : list string) (i : nat) : jsval :=
  match cols !! i with
  | Some c => VStr (unquote c)
  | None => VUndef
  end.

(** The fallback count of [generateTicketId], on the text of [tickets.csv]. *)
Definition csv_category_count (file : option string) (category : jsval) : nat :=
  match file with
  | None => O
  | Some content =>
      match split (str1 newline) (trim content) with
      | hl :: ((_ :: _) as rows) =>
          match index_of "category" (parse_header hl) with
          | Some catIndex =>
              length (filter (fun line => cell_opt (csv_tokens line) catIndex = category) rows)
          | None => O
          end
      | _ => O
      end
  end.

Definition sequence_text (count : nat) : string :=
  padStart0 4 (dec_of_Z (Z.of_nat count + 1)).

(** [`${table[key] || dflt}`]: the table's own property when it has one,
    else what the table inherits under that name, else the default. *)
Definition lookup_code (table : gmap string jsval) (key dflt : string) : string :=
  match table !! key with
  | Some v => to_str (js_or v (VStr dflt))
  | None => default dflt (inherited key)
  end.

Definition short_code (category : jsval) : string :=
  lookup_code CATEGORY_SHORT (to_str category) "GEN".

Definition building_code (building : jsval) : string :=
  lookup_code BUILDING_CODES (to_str building) "LOS5".

(** [now.toISOString().slice(0, 10).replace(/-/g, '')] *)
Definition yyyymmdd (now : datetime) : string :=
  remove_dashes (take_str 10 (toISOString now)).

(** The count the sequence is taken from: the store when it answers, the
    CSV mirror when it does not. *)
Definition existing_in_category (up : bool) (st : store) (category : jsval) : nat :=
  if up then count_category (tickets_db st) category
  else csv_category_count (tickets_file st) category.

Definition generateTicketId (up : bool) (st : store) (now : datetime)
    (category building : jsval) : string :=
  let short := short_code category in
  let buildingCode := building_code building in
  let sequence := sequence_text (existing_in_category up st category) in
  "KASI-" +:+ buildingCode +:+ "-" +:+ yyyymmdd now +:+ "-" +:+ short +:+ "-" +:+ sequence.

(** ** [POST /]: create a ticket *)

Definition ends_with_Z (s : string) : bool :=
  match String.rev s with
  | String c _ => Ascii.eqb c "Z"%char
  | EmptyString => false
  end.

(** [parseToISO] *)
Definition parseToISO `{Runtime} (input : jsval) : string :=
  if negb (truthy input) then EmptyString
  else match input with
       | VStr s => if ends_with_Z s then s else date_iso input
       | _ => date_iso input
       end.

(** [formatDateTime(v || new Date())] *)
Definition format_or_now `{Runtime} (now : datetime) (v : jsval) : string :=
  if truthy v then date_iso v else toISOString now.

(** [formatDateTime(v || '')] *)
Definition format_or_empty `{Runtime} (v : jsval) : string :=
  date_iso (js_or v (VStr EmptyString)).

Definition or_empty (v : jsval) : jsval := js_or v (VStr EmptyString).

Definition yes_no (b : bool) : jsval := VStr (if b then "Yes" else "No").

(** [s.split(';').filter(Boolean)] *)
Definition split_names (s : string) : list string :=
  filter (fun f => nonempty f = true) (split ";" s).

(** [Array.isArray(v) ? v.join(';') : (v || dflt)] *)
Definition assigned_text (v dflt : jsval) : jsval :=
  match v with
  | VArr l => VStr (join ";" l)
  | _ => js_or v dflt
  end.

(** [Array.isArray(v) ? v : (typeof v === 'string' ? v.split(';').filter(Boolean) : dflt)] *)
Definition assigned_array (v dflt : jsval) : jsval :=
  match v with
  | VArr l => VArr l
  | VStr s => VArr (split_names s)
  | _ => dflt
  end.

(** [fileNames ? fileNames.split(';').filter(Boolean) : dflt] *)
Definition attachments_array (fileNames : string) (dflt : jsval) : jsval :=
  if nonempty fileNames then VArr (split_names fileNames) else dflt.

(** [parseToISO(v) || dflt] *)
Definition iso_or `{Runtime} (v dflt : jsval) : jsval :=
  let s := parseToISO v in if nonempty s then VStr s else dflt.

(** The 24 cells of the CSV row of a new ticket, in header order. *)
Definition create_row_values `{Runtime} (now : datetime) (ticket_id : jsval)
    (body : gmap string jsval) (fileNames : string) : list jsval :=
  [ ticket_id;
    or_empty (get body "category");
    or_empty (get body "sub_category");
    VStr (format_or_now now (get body "opened"));
    or_empty (get body "reported_by");
    or_empty (get body "priority");
    or_empty (get body "building");
    or_empty (get body "location");
    or_empty (get body "impacted");
    or_empty (get body "description");
    or_empty (get body "detectedBy");
    or_empty (get body "time_detected");
    or_empty (get body "root_cause");
    or_empty (get body "actions_taken");
    js_or (get body "status") (VStr "Open");
    assigned_text (get body "assigned_to") (VStr EmptyString);
    or_empty (get body "resolution_summary");
    VStr (format_or_empty (get body "resolution_time"));
    or_empty (get body "duration");
    yes_no (truthy (get body "post_review"));
    VStr fileNames;
    or_empty (get body "escalation_history");
    VStr (format_or_empty (get body "closed"));
    yes_no (truthy (get body "sla_breach")) ].

(** [values.map(csvEscape).join(',') + '\n'] *)
Definition csv_line (values : list jsval) : string :=
  join "," (map csvEscape values) +:+ str1 newline.

(** The attributes of the document [new Ticket({...})] is built from. *)
Definition create_doc_fields `{Runtime} (now : datetime) (ticket_id : jsval)
    (body : gmap string jsval) (fileNames : string) : gmap string jsval :=
  assign_all ∅
  [ ("ticket_id", ticket_id);
    ("category", or_empty (get body "category"));
    ("sub_category", or_empty (get body "sub_category"));
    ("opened", iso_or (get body "opened") (VStr (toISOString now)));
    ("reported_by", or_empty (get body "reported_by"));
    ("priority", or_empty (get body "priority"));
    ("building", or_empty (get body "building"));
    ("location", or_empty (get body "location"));
    ("impacted", or_empty (get body "impacted"));
    ("description", or_empty (get body "description"));
    ("detectedBy", or_empty (get body "detectedBy"));
    ("time_detected", iso_or (get body "time_detected") VNull);
    ("root_cause", or_empty (get body "root_cause"));
    ("actions_taken", or_empty (get body "actions_taken"));
    ("status", js_or (get body "status") (VStr "Open"));
    ("assigned_to", assigned_array (get body "assigned_to") (VArr []));
    ("resolution_summary", or_empty (get body "resolution_summary"));
    ("resolution_time", iso_or (get body "resolution_time") VNull);
    ("duration", or_empty (get body "duration"));
    ("post_review", VBool (truthy (get body "post_review")));
    ("attachments", attachments_array fileNames (VArr []));
    ("escalation_history", or_empty (get body "escalation_history"));
    ("closed", iso_or (get body "closed") VNull);
    ("sla_breach", VBool (truthy (get body "sla_breach"))) ].

(** The handler. [up]: the store answers during this request; [now]: the
    clock; [files]: the base names of the uploaded files. *)
Definition post `{Runtime} (up : bool) (now : datetime) (body : gmap string jsval)
    (files : list string) (st : store) : store * response :=
  let ticket_id :=
    js_or (get body "ticket_id")
          (VStr (generateTicketId up st now (get body "category") (get body "building"))) in
  let fileNames := join ";" files in
  let row := csv_line (create_row_values now ticket_id body fileNames) in
  let tfile := append_file (tickets_file st) row in
  let tdb :=
    or_unchanged
      (ticket_save up now (create_doc_fields now ticket_id body fileNames) (tickets_db st))
      (tickets_db st) in
  let changes := JSON_stringify (<["attachments" := VStr fileNames]> body) in
  let editor := or_empty (get body "reported_by") in
  let historyLine :=
    csv_line [ticket_id; VStr (toISOString now); VStr "create"; VStr changes; editor] in
  let hfile := append_file (history_file st) historyLine in
  let hdb :=
    or_unchanged (history_save up (mkHistory ticket_id now "create" changes editor) (history_db st))
      (history_db st) in
  let urls := if nonempty fileNames then toAttachmentUrls (VStr fileNames) else [] in
  (mkStore tdb hdb tfile hfile,
   RJson (<["attachments" := VArr urls]>
            (body ∪ <["ticket_id" := ticket_id]> {["success" := VBool true]}))).

(** ** [PUT /:id]: update a ticket *)

(** [Ticket.findOne({ ticket_id: id })] *)
Definition has_id (id : string) (d : ticket_doc) : bool :=
  bool_decide (doc_id d = VStr id).

Fixpoint find_doc (id : string) (docs : list ticket_doc) : option ticket_doc :=
  match docs with
  | [] => None
  | d :: rest => if has_id id d then Some d else find_doc id rest
  end.

(** What [closedAt] the update object carries. *)
Inductive closedAt_update : Type :=
  | KeepClosedAt
  | SetClosedAt (t : datetime)
  | ClearClosedAt.

(** The status logic of the handler: [newStatus = body.status ?? doc.status]. *)
Definition closedAt_logic (now : datetime) (body : gmap string jsval)
    (doc : ticket_doc) : closedAt_update :=
  let newStatus := js_nullish (get body "status") (get (fields doc) "status") in
  let oldStatus := get (fields doc) "status" in
  if bool_decide (newStatus = VStr "Closed") && negb (bool_decide (oldStatus = VStr "Closed"))
  then SetClosedAt now
  else if bool_decide (oldStatus = VStr "Closed") && negb (bool_decide (newStatus = VStr "Closed"))
  then ClearClosedAt
  else KeepClosedAt.

(** [body.k !== undefined ? !!body.k : doc.k] *)
Definition flag_or (v dflt : jsval) : jsval :=
  match v with
  | VUndef => dflt
  | _ => VBool (truthy v)
  end.

(** [files.join(';') || (doc.attachments ? doc.attachments.join(';') : '')].
    [None]: a TypeError, when [doc.attachments] is truthy and has no [join]
    (the schema makes it an array). *)
Definition db_fileNames (files : list string) (doc : ticket_doc) : option string :=
  let uploaded := join ";" files in
  if nonempty uploaded then Some uploaded
  else match get (fields doc) "attachments" with
       | VArr l => Some (join ";" l)
       | v => if truthy v then None else Some EmptyString
       end.

(** The attributes of [updateObj]. *)
Definition updateObj `{Runtime} (body : gmap string jsval) (fileNames : string)
    (doc : ticket_doc) : list (string * jsval) :=
  let d := fields doc in
  let keep k := js_nullish (get body k) (get d k) in
  [ ("category", keep "category");
    ("sub_category", keep "sub_category");
    ("opened", iso_or (get body "opened") (get d "opened"));
    ("reported_by", keep "reported_by");
    ("priority", keep "priority");
    ("building", keep "building");
    ("location", keep "location");
    ("impacted", keep "impacted");
    ("description", keep "description");
    ("detectedBy", keep "detectedBy");
    ("time_detected", iso_or (get body "time_detected") (get d "time_detected"));
    ("root_cause", keep "root_cause");
    ("actions_taken", keep "actions_taken");
    ("status", keep "status");
    ("assigned_to", assigned_array (get body "assigned_to") (get d "assigned_to"));
    ("resolution_summary", keep "resolution_summary");
    ("resolution_time", iso_or (get body "resolution_time") (get d "resolution_time"));
    ("duration", keep "duration");
    ("post_review", flag_or (get body "post_review") (get d "post_review"));
    ("attachments", attachments_array fileNames (js_or (get d "attachments") (VArr [])));
    ("escalation_history", keep "escalation_history");
    ("closed", iso_or (get body "closed") (get d "closed"));
    ("sla_breach", flag_or (get body "sla_breach") (get d "sla_breach")) ].

(** The paths of the schema of [models/Ticket.js]; [timestamps: true] adds
    [createdAt] and [updatedAt]. *)
Definition SCHEMA_PATHS : list string :=
  ["ticket_id"; "category"; "sub_category"; "opened"; "reported_by"; "priority";
   "building"; "location"; "impacted"; "description"; "detectedBy"; "time_detected";
   "root_cause"; "actions_taken"; "status"; "assigned_to"; "resolution_summary";
   "resolution_time"; "duration"; "post_review"; "attachments"; "escalation_history";
   "closed"; "sla_breach"; "createdAt"; "updatedAt"].

Definition in_schema (path : string) : bool := bool_decide (path ∈ SCHEMA_PATHS).

(** [Ticket.updateOne({ ticket_id: id }, { $set: updateObj })] on the
    document found. The schema is strict: a name of the update that is no
    path of the schema is dropped before the update reaches the store. The
    attributes of [updateObj] are paths and are set. [closedAt], which the
    handler adds to [updateObj] when the status crosses Closed, is a path
    only if the schema says so. [updatedAt] is stamped. [None]: the handler
    threw before the update was issued. *)
Definition apply_update `{Runtime} (now : datetime) (body : gmap string jsval)
    (files : list string) (doc : ticket_doc) : option ticket_doc :=
  match db_fileNames files doc with
  | None => None
  | Some fileNames =>
      Some (mkDoc (assign_all (fields doc)
                     (filter (fun kv => in_schema kv.1 = true)
                             (updateObj body fileNames doc)))
                  (if in_schema "closedAt" then
                     match closedAt_logic now body doc with
                     | KeepClosedAt => closedAt doc
                     | SetClosedAt t => Some t
                     | ClearClosedAt => None
                     end
                   else closedAt doc)
                  (createdAt doc)
                  now)
  end.

(** The first document with the id is the one replaced. *)
Fixpoint update_first (id : string) (d' : ticket_doc)
    (docs : list ticket_doc) : list ticket_doc :=
  match docs with
  | [] => []
  | d :: rest => if has_id id d then d' :: rest else d :: update_first id d' rest
  end.

(** The database half of the handler, inside its [try]: when the store
    does not answer or the handler throws, the collection stays as it was. *)
Definition put_db `{Runtime} (up : bool) (now : datetime) (id : string)
    (body : gmap string jsval) (files : list string)
    (docs : list ticket_doc) : list ticket_doc :=
  if up then
    match find_doc id docs with
    | Some doc =>
        match apply_update now body files doc with
        | Some doc' => update_first id doc' docs
        | None => docs
        end
    | None => docs
    end
  else docs.

(** [cols[0]?.replace(..).replace(..) === id] *)
Definition line_has_id (id : string) (line : string) : bool :=
  bool_decide (cell_opt (csv_tokens line) 0 = VStr id).

(** The row object of a matching line, [newRowObj]. *)
Definition newRowObj (header : list string) (body : gmap string jsval)
    (files : list string) (line : string) : gmap string jsval :=
  let old := row_object header (csv_tokens line) in
  let assigned_to := assigned_text (get body "assigned_to") (get old "assigned_to") in
  let post_review :=
    match get body "post_review" with
    | VUndef => get old "post_review"
    | v => yes_no (truthy v)
    end in
  let sla_breach :=
    match get body "sla_breach" with
    | VUndef => get old "sla_breach"
    | v => yes_no (truthy v)
    end in
  let fileNames := js_or (VStr (join ";" files)) (get old "attachments") in
  <["attachments" := fileNames]>
    (<["sla_breach" := sla_breach]>
      (<["post_review" := post_review]>
        (<["assigned_to" := assigned_to]> (body ∪ old)))).

(** [header.map(h => csvEscape(newRowObj[h] || '')).join(',')] *)
Definition row_text (header : list string) (o : gmap string jsval) : string :=
  join "," (map (fun h => csvEscape (or_empty (get o h))) header).

(** The callback of [lines.map]. *)
Definition update_line (header : list string) (id : string) (body : gmap string jsval)
    (files : list string) (line : string) : string :=
  if line_has_id id line then row_text header (newRowObj header body files line)
  else line.

(** [updatedTicket]: assigned at every matching line, so the last one stays. *)
Definition updatedTicket (header : list string) (id : string) (body : gmap string jsval)
    (files : list string) (rows : list string) : option (gmap string jsval) :=
  (fun line =>
     let o := newRowObj header body files line in
     <["attachments" := VArr (toAttachmentUrls (get o "attachments"))]> o)
  <$> last (filter (fun line => line_has_id id line = true) rows).

(** The handler. *)
Definition put `{Runtime} (up : bool) (now : datetime) (id : string)
    (body : gmap string jsval) (files : list string) (st : store) : store * response :=
  let tdb := put_db up now id body files (tickets_db st) in
  match tickets_file st with
  | None =>
      (mkStore tdb (history_db st) None (history_file st), RError 404 "No tickets file")
  | Some content =>
      let '(hl, rows) := file_lines content in
      let header := parse_header hl in
      let found := existsb (line_has_id id) rows in
      let updatedLines := map (update_line header id body files) rows in
      if negb found then
        (mkStore tdb (history_db st) (Some content) (history_file st),
         RError 404 "Ticket not found")
      else
        let text :=
          join (str1 newline) (join "," (map (fun h => csvEscape (VStr h)) header) :: updatedLines)
          +:+ str1 newline in
        let changes := JSON_stringify body in
        let editor := or_empty (get body "reported_by") in
        let historyLine :=
          csv_line [VStr id; VStr (toISOString now); VStr "update"; VStr changes; editor] in
        let hfile := append_file (history_file st) historyLine in
        let hdb :=
          or_unchanged
            (history_save up (mkHistory (VStr id) now "update" changes editor) (history_db st))
            (history_db st) in
        (mkStore tdb hdb (Some text) hfile,
         RJson (default ∅ (updatedTicket header id body files rows)
                ∪ <["ticket_id" := VStr id]> {["success" := VBool true]}))
  end.

(** ** [GET /stats]: the statistics aggregator *)

Record stats_query : Type := mkQuery {
  q_month : option string;
  q_week : option string;
  q_year : option string }.

(** A query parameter that is there and not empty. *)
Definition given (p : option string) : option string :=
  match p with
  | Some s => if nonempty s then Some s else None
  | None => None
  end.

(** [$year], [$month] and [$dayOfMonth] of an instant. *)
Definition ymd (t : datetime) : Z * Z * Z := (dt_year t, dt_month t, dt_day t).

(** [s.split(sep).map(Number)[i]]; [None] stands for [NaN] and for a part
    that is not there. *)
Definition number_part (parts : list string) (i : nat) : option Z :=
  parts !! i ≫= js_number.

(** [new Date(yr, 0, day)] in local time, as milliseconds since the epoch;
    the years 0..99 stand for 1900..1999. *)
Definition local_date_ms `{Runtime} (yr day : Z) : Z :=
  let y := if (0 <=? yr) && (yr <=? 99) then 1900 + yr else yr in
  (DayFromYear y + (day - 1)) * msPerDay - tz_offset.

(** The filter [match]. [None]: the week did not parse, the filter holds an
    invalid Date and the store rejects the queries. *)
Definition build_match `{Runtime} (q : stats_query) : option (ticket_doc -> bool) :=
  match given (q_month q) with
  | Some month =>
      let parts := split "-" month in
      Some (fun d =>
        bool_decide (Some (dt_year (createdAt d)) = number_part parts 0) &&
        bool_decide (Some (dt_month (createdAt d)) = number_part parts 1))
  | None =>
      match given (q_week q) with
      | Some week =>
          let parts := split "-W" week in
          match number_part parts 0, number_part parts 1 with
          | Some yr, Some weekNum =>
              let startDate := local_date_ms yr ((weekNum - 1) * 7 + 1) in
              let endDate := local_date_ms yr (weekNum * 7 + 1) in
              Some (fun d =>
                (startDate <=? time_ms (createdAt d)) && (time_ms (createdAt d) <? endDate))
          | _, _ => None
          end
      | None =>
          match given (q_year q) with
          | Some year =>
              Some (fun d => bool_decide (Some (dt_year (createdAt d)) = js_number year))
          | None => Some (fun _ => true)
          end
      end
  end.

(** [$group] with [$sum: 1]: the groups in the order their keys first occur. *)
Fixpoint tally {K : Type} `{EqDecision K} (k : K) (acc : list (K * nat)) : list (K * nat) :=
  match acc with
  | [] => [(k, 1%nat)]
  | (k', n) :: rest => if decide (k = k') then (k', S n) :: rest else (k', n) :: tally k rest
  end.

Definition group_count {K : Type} `{EqDecision K} (keys : list K) : list (K * nat) :=
  foldl (fun acc k => tally k acc) [] keys.

(** [$sort: { '_id.year': 1, '_id.month': 1, '_id.day': 1 }] *)
Definition day_le (a b : Z * Z * Z) : Prop :=
  let '(y1, m1, d1) := a in
  let '(y2, m2, d2) := b in
  y1 < y2 \/ (y1 = y2 /\ (m1 < m2 \/ (m1 = m2 /\ d1 <= d2))).

#[global] Instance day_le_dec a b : Decision (day_le a b).
Proof. destruct a as [[? ?] ?], b as [[? ?] ?]. unfold day_le. apply _. Defined.

Definition group_le (a b : (Z * Z * Z) * nat) : Prop := day_le a.1 b.1.

#[global] Instance group_le_dec a b : Decision (group_le a b).
Proof. unfold group_le. apply _. Defined.

(** Opened per day. *)
Definition ticketsOpenedOverTime (mt : ticket_doc -> bool)
    (docs : list ticket_doc) : list ((Z * Z * Z) * nat) :=
  merge_sort group_le
    (group_count (map (fun d => ymd (createdAt d)) (filter (fun d => mt d = true) docs))).

(** [$ifNull: ['$closedAt', '$createdAt']] *)
Definition closed_instant (d : ticket_doc) : datetime := default (createdAt d) (closedAt d).

Definition is_closed (d : ticket_doc) : bool :=
  bool_decide (get (fields d) "status" = VStr "Closed").

(** Closed per day: the filter and [status: 'Closed']. *)
Definition ticketsClosedOverTime (mt : ticket_doc -> bool)
    (docs : list ticket_doc) : list ((Z * Z * Z) * nat) :=
  merge_sort group_le
    (group_count (map (fun d => ymd (closed_instant d))
                      (filter (fun d => mt d && is_closed d = true) docs))).

(** [`${year}-${month}-${day}`] *)
Definition dateKey (k : Z * Z * Z) : string :=
  let '(y, m, d) := k in dec_of_Z y +:+ "-" +:+ dec_of_Z m +:+ "-" +:+ dec_of_Z d.

(** [new Set(list)], in insertion order. *)
Definition set_of_list (l : list string) : list string :=
  reverse (remove_dups (reverse l)).

(** [n == s] for a number and a piece of text that may be missing. *)
Definition loose_eq (n : Z) (s : option string) : bool :=
  match s with
  | Some t => bool_decide (js_number t = Some n)
  | None => false
  end.

Definition find_group (y m d : option string)
    (groups : list ((Z * Z * Z) * nat)) : option ((Z * Z * Z) * nat) :=
  snd <$> list_find (fun g => loose_eq g.1.1.1 y && loose_eq g.1.1.2 m && loose_eq g.1.2 d = true)
            groups.

Record day_entry : Type := mkEntry { e_date : string; e_opened : nat; e_closed : nat }.

(** [String(x)] of a destructured piece.  *)
Definition piece (p : option string) : string := default "undefined" p.

(** One pass of [allDates.forEach]. *)
Definition merge_entry (opened closed : list ((Z * Z * Z) * nat)) (key : string) : day_entry :=
  let parts := split "-" key in
  let y := parts !! 0%nat in
  let m := parts !! 1%nat in
  let d := parts !! 2%nat in
  mkEntry (piece y +:+ "-" +:+ padStart0 2 (piece m) +:+ "-" +:+ padStart0 2 (piece d))
          (default O (snd <$> find_group y m d opened))
          (default O (snd <$> find_group y m d closed)).

(** [new Date(text).getTime()] for the date-only ISO form [YYYY-MM-DD], as
    ECMAScript specifies it (UTC midnight; an illegal element gives NaN).
    Every other text is taken as an invalid date. *)
Definition date_parse (s : string) : option Z :=
  match split "-" s with
  | [y; m; d] =>
      if (String.length y =? 4)%nat && (String.length m =? 2)%nat && (String.length d =? 2)%nat
      then
        match digits_value y, digits_value m, digits_value d with
        | Some yv, Some mv, Some dv =>
            let '(yz, mz, dz) := (Z.of_N yv, Z.of_N mv, Z.of_N dv) in
            if (1 <=? mz) && (mz <=? 12) && (1 <=? dz) && (dz <=? days_in_month yz mz)
            then Some (MakeDay yz mz dz * msPerDay)
            else None
        | _, _, _ => None
        end
      else None
  | _ => None
  end.

(** The comparator [(a, b) => new Date(a.date) - new Date(b.date)]; a NaN
    difference counts as 0. *)
Definition date_cmp (a b : day_entry) : Z :=
  match date_parse (e_date a), date_parse (e_date b) with
  | Some x, Some y => x - y
  | _, _ => 0
  end.

Definition entry_le (a b : day_entry) : Prop := date_cmp a b <= 0.

#[global] Instance entry_le_dec a b : Decision (entry_le a b).
Proof. unfold entry_le. apply _. Defined.

(** [mergedOverTime], sorted. The sort is stable; on a consistent
    comparator every stable sort gives the same list. *)
Definition mergedOverTime (opened closed : list ((Z * Z * Z) * nat)) : list day_entry :=
  let allDates := set_of_list (map (fun g => dateKey g.1) opened ++ map (fun g => dateKey g.1) closed) in
  merge_sort entry_le (map (merge_entry opened closed) allDates).

(** The two SLA filters: an equality matches the value, and [null] also
    matches a property that is not there. *)
Definition sla_breached_values : list jsval :=
  [VBool true; VStr "Yes"; VStr "yes"; VStr "checked"; VNum 1].

Definition sla_onTime_values : list jsval :=
  [VBool false; VStr "No"; VStr "no"; VStr "unchecked"; VNum 0; VNull; VUndef].

Definition matches_any (values : list jsval) (field : string) (d : ticket_doc) : bool :=
  bool_decide (get (fields d) field ∈ values).

Definition count_where (p : ticket_doc -> bool) (docs : list ticket_doc) : nat :=
  length (filter (fun d => p d = true) docs).

(** The response, without [complianceRate] and [analytics] (floating-point
    text and the maxima of the groups). *)
Record stats_result : Type := mkStats {
  totalTickets : nat;
  byStatus : list (jsval * nat);
  byCategory : list (jsval * nat);
  byPriority : list (jsval * nat);
  ticketsOverTime : list day_entry;
  sla_breached : nat;
  sla_onTime : nat }.

Definition group_field (field : string) (mt : ticket_doc -> bool)
    (docs : list ticket_doc) : list (jsval * nat) :=
  group_count (map (fun d => get (fields d) field) (filter (fun d => mt d = true) docs)).

Definition aggregate (mt : ticket_doc -> bool) (docs : list ticket_doc) : stats_result :=
  mkStats (count_where mt docs)
          (group_field "status" mt docs)
          (group_field "category" mt docs)
          (group_field "priority" mt docs)
          (mergedOverTime (ticketsOpenedOverTime mt docs) (ticketsClosedOverTime mt docs))
          (count_where (fun d => mt d && matches_any sla_breached_values "slaBreached" d) docs)
          (count_where (fun d => mt d && matches_any sla_onTime_values "slaBreached" d) docs).

(** The handler: a failure of the store is a 500. *)
Definition stats `{Runtime} (up : bool) (q : stats_query) (st : store) : dbres stats_result :=
  if up then
    match build_match q with
    | Some mt => Ok (aggregate mt (tickets_db st))
    | None => Err ValidationError
    end
  else Err StoreUnavailable.

(** ** ISO 8601 weeks, as the standard defines them

    Weeks run from Monday to Sunday, and week 1 of a year is the week that
    holds 4 January. Days are numbered from the epoch, a Thursday. *)

(** Monday = 1 .. Sunday = 7 *)
Definition iso_weekday (day : Z) : Z := (day + 3) mod 7 + 1.

(** The day number of the Monday that starts week [w] of ISO year [y]. *)
Definition iso_week_start (y w : Z) : Z :=
  let jan4 := MakeDay y 1 4 in
  jan4 - (iso_weekday jan4 - 1) + 7 * (w - 1).

(** The instant falls in ISO week [w] of year [y], in local time. *)
Definition in_iso_week `{Runtime} (y w : Z) (t : datetime) : bool :=
  let start := iso_week_start y w * msPerDay - tz_offset in
  (start <=? time_ms t) && (time_ms t <? start + 7 * msPerDay).

(** A platform for examples: UTC, no date parsing. *)
Definition utc_runtime : Runtime :=
  {| date_iso := fun _ => EmptyString;
     JSON_stringify := fun _ => "{}";
     tz_offset := 0 |}.

(** ** Vocabulary of the statements *)

(** The names [updateObj] sets. *)
Definition UPDATE_KEYS : list string :=
  ["category"; "sub_category"; "opened"; "reported_by"; "priority"; "building";
   "location"; "impacted"; "description"; "detectedBy"; "time_detected"; "root_cause";
   "actions_taken"; "status"; "assigned_to"; "resolution_summary"; "resolution_time";
   "duration"; "post_review"; "attachments"; "escalation_history"; "closed"; "sla_breach"].

Fixpoint has_char (c : ascii) (s : string) : bool :=
  match s with
  | EmptyString => false
  | String a t => Ascii.eqb c a || has_char c t
  end.

(** A file name as the handlers store it: not empty, no semicolon. *)
Definition clean_name (n : string) : bool := nonempty n && negb (has_char semicolon n).

(** [doc.attachments] is an array of such names. *)
Definition attachments_clean (d : ticket_doc) : Prop :=
  exists l, get (fields d) "attachments" = VArr l /\ Forall (fun n => clean_name n = true) l.

(** The ticket ids of the two stores. *)
Definition db_ids (st : store) : list jsval := map doc_id (tickets_db st).

Definition csv_ids (st : store) : list jsval :=
  match tickets_file st with
  | Some content => map (fun line => cell_opt (csv_tokens line) 0) (file_lines content).2
  | None => []
  end.

(** The text of a CSV file with header line [hl] and data lines [rows]. *)
Definition csv_file (hl : string) (rows : list string) : string :=
  join (str1 newline) (hl :: rows) +:+ str1 newline.

(** ** A running example, built by the handlers themselves *)

Definition example_now : datetime := mkDate 2025 10 6 9 30 0 0.

Definition example_later : datetime := mkDate 2025 10 7 16 5 0 0.

Definition empty_store : store :=
  mkStore [] [] (Some fresh_tickets_file) (Some fresh_history_file).

Definition example_body : gmap string jsval :=
  list_to_map [("category", VStr "Network"); ("building", VStr "LOS1");
               ("description", VStr "link down, rack 4"); ("priority", VStr "P1");
               ("reported_by", VStr "ada"); ("sla_breach", VBool true)].

(** The store after one [POST /] with an upload. *)
Definition example_store : store :=
  (post (H := utc_runtime) true example_now example_body ["1-a.png"] empty_store).1.

Definition example_id : string := "KASI-LOS1-20251006-NET-0001".

Definition example_doc : ticket_doc :=
  default (mkDoc ∅ None example_now example_now) (find_doc example_id (tickets_db example_store)).

Definition close_body : gmap string jsval := {["status" := VStr "Closed"]}.


(** The data line of the example ticket in [tickets.csv]. *)
Definition example_line : string :=
  default EmptyString
    (tickets_file example_store ≫= (fun content => (file_lines content).2 !! 0%nat)).

(** What [csvEscape] wraps: [String(val || '')]. *)
Definition cell_text (v : jsval) : string := to_str (js_or v (VStr EmptyString)).

(** [rest] does not go on with a quote. *)
Definition no_quote_ahead (rest : string) : Prop :=
  match rest with
  | EmptyString => True
  | String c _ => is_dquote c = false
  end.

(** The ticket id [POST /] uses: the one of the body, or a generated one. *)
Definition post_ticket_id (up : bool) (now : datetime) (body : gmap string jsval)
    (st : store) : jsval :=
  js_or (get body "ticket_id")
        (VStr (generateTicketId up st now (get body "category") (get body "building"))).

(** A second [POST /] that names the id of the example ticket. *)
Definition duplicate_body : gmap string jsval :=
  <["ticket_id" := VStr example_id]> example_body.

Definition store_after_duplicate : store * response :=
  post (H := utc_runtime) true example_later duplicate_body [] example_store.

(** What [trim] does to the lines of a text: trailing lines of white space
    go, and the last line left loses its trailing white space. *)
Fixpoint trim_lines (l : list string) : list string :=
  match l with
  | [] => []
  | x :: rest =>
      match trim_lines rest with
      | [] => match trim_end x with
              | EmptyString => []
              | x' => [x']
              end
      | r => x :: r
      end
  end.

(** The line is not empty and does not end in white space. *)
Definition ends_solid (line : string) : Prop := trim_end line = line /\ line ≠ EmptyString.

(** The line starts with a character that is not white space. *)
Definition starts_solid (line : string) : Prop :=
  match line with
  | String c _ => is_space c = false
  | EmptyString => False
  end.

Definition no_newline (line : string) : Prop := has_char newline line = false.

(** A damaged file: the example row, and a second row cut after two columns. *)
Definition short_line : string := join "," (map csvEscape [VStr "T-2"; VStr "Power"]).

Definition damaged_file : string := csv_file (join "," TICKETS_HEADER) [short_line; example_line].

(** [d] is the decimal text of [n]: digits only, most significant first,
    as long as [n] needs. *)
Definition is_decimal_of (n : N) (d : string) : Prop :=
  d ≠ EmptyString
  /\ all_chars is_digit d = true
  /\ (forall a, digits_go a d = Some (a * 10 ^ N.of_nat (String.length d) + n)%N)
  /\ (n < 10 ^ N.of_nat (String.length d))%N
  /\ (String.length d = 1%nat \/ (10 ^ N.of_nat (String.length d - 1) <= n)%N).

(** The vocabulary of the identifier, as a reader would list it. *)
Definition KNOWN_BUILDINGS : list string := ["LOS1"; "LOS2"; "LOS3"; "LOS4"; "LOS5"].

Definition CATEGORY_CODES : list (string * string) :=
  [("Network", "NET"); ("Server", "SER"); ("Storage", "STOR"); ("Power", "PWD");
   ("Cooling", "COOL"); ("Security", "SEC"); ("Access Control", "AC");
   ("Application", "APP"); ("Database", "DBS")].

Fixpoint assoc (k : string) (l : list (string * string)) : option string :=
  match l with
  | [] => None
  | (k', v) :: rest => if String.eqb k k' then Some v else assoc k rest
  end.

Definition is_upper (c : ascii) : bool :=
  let n := N_of_ascii c in ((65 <=? n) && (n <=? 90))%N.

(** Two to four capital letters. *)
Definition code_ok (code : string) : bool :=
  (2 <=? String.length code)%nat && (String.length code <=? 4)%nat && all_chars is_upper code.

(** The statistics of a store, without a filter. *)
Definition all_time : stats_query := mkQuery None None None.

(** No handler writes the property the SLA counts read. *)
Definition no_slaBreached (d : ticket_doc) : Prop := fields d !! "slaBreached" = None.

(** Two tickets around the first days of 2025: Monday 30 December 2024 is
    in ISO week 1 of 2025, Tuesday 7 January 2025 is in ISO week 2. *)
Definition doc_created (t : datetime) : ticket_doc :=
  mkDoc (<["category" := VStr "Power"]> {["ticket_id" := VStr "T"]}) None t t.

Definition dec30 : datetime := mkDate 2024 12 30 12 0 0 0.

Definition jan7 : datetime := mkDate 2025 1 7 12 0 0 0.

Definition week1_2025 : stats_query := mkQuery None (Some "2025-W01") None.

Definition total_of (r : dbres stats_result) : option nat :=
  match r with
  | Ok s => Some (totalTickets s)
  | Err _ => None
  end.

(** ** Days, as the statement about the series names them *)

(** A calendar day with a year of four digits. *)
Definition valid_day (k : Z * Z * Z) : Prop :=
  let '(y, m, d) := k in
  1000 <= y <= 9999 /\ 1 <= m <= 12 /\ 1 <= d <= days_in_month y m.

(** [YYYY-MM-DD], zero-padded. *)
Definition fmt_date (k : Z * Z * Z) : string :=
  let '(y, m, d) := k in pad_num 4 y +:+ "-" +:+ pad_num 2 m +:+ "-" +:+ pad_num 2 d.

(** Earlier day. *)
Definition day_lt (a b : Z * Z * Z) : Prop :=
  let '(y1, m1, d1) := a in
  let '(y2, m2, d2) := b in
  y1 < y2 \/ (y1 = y2 /\ (m1 < m2 \/ (m1 = m2 /\ d1 < d2))).

Definition day_number (k : Z * Z * Z) : Z := let '(y, m, d) := k in MakeDay y m d.

(** The days on which a ticket of the filtered set was opened, and those
    on which a closed ticket of the set was closed (its closedAt, or its
    createdAt when it has none). *)
Definition opened_days (mt : ticket_doc -> bool) (docs : list ticket_doc) : list (Z * Z * Z) :=
  map (fun d => ymd (createdAt d)) (filter (fun d => mt d = true) docs).

Definition closed_days (mt : ticket_doc -> bool) (docs : list ticket_doc) : list (Z * Z * Z) :=
  map (fun d => ymd (closed_instant d)) (filter (fun d => mt d && is_closed d = true) docs).

(** The dates of a document are days of four-digit years. *)
Definition dated (d : ticket_doc) : Prop :=
  valid_day (ymd (createdAt d)) /\ valid_day (ymd (closed_instant d)).

(** Ascending order of texts, character code by character code. *)
Definition text_lt (a b : string) : Prop := String.ltb a b = true.

(** A ticket opened on 7 January 2025 and closed on 3 February 2025. *)
Definition closed_ticket : ticket_doc :=
  mkDoc (<["status" := VStr "Closed"]> {["ticket_id" := VStr "T-3"]})
        (Some (mkDate 2025 2 3 8 0 0 0)) jan7 jan7.

Definition series_store : store :=
  mkStore [closed_ticket; doc_created jan7; doc_created dec30] [] None None.

Definition series_stats : stats_result := aggregate (fun _ => true) (tickets_db series_store).

(** ** [DELETE /:id]: delete a ticket *)

(** [Ticket.deleteOne({ ticket_id: id })]: the first document with the id goes. *)
Fixpoint delete_first (id : string) (docs : list ticket_doc) : list ticket_doc :=
  match docs with
  | [] => []
  | d :: rest => if has_id id d then rest else d :: delete_first id rest
  end.

(** [header.map(h => `Q${h}Q`).join(',')] *)
Definition quoted_header (header : list string) : string :=
  join "," (map (fun h => String dquote (h +:+ str1 dquote)) header).

(** The handler. [body] is the request body as the JSON middleware of
    [server.js] leaves it (an object, empty when the request has none);
    the handler reads its editor only. *)
Definition delete_ticket `{Runtime} (up : bool) (now : datetime) (id : string)
    (body : gmap string jsval) (st : store) : store * response :=
  let tdb := if up then delete_first id (tickets_db st) else tickets_db st in
  match tickets_file st with
  | None =>
      (mkStore tdb (history_db st) None (history_file st), RError 404 "No tickets file")
  | Some content =>
      let '(hl, rows) := file_lines content in
      let header := parse_header hl in
      let remaining := filter (fun line => line_has_id id line = false) rows in
      if (length remaining =? length rows)%nat then
        (mkStore tdb (history_db st) (Some content) (history_file st),
         RError 404 "Ticket not found")
      else
        let text :=
          join (str1 newline) (quoted_header header :: remaining) +:+ str1 newline in
        let editor := or_empty (get body "editor") in
        let historyLine :=
          csv_line [VStr id; VStr (toISOString now); VStr "delete"; VStr "{}"; editor] in
        let hfile := append_file (history_file st) historyLine in
        let hdb :=
          or_unchanged
            (history_save up (mkHistory (VStr id) now "delete" "{}" editor) (history_db st))
            (history_db st) in
        (mkStore tdb hdb (Some text) hfile,
         RJson (<["message" := VStr ("Ticket " +:+ id +:+ " deleted.")]>
                  {["success" := VBool true]}))
  end.

(** ** Reading tickets: [GET /] and [GET /:id] *)

(** [v ? formatDateTime(v) : ''] on an attribute kept as ISO text. *)
Definition date_text `{Runtime} (v : jsval) : jsval :=
  VStr (if truthy v then date_iso v else EmptyString).

(** [doc.attachments && doc.attachments.length ? doc.attachments.map(..) : []].
    [None]: a TypeError, for a text that is not empty (it has a length and
    no [map]). *)
Definition doc_attachment_urls (v : jsval) : option jsval :=
  match v with
  | VArr l => Some (VArr (map uploads_url l))
  | VStr s => if nonempty s then None else Some (VArr [])
  | _ => Some (VArr [])
  end.

(** The object the read routes build from a document. *)
Definition ticket_of_doc `{Runtime} (d : ticket_doc) : option (gmap string jsval) :=
  let f := fields d in
  urls ← doc_attachment_urls (get f "attachments");
  Some (assign_all ∅
    [ ("ticket_id", get f "ticket_id");
      ("category", or_empty (get f "category"));
      ("sub_category", or_empty (get f "sub_category"));
      ("opened", date_text (get f "opened"));
      ("reported_by", or_empty (get f "reported_by"));
      ("priority", or_empty (get f "priority"));
      ("building", or_empty (get f "building"));
      ("location", or_empty (get f "location"));
      ("impacted", or_empty (get f "impacted"));
      ("description", or_empty (get f "description"));
      ("detectedBy", or_empty (get f "detectedBy"));
      ("time_detected", date_text (get f "time_detected"));
      ("root_cause", or_empty (get f "root_cause"));
      ("actions_taken", or_empty (get f "actions_taken"));
      ("status", or_empty (get f "status"));
      ("assigned_to", assigned_text (get f "assigned_to") (VStr EmptyString));
      ("resolution_summary", or_empty (get f "resolution_summary"));
      ("resolution_time", date_text (get f "resolution_time"));
      ("duration", or_empty (get f "duration"));
      ("post_review", yes_no (truthy (get f "post_review")));
      ("attachments", urls);
      ("escalation_history", or_empty (get f "escalation_history"));
      ("closed", date_text (get f "closed"));
      ("sla_breach", yes_no (truthy (get f "sla_breach"))) ]).

(** [sort({ createdAt: -1 })] *)
Definition newer_first (a b : ticket_doc) : Prop :=
  time_ms (createdAt b) <= time_ms (createdAt a).

#[global] Instance newer_first_dec a b : Decision (newer_first a b).
Proof. unfold newer_first. apply _. Defined.

(** The CSV fallback of [GET /]. *)
Definition get_all_csv (st : store) : list (gmap string jsval) :=
  match tickets_file st with
  | None => []
  | Some content => read_tickets_csv content
  end.

(** [GET /]: the documents of the store, newest first, when the store
    answers and is not empty; the rows of the CSV file otherwise (also when
    the mapping of a document throws, inside the [try]). *)
Definition get_all `{Runtime} (up : bool) (st : store) : response :=
  let from_db :=
    if up then
      match merge_sort newer_first (tickets_db st) with
      | [] => None
      | docs => mapM ticket_of_doc docs
      end
    else None in
  match from_db with
  | Some tickets => RList tickets
  | None => RList (get_all_csv st)
  end.

(** [lines.map(tokens).find(c => c[0] is id)] *)
Fixpoint find_line (id : string) (rows : list string) : option string :=
  match rows with
  | [] => None
  | line :: rest => if line_has_id id line then Some line else find_line id rest
  end.

(** The handler of [GET /:id]. The router gives it every id but [stats],
    which the statistics route, registered before it, takes. *)
Definition get_one `{Runtime} (up : bool) (id : string) (st : store) : response :=
  let from_db := if up then find_doc id (tickets_db st) ≫= ticket_of_doc else None in
  match from_db with
  | Some obj => RJson obj
  | None =>
      match tickets_file st with
      | None => RError 404 "No tickets file"
      | Some content =>
          let '(hl, rows) := file_lines content in
          match find_line id rows with
          | None => RError 404 "Ticket not found"
          | Some line => RJson (ticket_of_line (parse_header hl) line)
          end
      end
  end.

(** ** [GET /:id/history] *)

Definition older_first (a b : history_entry) : Prop :=
  time_ms (h_timestamp a) <= time_ms (h_timestamp b).

#[global] Instance older_first_dec a b : Decision (older_first a b).
Proof. unfold older_first. apply _. Defined.

Definition history_object (e : history_entry) : gmap string jsval :=
  assign_all ∅
    [ ("ticket_id", h_ticket_id e);
      ("timestamp", VStr (toISOString (h_timestamp e)));
      ("action", VStr (h_action e));
      ("changes", VStr (h_changes e));
      ("editor", or_empty (h_editor e)) ].

(** The CSV fallback: every line as an object, then those of the ticket. *)
Definition history_of_csv (id : string) (content : string) : list (gmap string jsval) :=
  let '(hl, rows) := file_lines content in
  filter (fun o => get o "ticket_id" = VStr id)
         (map (fun line => row_object (parse_header hl) (csv_tokens line)) rows).

Definition get_history (up : bool) (id : string) (st : store) : response :=
  let from_db :=
    if up then
      match merge_sort older_first
              (filter (fun e => h_ticket_id e = VStr id) (history_db st)) with
      | [] => None
      | entries => Some (map history_object entries)
      end
    else None in
  match from_db with
  | Some entries => RList entries
  | None =>
      match history_file st with
      | None => RList []
      | Some content => RList (history_of_csv id content)
      end
  end.

(** ** The analytics of [GET /stats] *)

(** [groups.reduce((a, b) => (a.count > b.count ? a : b), { _id: 'N/A', count: 0 })] *)
Definition top_group (groups : list (jsval * nat)) : jsval * nat :=
  foldl (fun a b => if (b.2 <? a.2)%nat then a else b) (VStr "N/A", O) groups.

(** ** Files as the handlers leave them *)

(** A file of the handlers: a header line and data lines, none with a line
    feed, the header not blank at its start, every line not blank at its
    end. *)
Definition wf_csv (hl : string) (rows : list string) : Prop :=
  starts_solid hl /\ ends_solid hl
  /\ Forall no_newline (hl :: rows) /\ Forall ends_solid rows.

(** How often a day occurs in a list of days. *)
Definition occurrences (k : Z * Z * Z) (l : list (Z * Z * Z)) : nat :=
  length (filter (fun x => x = k) l).

Definition sum_counts {K : Type} (groups : list (K * nat)) : nat :=
  foldr (fun g acc => (g.2 + acc)%nat) O groups.


(** ** A store with two tickets *)

Definition second_body : gmap string jsval :=
  list_to_map [("category", VStr "Power"); ("building", VStr "LOS2");
               ("description", VStr "UPS alarm"); ("reported_by", VStr "grace")].

Definition two_ticket_store : store :=
  (post (H := utc_runtime) true example_later second_body [] example_store).1.

Definition second_id : string := "KASI-LOS2-20251007-PWD-0001".

Definition two_ticket_rows : list string :=
  default [] ((fun content => (file_lines content).2) <$> tickets_file two_ticket_store).

(** The header [ticket_history.csv] is created with. *)
Definition HISTORY_HEADER : list string :=
  ["ticket_id"; "timestamp"; "action"; "changes"; "editor"].

(** The first line [ticket_history.csv] is created with, and the data lines
    of the history file of a store. *)
Definition history_header_line : string := "ticket_id,timestamp,action,changes,editor".

Definition history_rows (st : store) : list string :=
  default [] ((fun content => (file_lines content).2) <$> history_file st).

(** A create whose description has two lines. *)
Definition two_line_body : gmap string jsval :=
  list_to_map [("ticket_id", VStr "T-1"); ("category", VStr "Power");
               ("description", VStr ("line1" +:+ str1 newline +:+ "line2"))].

(** The ticket id and the description of every entry of a listing. *)
Definition listed (r : response) : list (jsval * jsval) :=
  match r with
  | RList ts => map (fun t => (get t "ticket_id", get t "description")) ts
  | _ => []
  end.
(** * Properties *)

#[local] Set Warnings "-clear-no-such-hyp".

(** A closed decidable statement, by evaluation. *)
Ltac by_eval :=
  lazymatch goal with
  | |- ?P => refine (@bool_decide_unpack P _ _); vm_compute; exact I
  end.

(** ** Quoting and unquoting *)

Lemma is_dquote_true c : is_dquote c = true -> c = dquote.
Proof. unfold is_dquote. intros H. by apply Ascii.eqb_eq. Qed.

Lemma is_dquote_dquote : is_dquote dquote = true.
Proof. reflexivity. Qed.

Lemma app_cons (c : ascii) (a b : string) : String c a +:+ b = String c (a +:+ b).
Proof. reflexivity. Qed.

Lemma app_nil_l (b : string) : EmptyString +:+ b = b.
Proof. reflexivity. Qed.

Lemma append_nil_r (s : string) : s +:+ EmptyString = s.
Proof. induction s as [|c s IH]; [done |]. by rewrite app_cons, IH. Qed.

Lemma append_assoc (a b c : string) : (a +:+ b) +:+ c = a +:+ (b +:+ c).
Proof. induction a as [|x a IH]; [done |]. by rewrite !app_cons, IH. Qed.

Lemma append_length (a b : string) :
  String.length (a +:+ b) = (String.length a + String.length b)%nat.
Proof. induction a as [|x a IH]; [done |]. rewrite app_cons. simpl. by rewrite IH. Qed.

Lemma strip_trail_snoc (a : string) : strip_trail (a +:+ str1 dquote) = a.
Proof.
  induction a as [|c a IH]; [done |].
  rewrite app_cons. cbn [strip_trail]. rewrite IH. by destruct a.
Qed.

Lemma double_quotes_nil s : double_quotes s = EmptyString -> s = EmptyString.
Proof. destruct s as [|c s]; [done |]. simpl. by destruct (is_dquote c). Qed.

Lemma undouble_cons_other c t :
  is_dquote c = false -> undouble (String c t) = String c (undouble t).
Proof. intros Hc. destruct t as [|c' t']; [done |]. cbn [undouble]. by rewrite Hc. Qed.

Lemma undouble_cons_pair t :
  undouble (String dquote (String dquote t)) = String dquote (undouble t).
Proof. reflexivity. Qed.

Lemma undouble_double_quotes s : undouble (double_quotes s) = s.
Proof.
  induction s as [|c s IH]; [done |].
  cbn [double_quotes]. destruct (is_dquote c) eqn:Hc.
  - apply is_dquote_true in Hc as ->. by rewrite undouble_cons_pair, IH.
  - by rewrite undouble_cons_other, IH.
Qed.

Lemma unquote_csvEscape v : unquote (csvEscape v) = cell_text v.
Proof.
  unfold unquote, csvEscape. simpl.
  by rewrite strip_trail_snoc, undouble_double_quotes.
Qed.

(** ** The tokenizer on rows that [csvEscape] wrote *)

Lemma str1_app c rest : str1 c +:+ rest = String c rest.
Proof. reflexivity. Qed.

Lemma quoted_tail_escaped v rest :
  no_quote_ahead rest ->
  quoted_tail (double_quotes v +:+ String dquote rest)
  = Some (double_quotes v +:+ str1 dquote, rest).
Proof.
  intros Hrest. induction v as [|c v IH].
  - cbn [double_quotes]. rewrite !app_nil_l.
    destruct rest as [|c' t']; [done |]. simpl in Hrest. cbn. by rewrite Hrest.
  - cbn [double_quotes]. destruct (is_dquote c) eqn:Hc.
    + rewrite !app_cons. cbn [quoted_tail]. rewrite is_dquote_dquote. by rewrite IH.
    + rewrite !app_cons. cbn [quoted_tail]. by rewrite Hc, IH.
Qed.

Lemma csvEscape_unfold v : csvEscape v = String dquote (double_quotes (cell_text v) +:+ str1 dquote).
Proof. reflexivity. Qed.

Lemma token_at_csvEscape v rest :
  no_quote_ahead rest ->
  token_at (csvEscape v +:+ rest) = Some (csvEscape v, rest).
Proof.
  intros Hrest. rewrite csvEscape_unfold, app_cons, append_assoc, str1_app.
  cbn [token_at]. rewrite is_dquote_dquote.
  by rewrite quoted_tail_escaped.
Qed.

Lemma csvEscape_length v : (2 <= String.length (csvEscape v))%nat.
Proof. rewrite csvEscape_unfold. cbn [String.length]. rewrite append_length. simpl. lia. Qed.

Lemma token_at_comma rest : token_at (String comma rest) = None.
Proof. reflexivity. Qed.

Lemma join_cons2 sep x y l : join sep (x :: y :: l) = x +:+ sep +:+ join sep (y :: l).
Proof. reflexivity. Qed.

(** *** The matcher on the token pattern *)

Lemma run_Chr fuel p s k :
  run fuel (Chr p) s k
  = match s with String c t => if p c then k t else None | EmptyString => None end.
Proof. by destruct fuel. Qed.

Lemma run_Cat fuel a b s k :
  run fuel (Cat a b) s k = run fuel a s (fun s' => run fuel b s' k).
Proof. by destruct fuel. Qed.

Lemma run_Alt fuel a b s k :
  run fuel (Alt a b) s k
  = match run fuel a s k with Some rest => Some rest | None => run fuel b s k end.
Proof. by destruct fuel. Qed.

Lemma run_Star_S fuel a s k :
  run (S fuel) (Star a) s k
  = match run (S fuel) a s (fun s' =>
            if (String.length s' <? String.length s)%nat
            then run fuel (Star a) s' k else None) with
    | Some rest => Some rest
    | None => k s
    end.
Proof. reflexivity. Qed.

Lemma run_Star_O a s k : run O (Star a) s k = k s.
Proof. reflexivity. Qed.

Lemma run_ext fuel : forall r s k1 k2,
  (forall x, k1 x = k2 x) -> run fuel r s k1 = run fuel r s k2.
Proof.
  induction fuel as [|fuel IHf]; intros r; induction r as [p | a IHa b IHb | a IHa b IHb | a IHa];
    intros s k1 k2 Hk.
  - rewrite !run_Chr. destruct s as [|c t]; [done |]. by rewrite Hk.
  - rewrite !run_Cat. apply IHa. intros x. by apply IHb.
  - rewrite !run_Alt. by rewrite (IHa s k1 k2 Hk), (IHb s k1 k2 Hk).
  - by rewrite !run_Star_O.
  - rewrite !run_Chr. destruct s as [|c t]; [done |]. by rewrite Hk.
  - rewrite !run_Cat. apply IHa. intros x. by apply IHb.
  - rewrite !run_Alt. by rewrite (IHa s k1 k2 Hk), (IHb s k1 k2 Hk).
  - rewrite !run_Star_S. rewrite Hk.
    erewrite IHa; [reflexivity |]. intros x. cbn beta.
    destruct (_ <? _)%nat; [| done]. by apply IHf.
Qed.

Lemma run_closing fuel s : run fuel (Chr is_dquote) s Some = closing_quote s.
Proof. by rewrite run_Chr. Qed.

Lemma run_quoted_body fuel c t k :
  run fuel quoted_body (String c t) k
  = if is_dquote c
    then match t with
         | String c' t' => if is_dquote c' then k t' else None
         | EmptyString => None
         end
    else k t.
Proof.
  unfold quoted_body. rewrite run_Alt, run_Cat, !run_Chr. unfold not_dquote.
  destruct (is_dquote c); cbn [negb]; cbn beta; [done |].
  by destruct (k t).
Qed.

Lemma run_star_quoted fuel : forall s,
  (String.length s <= fuel)%nat ->
  run fuel (Star quoted_body) s closing_quote = snd <$> quoted_tail s.
Proof.
  induction fuel as [|fuel IH]; intros s Hlen.
  - destruct s; [done | cbn in Hlen; lia].
  - rewrite run_Star_S. destruct s as [|c t]; [done |].
    rewrite run_quoted_body. cbn [String.length quoted_tail closing_quote] in *.
    destruct (is_dquote c) eqn:Hc.
    + destruct t as [|c' t']; [done |].
      destruct (is_dquote c') eqn:Hc'; [| done].
      cbn [String.length] in *.
      destruct (Nat.ltb_spec (String.length t') (S (S (String.length t')))); [| lia].
      rewrite IH by lia.
      by destruct (quoted_tail t') as [[m r]|].
    + destruct (Nat.ltb_spec (String.length t) (S (String.length t))); [| lia].
      rewrite IH by lia.
      by destruct (quoted_tail t) as [[m r]|].
Qed.

Lemma run_star_bare fuel : forall s,
  (String.length s <= fuel)%nat ->
  run fuel (Star (Chr not_comma)) s Some = Some (bare_run s).2.
Proof.
  induction fuel as [|fuel IH]; intros s Hlen.
  - destruct s; [done | cbn in Hlen; lia].
  - rewrite run_Star_S, run_Chr. destruct s as [|c t]; [done |].
    cbn [String.length] in *. cbn [bare_run]. unfold not_comma.
    destruct (is_comma c); cbn [negb]; [done |].
    destruct (Nat.ltb_spec (String.length t) (S (String.length t))); [| lia].
    rewrite IH by lia. by destruct (bare_run t).
Qed.

Lemma quoted_tail_split_bounded n : forall s m r,
  (String.length s <= n)%nat -> quoted_tail s = Some (m, r) -> s = m +:+ r.
Proof.
  induction n as [|n IH]; intros s m r Hlen.
  - destruct s; [done | cbn in Hlen; lia].
  - destruct s as [|c t]; [done |]. cbn [quoted_tail String.length] in *.
    destruct (is_dquote c).
    + destruct t as [|c' t']; [by intros [= <- <-] |].
      destruct (is_dquote c'); [| by intros [= <- <-]].
      destruct (quoted_tail t') as [[m' r']|] eqn:Ht; [| by intros [= <- <-]].
      intros [= <- <-]. rewrite !app_cons. do 2 f_equal.
      apply IH; [cbn [String.length] in Hlen; lia | done].
    + destruct (quoted_tail t) as [[m' r']|] eqn:Ht; [| done].
      intros [= <- <-]. rewrite app_cons. f_equal. apply IH; [lia | done].
Qed.

Lemma quoted_tail_split s m r : quoted_tail s = Some (m, r) -> s = m +:+ r.
Proof. by apply (quoted_tail_split_bounded (String.length s)). Qed.

Lemma bare_run_split s : s = (bare_run s).1 +:+ (bare_run s).2.
Proof.
  induction s as [|c t IH]; [done |]. cbn [bare_run].
  destruct (is_comma c); [done |].
  destruct (bare_run t) as [m r]. cbn [fst snd] in *. rewrite app_cons. by f_equal.
Qed.

Lemma take_str_app a b : take_str (String.length a) (a +:+ b) = a.
Proof.
  induction a as [|c a IH]; [by destruct b |].
  rewrite app_cons. cbn [String.length take_str]. by rewrite IH.
Qed.

Lemma take_matched m r :
  take_str (String.length (m +:+ r) - String.length r) (m +:+ r) = m.
Proof.
  replace (String.length (m +:+ r) - String.length r)%nat with (String.length m).
  - apply take_str_app.
  - rewrite append_length. lia.
Qed.

(** The hand-written scanner is the matcher on the token pattern. *)
Lemma regex_at_token s : regex_at token_regex s = token_at s.
Proof.
  unfold regex_at, token_regex. destruct s as [|c t]; [done |].
  cbn [token_at String.length].
  rewrite run_Alt, !run_Cat, !run_Chr.
  assert (run (S (String.length t)) (Cat (Star quoted_body) (Chr is_dquote)) t Some
          = snd <$> quoted_tail t) as Hq.
  { rewrite run_Cat. rewrite <- run_star_quoted with (fuel := S (String.length t)) by lia.
    apply run_ext. intros x. apply run_closing. }
  assert (run (S (String.length t)) (Star (Chr not_comma)) t Some = Some (bare_run t).2) as Hb.
  { apply run_star_bare. lia. }
  assert ((if is_comma c then None
           else Some (take_str (S (String.length t) - String.length (bare_run t).2)
                               (String c t), (bare_run t).2))
          = (if is_comma c then None else Some (bare_run (String c t)))) as Hbare.
  { cbn [bare_run]. destruct (is_comma c); [done |].
    pose proof (bare_run_split t) as Hsplit.
    destruct (bare_run t) as [m r]. cbn [fst snd] in *. subst t.
    change (S (String.length (m +:+ r))) with (String.length (String c m +:+ r)).
    rewrite <- app_cons. by rewrite take_matched. }
  rewrite Hq, Hb. unfold not_comma.
  destruct (is_dquote c) eqn:Hc.
  - destruct (quoted_tail t) as [[m r]|] eqn:Ht; cbn [fmap option_fmap option_map snd].
    + apply quoted_tail_split in Ht. subst t.
      change (S (String.length (m +:+ r))) with (String.length (String c m +:+ r)).
      rewrite <- app_cons. by rewrite take_matched.
    + destruct (is_comma c); cbn [negb] in *; done.
  - destruct (is_comma c); cbn [negb] in *; done.
Qed.

Lemma csvEscape_cons v : exists a, csvEscape v = String dquote a.
Proof. rewrite csvEscape_unfold. eauto. Qed.

Lemma match_all_go_written (vals : list jsval) : forall fuel,
  (String.length (join "," (map csvEscape vals)) < fuel)%nat ->
  match_all_go fuel token_regex (join "," (map csvEscape vals)) = map csvEscape vals.
Proof.
  induction vals as [|v vals IH]; intros fuel Hfuel.
  - destruct fuel; [simpl in Hfuel; lia | done].
  - destruct (csvEscape_cons v) as [body Hbody].
    destruct vals as [|w vals].
    + destruct fuel as [|fuel]; [lia |].
      cbn [map join] in *. cbn [match_all_go]. rewrite regex_at_token.
      rewrite <- (append_nil_r (csvEscape v)) at 1.
      rewrite token_at_csvEscape by done. rewrite Hbody.
      by destruct fuel.
    + cbn [map] in *. rewrite join_cons2 in *.
      change ("," +:+ ?x) with (String comma x) in *.
      rewrite append_length in Hfuel. cbn [String.length] in Hfuel.
      pose proof (csvEscape_length v).
      destruct fuel as [|fuel]; [lia |].
      cbn [match_all_go]. rewrite regex_at_token, token_at_csvEscape by done.
      destruct fuel as [|fuel]; [lia |].
      cbn [match_all_go]. rewrite regex_at_token, token_at_comma.
      rewrite (IH fuel) by lia. by rewrite Hbody.
Qed.

Lemma csv_tokens_written (vals : list jsval) :
  csv_tokens (join "," (map csvEscape vals)) = map csvEscape vals.
Proof. unfold csv_tokens, match_all. apply match_all_go_written. lia. Qed.

(** ** Objects built by assignment *)

Lemma assign_all_snoc o kvs k v :
  assign_all o (kvs ++ [(k, v)]) = <[k := v]> (assign_all o kvs).
Proof. unfold assign_all. by rewrite foldl_app. Qed.

Lemma assign_all_lookup_notin o kvs k :
  k ∉ kvs.*1 -> assign_all o kvs !! k = o !! k.
Proof.
  induction kvs as [|[k' v'] kvs IH] using rev_ind; [done |].
  rewrite fmap_app, not_elem_of_app. intros [Hk Hk'].
  rewrite assign_all_snoc, lookup_insert_ne; [by apply IH |].
  intros ->. apply Hk'. simpl. set_solver.
Qed.

Lemma assign_all_lookup_in o kvs k v :
  NoDup kvs.*1 -> (k, v) ∈ kvs -> assign_all o kvs !! k = Some v.
Proof.
  induction kvs as [|[k' v'] kvs IH] using rev_ind; [set_solver |].
  rewrite fmap_app, NoDup_app. intros (Hnd & Hdisj & _).
  rewrite elem_of_app, assign_all_snoc. intros [Hin | Hin].
  - rewrite lookup_insert_ne; [by apply IH |].
    intros ->. apply (Hdisj k); [| simpl; set_solver].
    apply list_elem_of_fmap. by exists (k, v).
  - apply list_elem_of_singleton in Hin. simplify_eq. by rewrite lookup_insert_eq.
Qed.

Lemma assign_all_empty_list_to_map kvs :
  NoDup kvs.*1 -> assign_all ∅ kvs = (list_to_map kvs : gmap string jsval).
Proof.
  intros Hnd. apply map_eq. intros k.
  destruct (list_to_map kvs !! k) as [v|] eqn:Hk.
  - apply elem_of_list_to_map in Hk; [| done]. by apply assign_all_lookup_in.
  - apply not_elem_of_list_to_map in Hk. by rewrite assign_all_lookup_notin.
Qed.

Lemma get_insert_eq (o : gmap string jsval) k v : get (<[k := v]> o) k = v.
Proof. unfold get. by rewrite lookup_insert_eq. Qed.

Lemma get_insert_ne (o : gmap string jsval) k k' v :
  k ≠ k' -> get (<[k := v]> o) k' = get o k'.
Proof. intros. unfold get. by rewrite lookup_insert_ne. Qed.

(** ** Row objects *)

Lemma imap_zip_cells (f : string -> jsval) (cells : list string) : forall (header : list string) (g : nat -> nat),
  length header = length cells ->
  imap (fun i h => (h, f (default EmptyString (cells !! i)))) header
  = zip header (map f cells).
Proof.
  induction cells as [|c cells IH]; intros [|h header] g Hlen; simplify_eq/=; [done |].
  f_equal. rewrite <- (IH header g) by done. by apply imap_ext.
Qed.

Lemma row_object_zip header cols :
  length header = length cols -> NoDup header ->
  row_object header cols = list_to_map (zip header (map (fun c => VStr (unquote c)) cols)).
Proof.
  intros Hlen Hnd. unfold row_object, cell.
  rewrite (imap_zip_cells (fun c => VStr (unquote c)) cols header id Hlen).
  apply assign_all_empty_list_to_map.
  rewrite fst_zip; [done |]. rewrite length_map. lia.
Qed.

(** X25. One row, before it is cut into lines. A ticket written as a CSV
    row — every value through [csvEscape],
    joined by commas — reads back cell by cell: the tokenizer returns one
    token per value, unquoting a token gives the text that was written
    ([String(val || '')], the value itself when it is a string), whatever
    commas and quotes it holds, and the row object maps every header name to
    the text of its column. *)
Theorem csv_row_round_trip (header : list string) (vals : list jsval) :
  length header = length vals ->
  NoDup header ->
  let row := join "," (map csvEscape vals) in
  map unquote (csv_tokens row) = map cell_text vals
  /\ row_object header (csv_tokens row)
     = list_to_map (zip header (map (fun v => VStr (cell_text v)) vals))
  /\ (forall s, cell_text (VStr s) = s).
Proof.
  intros Hlen Hnd row. unfold row. rewrite csv_tokens_written. split_and!.
  - rewrite <- list_fmap_compose. apply list_fmap_ext. intros _ v _. simpl.
    apply unquote_csvEscape.
  - rewrite row_object_zip by (by rewrite ?length_map).
    do 2 f_equal. rewrite <- list_fmap_compose. apply list_fmap_ext. intros _ v _. simpl.
    by rewrite unquote_csvEscape.
  - intros s. unfold cell_text, js_or. simpl.
    destruct (String.eqb_spec s EmptyString) as [-> | Hne]; by simpl.
Qed.

Lemma csv_row_round_trip_witness :
  map unquote (csv_tokens (join "," (map csvEscape [VStr "T-1"; VStr "a,b"; VStr (String dquote "q")])))
  = ["T-1"; "a,b"; String dquote "q"].
Proof.
  refine (proj1 (csv_row_round_trip ["ticket_id"; "category"; "description"]
                   [VStr "T-1"; VStr "a,b"; VStr (String dquote "q")] _ _)).
  - reflexivity.
  - by_eval.
Defined.

(** ** The update object *)


Section update.
Context `{Runtime}.

Lemma updateObj_keys body fileNames doc : (updateObj body fileNames doc).*1 = UPDATE_KEYS.
Proof. reflexivity. Qed.

Lemma NoDup_UPDATE_KEYS : NoDup UPDATE_KEYS.
Proof. by_eval. Qed.

Lemma updateObj_lookup body fileNames doc k v :
  (k, v) ∈ updateObj body fileNames doc ->
  assign_all (fields doc) (updateObj body fileNames doc) !! k = Some v.
Proof.
  apply assign_all_lookup_in. rewrite updateObj_keys. apply NoDup_UPDATE_KEYS.
Qed.

Lemma strict_updateObj body fileNames doc :
  filter (fun kv => in_schema kv.1 = true) (updateObj body fileNames doc)
  = updateObj body fileNames doc.
Proof. reflexivity. Qed.

Lemma closedAt_no_path : in_schema "closedAt" = false.
Proof. reflexivity. Qed.

Lemma apply_update_Some now body files doc doc' :
  apply_update now body files doc = Some doc' ->
  exists fn,
    db_fileNames files doc = Some fn
    /\ fields doc' = assign_all (fields doc) (updateObj body fn doc)
    /\ closedAt doc' = closedAt doc
    /\ createdAt doc' = createdAt doc
    /\ updatedAt doc' = now.
Proof.
  unfold apply_update. destruct (db_fileNames files doc) as [fn|]; [| done].
  rewrite strict_updateObj, closedAt_no_path.
  intros Heq. apply (inj Some) in Heq. subst doc'. exists fn. by split_and!.
Qed.

Lemma updated_status now body files doc doc' :
  apply_update now body files doc = Some doc' ->
  get (fields doc') "status"
  = js_nullish (get body "status") (get (fields doc) "status").
Proof.
  intros (fn & _ & -> & _)%apply_update_Some. unfold get at 1.
  erewrite updateObj_lookup; [done |]. unfold updateObj.
  do 13 apply list_elem_of_further. apply list_elem_of_here.
Qed.

Lemma updated_closedAt now body files doc doc' :
  apply_update now body files doc = Some doc' -> closedAt doc' = closedAt doc.
Proof. by intros (fn & _ & _ & -> & _)%apply_update_Some. Qed.

Lemma closedAt_logic_cases now body doc :
  let old := get (fields doc) "status" in
  let new := js_nullish (get body "status") old in
  closedAt_logic now body doc
  = if decide (new = VStr "Closed")
    then (if decide (old = VStr "Closed") then KeepClosedAt else SetClosedAt now)
    else (if decide (old = VStr "Closed") then ClearClosedAt else KeepClosedAt).
Proof.
  intros old new. unfold closedAt_logic. fold old. fold new.
  destruct (decide (new = VStr "Closed")) as [Hn | Hn],
           (decide (old = VStr "Closed")) as [Ho | Ho];
    rewrite ?(bool_decide_eq_true_2 _ Hn), ?(bool_decide_eq_false_2 _ Hn),
            ?(bool_decide_eq_true_2 _ Ho), ?(bool_decide_eq_false_2 _ Ho); done.
Qed.

End update.

(** ** Splitting at one character *)

Lemma split1_cons c a t :
  split (str1 c) (String a t)
  = if Ascii.eqb c a then EmptyString :: split (str1 c) t
    else cons_head a (split (str1 c) t).
Proof.
  unfold split. cbn [split_go is_prefix str1]. rewrite andb_true_r. reflexivity.
Qed.

Lemma split1_nil c : split (str1 c) EmptyString = [EmptyString].
Proof. reflexivity. Qed.

Lemma split1_no_char c s : has_char c s = false -> split (str1 c) s = [s].
Proof.
  induction s as [|a s IH]; [done |].
  cbn [has_char]. intros [Ha Hs]%orb_false_elim.
  by rewrite split1_cons, Ha, IH.
Qed.

Lemma split1_app_sep c a rest :
  has_char c a = false ->
  split (str1 c) (a +:+ String c rest) = a :: split (str1 c) rest.
Proof.
  induction a as [|x a IH]; intros Ha.
  - rewrite app_nil_l, split1_cons. by rewrite Ascii.eqb_refl.
  - cbn [has_char] in Ha. apply orb_false_elim in Ha as [Hx Ha].
    by rewrite app_cons, split1_cons, Hx, IH.
Qed.

Lemma split1_join c (l : list string) :
  l ≠ [] -> Forall (fun s => has_char c s = false) l ->
  split (str1 c) (join (str1 c) l) = l.
Proof.
  induction l as [|x l IH]; [done |]. intros _ Hall.
  apply Forall_cons in Hall as [Hx Hl].
  destruct l as [|y l]; [by apply split1_no_char |].
  rewrite join_cons2, str1_app, split1_app_sep by done.
  f_equal. by apply IH.
Qed.


(** ** Partial updates *)

Lemma or_empty_str s : or_empty (VStr s) = VStr s.
Proof.
  unfold or_empty, js_or. cbn [truthy].
  destruct (String.eqb_spec s EmptyString) as [-> | Hne]; done.
Qed.

Lemma cell_text_str s : cell_text (VStr s) = s.
Proof. unfold cell_text. fold (or_empty (VStr s)). by rewrite or_empty_str. Qed.







Section partial_update.
Context `{Runtime}.






(** ** The update of a ticket that the CSV file does not hold *)

Lemma find_doc_has_id id docs d : find_doc id docs = Some d -> has_id id d = true.
Proof.
  induction docs as [|x docs IH]; [done |]. cbn [find_doc].
  destruct (has_id id x) eqn:Hx; [by intros [= <-] | done].
Qed.

Lemma find_doc_update_first id docs d d' :
  find_doc id docs = Some d -> has_id id d' = true ->
  find_doc id (update_first id d' docs) = Some d'.
Proof.
  intros Hfind Hid. induction docs as [|x docs IH]; [done |].
  cbn [find_doc update_first] in *.
  destruct (has_id id x) eqn:Hx.
  - cbn [find_doc]. by rewrite Hid.
  - cbn [find_doc]. rewrite Hx. by apply IH.
Qed.

Lemma apply_update_keeps_id now body files doc doc' :
  apply_update now body files doc = Some doc' -> doc_id doc' = doc_id doc.
Proof.
  intros (fn & _ & Hf & _)%apply_update_Some. unfold doc_id, get. rewrite Hf.
  rewrite assign_all_lookup_notin; [done |]. rewrite updateObj_keys.
  by_eval.
Qed.

End partial_update.




(** ** Creating a ticket: what stays unique *)

Section create.
Context `{Runtime}.

Lemma create_doc_ticket_id now ticket_id body fileNames :
  get (create_doc_fields now ticket_id body fileNames) "ticket_id" = ticket_id.
Proof.
  unfold get, create_doc_fields.
  erewrite assign_all_lookup_in; [done | by_eval | apply list_elem_of_here].
Qed.

Lemma ticket_save_cases up now f docs :
  match ticket_save up now f docs with
  | Ok docs' =>
      up = true /\ (get f "ticket_id" ∉ map doc_id docs)
      /\ docs' = docs ++ [mkDoc f None now now]
  | Err DuplicateKey => up = true /\ (get f "ticket_id" ∈ map doc_id docs)
  | Err ValidationError =>
      up = true /\ (required_ok (get f "ticket_id") && required_ok (get f "category")) = false
  | Err StoreUnavailable => up = false
  end.
Proof.
  unfold ticket_save. destruct up; [| done]. cbn [negb].
  destruct (required_ok (get f "ticket_id") && required_ok (get f "category")); [| done].
  cbn [negb]. case_bool_decide; done.
Qed.

Lemma post_tickets_db up now body files st :
  tickets_db (post up now body files st).1
  = or_unchanged
      (ticket_save up now
         (create_doc_fields now (post_ticket_id up now body st) body (join ";" files))
         (tickets_db st))
      (tickets_db st).
Proof. reflexivity. Qed.

(** C5, as the code has it. Uniqueness of ticket_id is an invariant of the
    Record Store: from a store whose ticket ids are all different, every
    create leads to such a store. A create whose ticket_id is already in
    the Record Store adds no document there (the store refuses it, with
    DuplicateKey when the required attributes are there, and the handler
    goes on). In every case the handler appends the row to [tickets.csv]
    and answers with the ticket, not with an error. *)
Theorem create_keeps_record_store_ids_unique (up : bool) (now : datetime)
    (body : gmap string jsval) (files : list string) (st : store) :
  NoDup (db_ids st) ->
  let ticket_id := post_ticket_id up now body st in
  let f := create_doc_fields now ticket_id body (join ";" files) in
  let st' := (post up now body files st).1 in
  NoDup (db_ids st')
  /\ (ticket_id ∈ db_ids st ->
      tickets_db st' = tickets_db st
      /\ (up = true -> required_ok (get f "category") = true ->
          required_ok ticket_id = true ->
          ticket_save up now f (tickets_db st) = Err DuplicateKey))
  /\ tickets_file st'
     = append_file (tickets_file st)
         (csv_line (create_row_values now ticket_id body (join ";" files)))
  /\ exists o, (post up now body files st).2 = RJson o.
Proof.
  intros Hnd ticket_id f st'.
  pose proof (ticket_save_cases up now f (tickets_db st)) as Hcases.
  pose proof (create_doc_ticket_id now ticket_id body (join ";" files)) as Hid. fold f in Hid.
  split_and!.
  - unfold db_ids, st'. rewrite post_tickets_db. fold ticket_id f.
    destruct (ticket_save up now f (tickets_db st)) as [docs' | e]; [| done].
    destruct Hcases as (_ & Hnew & ->). cbn [or_unchanged].
    rewrite map_app. apply NoDup_app. split_and!; [done | | apply NoDup_singleton].
    intros x Hx Hx'%list_elem_of_singleton. subst x. by apply Hnew.
  - intros Hin. split.
    + unfold st'. rewrite post_tickets_db. fold ticket_id f.
      destruct (ticket_save up now f (tickets_db st)) as [docs' | e]; [| done].
      destruct Hcases as (_ & Hnew & _). rewrite Hid in Hnew. done.
    + intros -> Hcat Htid.
      destruct (ticket_save true now f (tickets_db st)) as [docs' | []]; try done.
      * destruct Hcases as (_ & Hnew & _). rewrite Hid in Hnew. done.
      * destruct Hcases as (_ & Hreq). by rewrite Hid, Hcat, Htid in Hreq.
  - reflexivity.
  - eexists. reflexivity.
Qed.
End create.

Lemma create_keeps_record_store_ids_unique_witness :
  NoDup (db_ids store_after_duplicate.1)
  /\ tickets_db store_after_duplicate.1 = tickets_db example_store.
Proof.
  destruct (create_keeps_record_store_ids_unique (H := utc_runtime) true example_later
              duplicate_body [] example_store) as (Hnd & Hdup & _).
  - by_eval.
  - split; [exact Hnd |]. apply Hdup. by_eval.
Defined.

(** C5, as stated, fails: the example store holds one ticket, with the same
    id in the Record Store and in the CSV file. A create that names this id
    is answered with success, and the CSV file then holds the id twice. *)
Lemma create_duplicates_csv_row :
  NoDup (db_ids example_store)
  /\ NoDup (csv_ids example_store)
  /\ VStr example_id ∈ db_ids example_store
  /\ (exists o, store_after_duplicate.2 = RJson o /\ get o "success" = VBool true)
  /\ csv_ids store_after_duplicate.1 = [VStr example_id; VStr example_id]
  /\ ~ NoDup (csv_ids store_after_duplicate.1).
Proof.
  split_and!.
  - by_eval.
  - by_eval.
  - by_eval.
  - eexists. split; [reflexivity |]. vm_compute. reflexivity.
  - vm_compute. reflexivity.
  - by_eval.
Qed.

(** ** Lines of a trimmed file *)

Lemma split1_nonempty c s : exists l0 rest, split (str1 c) s = l0 :: rest.
Proof.
  induction s as [|a s (l0 & rest & IH)]; [by exists EmptyString, [] |].
  rewrite split1_cons, IH. destruct (Ascii.eqb c a); cbn [cons_head]; eauto.
Qed.

Lemma trim_end_cons c t :
  trim_end (String c t)
  = match trim_end t with
    | EmptyString => if is_space c then EmptyString else str1 c
    | String a t' => String c (String a t')
    end.
Proof. cbn [trim_end]. by destruct (trim_end t). Qed.

Lemma trim_lines_cons x rest :
  trim_lines (x :: rest)
  = match trim_lines rest with
    | [] => match trim_end x with EmptyString => [] | String a x' => [String a x'] end
    | y :: r => x :: y :: r
    end.
Proof. cbn [trim_lines]. destruct (trim_lines rest); [by destruct (trim_end x) | done]. Qed.

Lemma split_trim_end s :
  let nl := str1 newline in
  (trim_end s = EmptyString <-> trim_lines (split nl s) = [])
  /\ split nl (trim_end s)
     = match trim_lines (split nl s) with [] => [EmptyString] | l => l end.
Proof.
  intros nl. subst nl. induction s as [|c t [IH1 IH2]]; [done |].
  rewrite trim_end_cons, split1_cons.
  destruct (Ascii.eqb newline c) eqn:Hc.
  - apply Ascii.eqb_eq in Hc as <-. rewrite trim_lines_cons.
    destruct (trim_lines (split (str1 newline) t)) as [|y r] eqn:HT.
    + rewrite (proj2 IH1 eq_refl). done.
    + destruct (trim_end t) as [|a t'] eqn:Ht.
      * by specialize (proj1 IH1 eq_refl).
      * split; [done |]. rewrite split1_cons, Ascii.eqb_refl. by rewrite IH2.
  - destruct (split1_nonempty newline t) as (l0 & rest & Hsplit).
    rewrite Hsplit in *. cbn [cons_head]. rewrite trim_lines_cons in *.
    rewrite (trim_end_cons c l0).
    destruct (trim_lines rest) as [|y r] eqn:HR.
    + destruct (trim_end l0) as [|a l0'] eqn:Hl0.
      * rewrite (proj2 IH1 eq_refl).
        destruct (is_space c); [done |]. split; [done |].
        apply split1_no_char. cbn [str1 has_char]. by rewrite Hc.
      * destruct (trim_end t) as [|b t'] eqn:Ht.
        { by specialize (proj1 IH1 eq_refl). }
        split; [done |]. by rewrite split1_cons, Hc, IH2.
    + destruct (trim_end t) as [|b t'] eqn:Ht.
      { by specialize (proj1 IH1 eq_refl). }
      split; [done |]. by rewrite split1_cons, Hc, IH2.
Qed.

Lemma trim_lines_lookup (l : list string) : forall i line,
  l !! i = Some line -> ends_solid line -> trim_lines l !! i = Some line.
Proof.
  induction l as [|x rest IH]; intros i line Hi [Htrim Hne]; [done |].
  rewrite trim_lines_cons. destruct i as [|j].
  - injection Hi as ->. rewrite Htrim.
    destruct line as [|a line']; [done |]. by destruct (trim_lines rest).
  - cbn [lookup list_lookup] in Hi. specialize (IH j line Hi (conj Htrim Hne)).
    destruct (trim_lines rest) as [|y r]; done.
Qed.

Lemma trim_lines_head x rest :
  trim_lines rest ≠ [] -> exists r, trim_lines (x :: rest) = x :: r /\ trim_lines rest = r.
Proof.
  intros Hne. rewrite trim_lines_cons. destruct (trim_lines rest) as [|y r]; [done |]. eauto.
Qed.

Lemma trim_start_solid s : starts_solid s -> trim_start s = s.
Proof. destruct s as [|c s]; [done |]. cbn. by intros ->. Qed.

Lemma join_snoc_empty sep (l : list string) :
  l ≠ [] -> join sep l +:+ sep = join sep (l ++ [EmptyString]).
Proof.
  induction l as [|x l IH]; [done |]. intros _.
  destruct l as [|y l].
  - cbn [app]. rewrite join_cons2. cbn [join]. by rewrite append_nil_r.
  - rewrite join_cons2, !append_assoc, IH by done.
    change ((x :: y :: l) ++ [EmptyString]) with (x :: y :: (l ++ [EmptyString])).
    change ((y :: l) ++ [EmptyString]) with (y :: (l ++ [EmptyString])).
    by rewrite (join_cons2 sep x).
Qed.

Lemma csv_file_lines hl rows :
  Forall no_newline (hl :: rows) ->
  split (str1 newline) (csv_file hl rows) = hl :: rows ++ [EmptyString].
Proof.
  intros Hall. unfold csv_file. rewrite join_snoc_empty by done.
  change (hl :: rows ++ [EmptyString]) with ((hl :: rows) ++ [EmptyString]).
  apply split1_join; [done |].
  apply Forall_app. split; [done |]. by apply Forall_singleton.
Qed.

Lemma starts_solid_app s t : starts_solid s -> starts_solid (s +:+ t).
Proof. by destruct s. Qed.

Lemma file_lines_lookup hl rows i line :
  starts_solid hl -> Forall no_newline (hl :: rows) ->
  rows !! i = Some line -> ends_solid line ->
  exists rows', file_lines (csv_file hl rows) = (hl, rows') /\ rows' !! i = Some line.
Proof.
  intros Hhl Hall Hi Hsolid. unfold file_lines, trim.
  rewrite trim_start_solid.
  2:{ unfold csv_file. destruct rows; cbn [join]; rewrite ?join_cons2;
      repeat apply starts_solid_app; done. }
  rewrite (proj2 (split_trim_end _)), csv_file_lines by done.
  assert (trim_lines (rows ++ [EmptyString]) !! i = Some line) as Hrow.
  { apply trim_lines_lookup; [| done]. by apply lookup_app_l_Some. }
  destruct (trim_lines_head hl (rows ++ [EmptyString])) as (r & -> & Hr).
  { intros Hnil. by rewrite Hnil in Hrow. }
  exists r. split; [done |]. by rewrite <- Hr.
Qed.

(** ** Reading a damaged file *)

Lemma imap_keys (g : nat -> string -> jsval) (header : list string) :
  (imap (fun i h => (h, g i h)) header).*1 = header.
Proof.
  revert g. induction header as [|h header IH]; intros g; [done |].
  cbn [imap fmap list_fmap fst]. f_equal. apply (IH (g ∘ S)).
Qed.

Lemma row_object_lookup_index header cols j h :
  NoDup header -> header !! j = Some h ->
  row_object header cols !! h = Some (VStr (cell cols j)).
Proof.
  intros Hnd Hj. unfold row_object. apply assign_all_lookup_in.
  - by rewrite (imap_keys (fun i _ => VStr (cell cols i))).
  - apply elem_of_lookup_imap. by exists j, h.
Qed.

Lemma toAttachmentUrls_empty : toAttachmentUrls (VStr EmptyString) = [].
Proof. reflexivity. Qed.

Lemma ticket_of_line_get header line j h :
  NoDup header -> header !! j = Some h ->
  get (ticket_of_line header line) h
  = if decide (h = "attachments")
    then VArr (toAttachmentUrls (VStr (cell (csv_tokens line) j)))
    else VStr (cell (csv_tokens line) j).
Proof.
  intros Hnd Hj. unfold ticket_of_line.
  pose proof (row_object_lookup_index header (csv_tokens line) j h Hnd Hj) as Hrow.
  assert (get (row_object header (csv_tokens line)) h = VStr (cell (csv_tokens line) j)) as Hget.
  { unfold get. by rewrite Hrow. }
  destruct (decide (h = "attachments")) as [-> | Hne].
  - rewrite Hget.
    destruct (truthy (VStr (cell (csv_tokens line) j))) eqn:Ht; rewrite get_insert_eq; [done |].
    unfold toAttachmentUrls. by rewrite Ht.
  - destruct (truthy _); by rewrite get_insert_ne.
Qed.

Lemma cell_missing cols j : (length cols <= j)%nat -> cell cols j = EmptyString.
Proof. intros Hj. unfold cell. by rewrite lookup_ge_None_2. Qed.

Lemma cell_written vals j v :
  vals !! j = Some v -> cell (csv_tokens (join "," (map csvEscape vals))) j = cell_text v.
Proof.
  intros Hj. unfold cell. rewrite csv_tokens_written, list_lookup_fmap, Hj.
  apply unquote_csvEscape.
Qed.

Lemma trim_end_snoc_solid a c : is_space c = false -> trim_end (a +:+ str1 c) = a +:+ str1 c.
Proof.
  intros Hc. induction a as [|x a IH].
  - rewrite app_nil_l. cbn. by rewrite Hc.
  - rewrite app_cons, trim_end_cons, IH.
    destruct (a +:+ str1 c) eqn:Happ; [| done].
    by destruct a.
Qed.

Lemma written_row_ends_quoted vals :
  vals ≠ [] -> exists a, join "," (map csvEscape vals) = a +:+ str1 dquote.
Proof.
  induction vals as [|v vals IH]; [done |]. intros _.
  destruct vals as [|w vals].
  - cbn [map join]. rewrite csvEscape_unfold. eexists (String dquote _).
    by rewrite app_cons.
  - destruct IH as [a Ha]; [done |]. cbn [map] in *. rewrite join_cons2, Ha.
    exists (csvEscape v +:+ "," +:+ a). by rewrite !append_assoc.
Qed.

Lemma written_row_ends_solid vals :
  vals ≠ [] -> ends_solid (join "," (map csvEscape vals)).
Proof.
  intros [a ->]%written_row_ends_quoted. split.
  - by apply trim_end_snoc_solid.
  - by destruct a.
Qed.

(** C9. A CSV file with a damaged row still reads row by row. Take a file
    whose lines are the header and any data lines (each without a line
    feed). Every data line that is not blank at its end gets its entry, at
    its own index, whatever the other lines are: the entry maps the header
    name of column j to the text of the j-th cell of that line (the
    attachments column to the list of upload URLs of that text). For a line
    that a ticket was written to, the cells are the values written, so a
    well-formed row keeps all its values next to a damaged one; for a line
    with fewer cells than the header, the cells that are missing read as the
    empty text. *)
Theorem damaged_row_does_not_abort (hl : string) (rows : list string)
    (i : nat) (line : string) :
  starts_solid hl ->
  Forall no_newline (hl :: rows) ->
  NoDup (parse_header hl) ->
  rows !! i = Some line ->
  ends_solid line ->
  exists t,
    read_tickets_csv (csv_file hl rows) !! i = Some t
    /\ (forall j h, parse_header hl !! j = Some h ->
          get t h = if decide (h = "attachments")
                    then VArr (toAttachmentUrls (VStr (cell (csv_tokens line) j)))
                    else VStr (cell (csv_tokens line) j))
    /\ (forall j, (length (csv_tokens line) <= j)%nat -> cell (csv_tokens line) j = EmptyString)
    /\ (forall vals j v, line = join "," (map csvEscape vals) -> vals !! j = Some v ->
          cell (csv_tokens line) j = cell_text v)
    /\ (forall vals, vals ≠ [] -> ends_solid (join "," (map csvEscape vals))).
Proof.
  intros Hhl Hall Hnd Hi Hsolid.
  destruct (file_lines_lookup hl rows i line Hhl Hall Hi Hsolid) as (rows' & Hfile & Hrow).
  exists (ticket_of_line (parse_header hl) line). split_and!.
  - unfold read_tickets_csv. rewrite Hfile. by rewrite list_lookup_fmap, Hrow.
  - intros j h Hj. by apply ticket_of_line_get.
  - apply cell_missing.
  - intros vals j v -> Hj. by apply cell_written.
  - apply written_row_ends_solid.
Qed.

Lemma damaged_row_does_not_abort_witness :
  exists t,
    read_tickets_csv damaged_file !! 1%nat = Some t
    /\ get t "description" = VStr "link down, rack 4"
    /\ get t "attachments" = VArr ["/uploads/1-a.png"].
Proof.
  destruct (damaged_row_does_not_abort (join "," TICKETS_HEADER) [short_line; example_line]
              1%nat example_line) as (t & Ht & Hget & _).
  - vm_compute. reflexivity.
  - repeat constructor.
  - by_eval.
  - reflexivity.
  - split; [vm_compute; reflexivity | discriminate].
  - exists t. split; [exact Ht |]. split.
    + rewrite (Hget 9%nat "description"); [vm_compute; reflexivity | reflexivity].
    + rewrite (Hget 20%nat "attachments"); [vm_compute; reflexivity | reflexivity].
Defined.

Lemma damaged_file_short_row :
  (fun t => (get t "ticket_id", get t "category", get t "description", get t "attachments"))
    <$> read_tickets_csv damaged_file !! 0%nat
  = Some (VStr "T-2", VStr "Power", VStr EmptyString, VArr []).
Proof. vm_compute. reflexivity. Qed.

(** ** Decimal text *)

Ltac div_lia := zify; Z.div_mod_to_equations; lia.

Lemma digit_cases (d : N) :
  (d < 10)%N ->
  d = 0%N \/ d = 1%N \/ d = 2%N \/ d = 3%N \/ d = 4%N \/ d = 5%N \/ d = 6%N \/ d = 7%N
  \/ d = 8%N \/ d = 9%N.
Proof. lia. Qed.

Lemma digit_val_digit_char d : (d < 10)%N -> digit_val (digit_char d) = Some d.
Proof. intros Hd%digit_cases. destruct_or!; subst; reflexivity. Qed.

Lemma is_digit_digit_char d : (d < 10)%N -> is_digit (digit_char d) = true.
Proof. intros Hd. unfold is_digit. by rewrite digit_val_digit_char. Qed.

Lemma digits_go_app a d1 d2 :
  digits_go a (d1 +:+ d2) = digits_go a d1 ≫= (fun b => digits_go b d2).
Proof.
  revert a. induction d1 as [|c d1 IH]; intros a; [done |].
  rewrite app_cons. cbn [digits_go]. destruct (digit_val c); [apply IH | done].
Qed.

Lemma all_chars_app p a b : all_chars p (a +:+ b) = all_chars p a && all_chars p b.
Proof.
  induction a as [|c a IH]; [done |].
  rewrite app_cons. cbn [all_chars]. by rewrite IH, andb_assoc.
Qed.

Lemma pow10_succ (k : nat) : (10 ^ N.of_nat (S k) = 10 * 10 ^ N.of_nat k)%N.
Proof. by rewrite Nat2N.inj_succ, N.pow_succ_r'. Qed.

Lemma pow2_succ (k : nat) : (2 ^ N.of_nat (S k) = 2 * 2 ^ N.of_nat k)%N.
Proof. by rewrite Nat2N.inj_succ, N.pow_succ_r'. Qed.

Lemma is_decimal_of_digit n : (n < 10)%N -> is_decimal_of n (str1 (digit_char n)).
Proof.
  intros Hn. unfold is_decimal_of. cbn [String.length str1]. split_and!.
  - done.
  - cbn [all_chars str1]. by rewrite is_digit_digit_char.
  - intros a. cbn [digits_go str1]. rewrite digit_val_digit_char by done. f_equal.
    change (10 ^ N.of_nat 1)%N with 10%N. lia.
  - change (10 ^ N.of_nat 1)%N with 10%N. lia.
  - by left.
Qed.

Lemma is_decimal_of_snoc n d :
  (10 <= n)%N -> is_decimal_of (n / 10) d ->
  is_decimal_of n (d +:+ str1 (digit_char (n mod 10))).
Proof.
  intros Hbig (Hne & Hdig & Hval & Hlt & Hge).
  assert (n mod 10 < 10)%N as Hmod by (apply N.mod_lt; lia).
  assert (String.length (d +:+ str1 (digit_char (n mod 10))) = S (String.length d)) as Hlen.
  { rewrite append_length. cbn [String.length str1]. lia. }
  assert (String.length d ≠ O) as Hpos by (by destruct d).
  unfold is_decimal_of. rewrite Hlen. split_and!.
  - by destruct d.
  - rewrite all_chars_app, Hdig. cbn [all_chars str1 andb]. by rewrite is_digit_digit_char.
  - intros a. rewrite digits_go_app, Hval. cbn [mbind option_bind digits_go str1].
    rewrite digit_val_digit_char by done. f_equal. rewrite pow10_succ.
    pose proof (N.div_mod n 10). nia.
  - rewrite pow10_succ. div_lia.
  - right. replace (S (String.length d) - 1)%nat with (String.length d) by lia.
    destruct Hge as [H1 | Hge].
    + rewrite H1. change (10 ^ N.of_nat 1)%N with 10%N. done.
    + destruct (String.length d) as [|k] eqn:Hk; [done |].
      replace (S k - 1)%nat with k in Hge by lia. rewrite pow10_succ. div_lia.
Qed.

Lemma dec_go_spec fuel : forall n acc,
  (n < 2 ^ N.of_nat (S fuel))%N ->
  exists d, dec_go (S fuel) n acc = d +:+ acc /\ is_decimal_of n d.
Proof.
  induction fuel as [|fuel IH]; intros n acc Hn.
  - change (2 ^ N.of_nat 1)%N with 2%N in Hn.
    exists (str1 (digit_char n)). cbn [dec_go].
    destruct (N.ltb_spec n 10) as [Hsmall | Hbig]; [| lia].
    rewrite N.mod_small by done. split; [done |]. by apply is_decimal_of_digit.
  - cbn [dec_go]. destruct (N.ltb_spec n 10) as [Hsmall | Hbig].
    + exists (str1 (digit_char n)). rewrite N.mod_small by done.
      split; [done |]. by apply is_decimal_of_digit.
    + destruct (IH (n / 10)%N (String (digit_char (n mod 10)) acc)) as (d & Hd & Hspec).
      { rewrite pow2_succ in Hn. div_lia. }
      exists (d +:+ str1 (digit_char (n mod 10))). split.
      * cbn [dec_go] in Hd. rewrite Hd. by rewrite append_assoc.
      * by apply is_decimal_of_snoc.
Qed.

Lemma dec_of_N_spec n : is_decimal_of n (dec_of_N n).
Proof.
  unfold dec_of_N.
  destruct (dec_go_spec (N.to_nat (N.log2 n)) n EmptyString) as (d & Hd & Hspec).
  - rewrite Nat2N.inj_succ, N2Nat.id.
    destruct n as [|p]; [done |]. apply N.log2_spec. lia.
  - rewrite Hd. by rewrite append_nil_r.
Qed.

Lemma dec_of_Z_nonneg z : 0 <= z -> dec_of_Z z = dec_of_N (Z.to_N z).
Proof. intros Hz. unfold dec_of_Z. by destruct (Z.ltb_spec z 0); [lia |]. Qed.

Lemma decimal_length_le n d k :
  is_decimal_of n d -> (n < 10 ^ N.of_nat (S k))%N -> (String.length d <= S k)%nat.
Proof.
  intros (_ & _ & _ & _ & [H1 | Hge]) Hn; [lia |].
  assert (10 ^ N.of_nat (String.length d - 1) < 10 ^ N.of_nat (S k))%N as Hpow by lia.
  apply N.pow_lt_mono_r_iff in Hpow; lia.
Qed.

Lemma repeat_char_length c n : String.length (repeat_char c n) = n.
Proof. induction n as [|n IH]; [done |]. cbn. by rewrite IH. Qed.

Lemma padStart0_length w s :
  String.length (padStart0 w s) = Nat.max w (String.length s).
Proof. unfold padStart0. rewrite append_length, repeat_char_length. lia. Qed.

Lemma digits_go_zeros k : forall a s,
  digits_go a (repeat_char "0" k +:+ s) = digits_go (a * 10 ^ N.of_nat k)%N s.
Proof.
  induction k as [|k IH]; intros a s.
  - cbn [repeat_char]. rewrite app_nil_l. f_equal. change (10 ^ N.of_nat 0)%N with 1%N. lia.
  - cbn [repeat_char]. rewrite app_cons. cbn [digits_go].
    change (digit_val "0") with (Some 0%N). cbn match. rewrite IH. f_equal.
    rewrite pow10_succ. lia.
Qed.

Lemma all_chars_repeat_zero k : all_chars is_digit (repeat_char "0" k) = true.
Proof. induction k as [|k IH]; [done |]. cbn [repeat_char all_chars]. by rewrite IH. Qed.

Lemma digits_value_go s : s ≠ EmptyString -> digits_value s = digits_go 0 s.
Proof. by destruct s. Qed.

(** A number padded with zeros reads as the number. *)
Lemma pad_num_spec w z :
  0 <= z ->
  digits_value (pad_num w z) = Some (Z.to_N z)
  /\ all_chars is_digit (pad_num w z) = true
  /\ (w <= String.length (pad_num w z))%nat
  /\ (forall k, z < 10 ^ Z.of_nat (S k) -> (S k <= w)%nat -> String.length (pad_num w z) = w).
Proof.
  intros Hz. unfold pad_num. rewrite dec_of_Z_nonneg by done.
  pose proof (dec_of_N_spec (Z.to_N z)) as Hspec.
  destruct Hspec as (Hne & Hdig & Hval & Hspec').
  split_and!.
  - rewrite digits_value_go.
    + unfold padStart0. rewrite digits_go_zeros, Hval. f_equal; lia.
    + unfold padStart0. destruct (repeat_char "0" _); [by rewrite app_nil_l | done].
  - unfold padStart0. by rewrite all_chars_app, all_chars_repeat_zero, Hdig.
  - rewrite padStart0_length. lia.
  - intros k Hk Hw. rewrite padStart0_length.
    assert (String.length (dec_of_N (Z.to_N z)) <= S k)%nat; [| lia].
    apply (decimal_length_le (Z.to_N z)); [apply dec_of_N_spec |].
    apply N2Z.inj_lt. rewrite Z2N.id, N2Z.inj_pow by done.
    by rewrite nat_N_Z.
Qed.

(** ** The date part of the identifier *)

Lemma remove_dashes_app a b : remove_dashes (a +:+ b) = remove_dashes a +:+ remove_dashes b.
Proof.
  induction a as [|c a IH]; [done |].
  rewrite app_cons. cbn [remove_dashes]. rewrite IH. by destruct (Ascii.eqb c dash).
Qed.

Lemma remove_dashes_digits d : all_chars is_digit d = true -> remove_dashes d = d.
Proof.
  induction d as [|c d IH]; [done |]. cbn [all_chars remove_dashes].
  intros [Hc Hd]%andb_true_iff. rewrite IH by done.
  destruct (Ascii.eqb_spec c dash) as [-> | _]; [done | done].
Qed.

Lemma yyyymmdd_spec now :
  0 <= dt_year now <= 9999 -> 1 <= dt_month now <= 12 -> 1 <= dt_day now <= 31 ->
  yyyymmdd now
  = pad_num 4 (dt_year now) +:+ pad_num 2 (dt_month now) +:+ pad_num 2 (dt_day now)
  /\ String.length (yyyymmdd now) = 8%nat
  /\ all_chars is_digit (yyyymmdd now) = true.
Proof.
  intros Hy Hm Hd.
  destruct (pad_num_spec 4 (dt_year now)) as (_ & Hyd & _ & Hyl); [lia |].
  destruct (pad_num_spec 2 (dt_month now)) as (_ & Hmd & _ & Hml); [lia |].
  destruct (pad_num_spec 2 (dt_day now)) as (_ & Hdd & _ & Hdl); [lia |].
  assert (String.length (pad_num 4 (dt_year now)) = 4%nat) as Hyl'.
  { apply (Hyl 3%nat); [change (10 ^ Z.of_nat 4) with 10000; lia | lia]. }
  assert (String.length (pad_num 2 (dt_month now)) = 2%nat) as Hml'.
  { apply (Hml 1%nat); [change (10 ^ Z.of_nat 2) with 100; lia | lia]. }
  assert (String.length (pad_num 2 (dt_day now)) = 2%nat) as Hdl'.
  { apply (Hdl 1%nat); [change (10 ^ Z.of_nat 2) with 100; lia | lia]. }
  clear Hyl Hml Hdl.
  assert (yyyymmdd now
          = pad_num 4 (dt_year now) +:+ pad_num 2 (dt_month now) +:+ pad_num 2 (dt_day now)) as ->.
  { unfold yyyymmdd, toISOString, iso_year.
    destruct (Z.leb_spec 0 (dt_year now)); [| lia].
    destruct (Z.leb_spec (dt_year now) 9999); [| lia]. cbn [andb].
    set (Y := pad_num 4 (dt_year now)) in *. set (M := pad_num 2 (dt_month now)) in *.
    set (D := pad_num 2 (dt_day now)) in *.
    set (rest := "T" +:+ _).
    replace (Y +:+ "-" +:+ M +:+ "-" +:+ D +:+ rest)
      with ((Y +:+ "-" +:+ M +:+ "-" +:+ D) +:+ rest) by (by rewrite !append_assoc).
    replace 10%nat with (String.length (Y +:+ "-" +:+ M +:+ "-" +:+ D)).
    2:{ rewrite !append_length, Hyl', Hml', Hdl'. reflexivity. }
    rewrite take_str_app, !remove_dashes_app.
    rewrite (remove_dashes_digits Y), (remove_dashes_digits M), (remove_dashes_digits D) by done.
    reflexivity. }
  split_and!; [done | | ].
  - rewrite !append_length, Hyl', Hml', Hdl'. reflexivity.
  - by rewrite !all_chars_app, Hyd, Hmd, Hdd.
Qed.

(** ** The tables of the identifier *)

Lemma table_lookup (l : list (string * string)) k :
  (list_to_map (prod_map id VStr <$> l) : gmap string jsval) !! k = VStr <$> assoc k l.
Proof.
  induction l as [|[k' v] l IH]; [done |].
  cbn [fmap list_fmap prod_map fst snd list_to_map foldr assoc curry].
  destruct (String.eqb_spec k k') as [-> | Hne].
  - by rewrite lookup_insert_eq.
  - rewrite lookup_insert_ne by done. apply IH.
Qed.

Lemma assoc_nonempty (l : list (string * string)) k v :
  Forall (fun kv => nonempty kv.2 = true) l -> assoc k l = Some v -> nonempty v = true.
Proof.
  induction 1 as [|[k' v'] l Hv _ IH]; [done |]. cbn [assoc].
  destruct (String.eqb k k'); [by intros [= <-] | done].
Qed.

Lemma table_code (l : list (string * string)) k dflt :
  Forall (fun kv => nonempty kv.2 = true) l ->
  lookup_code (list_to_map (prod_map id VStr <$> l)) k dflt
  = match assoc k l with
    | Some code => code
    | None => default dflt (inherited k)
    end.
Proof.
  intros Hl. unfold lookup_code. rewrite table_lookup.
  destruct (assoc k l) as [v|] eqn:Hk; [| done].
  pose proof (assoc_nonempty _ _ _ Hl Hk) as Hne. unfold nonempty in Hne.
  cbn [fmap option_fmap option_map]. unfold js_or.
  cbn [truthy]. by rewrite Hne.
Qed.

Lemma short_code_spec category :
  short_code category
  = match assoc (to_str category) CATEGORY_CODES with
    | Some code => code
    | None => default "GEN" (inherited (to_str category))
    end.
Proof. apply (table_code CATEGORY_CODES). by_eval. Qed.

Lemma assoc_diag (l : list string) k :
  assoc k (map (fun b => (b, b)) l) = if decide (k ∈ l) then Some k else None.
Proof.
  induction l as [|b l IH]; [done |]. cbn [map assoc].
  destruct (String.eqb_spec k b) as [-> | Hne].
  - by rewrite decide_True by apply list_elem_of_here.
  - rewrite IH. destruct (decide (k ∈ l)) as [Hin | Hnin].
    + by rewrite decide_True by by apply list_elem_of_further.
    + rewrite decide_False; [done |]. by intros [? | ?]%elem_of_cons.
Qed.

Lemma building_code_spec building :
  building_code building
  = if decide (to_str building ∈ KNOWN_BUILDINGS) then to_str building
    else default "LOS5" (inherited (to_str building)).
Proof.
  unfold building_code.
  rewrite (table_code (map (fun b => (b, b)) KNOWN_BUILDINGS)) by by_eval.
  rewrite assoc_diag. by case_decide.
Qed.

Lemma inherited_code name text :
  (name, text) ∈ OBJECT_PROTOTYPE ->
  lookup_code CATEGORY_SHORT name "GEN" = text
  /\ lookup_code BUILDING_CODES name "LOS5" = text
  /\ text ≠ "GEN" /\ (text ∉ CATEGORY_CODES.*2) /\ code_ok text = false
  /\ text ≠ "LOS5" /\ text ∉ KNOWN_BUILDINGS.
Proof.
  intros Hin. unfold OBJECT_PROTOTYPE in Hin.
  repeat (apply elem_of_cons in Hin as [[= -> ->] | Hin];
          [split_and!; first [by vm_compute | by_eval] |]).
  by apply elem_of_nil in Hin.
Qed.

(** C1, as the code has it. The two code tables are plain objects, and a
    name they do not have is looked up in what they inherit. A category
    whose text is a property name of [Object.prototype] (constructor,
    toString, valueOf, ...) therefore gets neither its code nor GEN: the
    identifier carries the text of the inherited value in the place of
    the category code. The same holds for the building code and LOS5. *)
Theorem ticket_id_inherited_code (up : bool) (st : store) (now : datetime)
    (category building : jsval) (name text : string) :
  (name, text) ∈ OBJECT_PROTOTYPE ->
  (to_str category = name ->
   generateTicketId up st now category building
   = "KASI-" +:+ building_code building +:+ "-" +:+ yyyymmdd now +:+ "-" +:+ text +:+ "-"
     +:+ sequence_text (existing_in_category up st category)
   /\ text ≠ "GEN" /\ (text ∉ CATEGORY_CODES.*2) /\ code_ok text = false)
  /\ (to_str building = name ->
      generateTicketId up st now category building
      = "KASI-" +:+ text +:+ "-" +:+ yyyymmdd now +:+ "-" +:+ short_code category +:+ "-"
        +:+ sequence_text (existing_in_category up st category)
      /\ text ≠ "LOS5" /\ text ∉ KNOWN_BUILDINGS).
Proof.
  intros Hin.
  destruct (inherited_code name text Hin) as (Hshort & Hbuilding & H1 & H2 & H3 & H4 & H5).
  split.
  - intros Hcat. split_and!; try done.
    unfold generateTicketId, short_code. by rewrite Hcat, Hshort.
  - intros Hb. split_and!; try done.
    unfold generateTicketId, building_code. by rewrite Hb, Hbuilding.
Qed.

Lemma ticket_id_inherited_code_witness :
  generateTicketId true empty_store example_now (VStr "constructor") (VStr "LOS1")
  = "KASI-LOS1-20251006-function Object() { [native code] }-0001"
  /\ generateTicketId true empty_store example_now (VStr "Network") (VStr "__proto__")
     = "KASI-[object Object]-20251006-NET-0001".
Proof.
  split.
  - destruct (ticket_id_inherited_code true empty_store example_now (VStr "constructor")
                (VStr "LOS1") "constructor" (native_function "Object")) as [Hcat _].
    + apply list_elem_of_here.
    + destruct (Hcat eq_refl) as [Hid _]. rewrite Hid. vm_compute. reflexivity.
  - destruct (ticket_id_inherited_code true empty_store example_now (VStr "Network")
                (VStr "__proto__") "__proto__" "[object Object]") as [_ Hb].
    + do 10 apply list_elem_of_further. apply list_elem_of_here.
    + destruct (Hb eq_refl) as [Hid _]. rewrite Hid. vm_compute. reflexivity.
Defined.

(** ** The SLA counts *)

Lemma count_where_none p docs :
  Forall (fun d => p d = false) docs -> count_where p docs = O.
Proof.
  unfold count_where. induction 1 as [|d docs Hd _ IH]; [done |].
  rewrite filter_cons_False; [done |]. by rewrite Hd.
Qed.

Lemma count_where_ext p q docs :
  Forall (fun d => p d = q d) docs -> count_where p docs = count_where q docs.
Proof.
  unfold count_where. induction 1 as [|d docs Hd _ IH]; [done |].
  rewrite !filter_cons, Hd. destruct (decide (q d = true)); cbn [length]; by rewrite IH.
Qed.

(** On a collection in which no document has the property slaBreached (no
    handler writes it: the schema, the create and the update use sla_breach)
    the aggregator counts no ticket as breached and every ticket as on
    time, whatever the flags are. *)
Lemma sla_counts_without_slaBreached mt docs :
  Forall no_slaBreached docs ->
  sla_breached (aggregate mt docs) = O
  /\ sla_onTime (aggregate mt docs) = totalTickets (aggregate mt docs).
Proof.
  intros Hall. cbn [aggregate sla_breached sla_onTime totalTickets]. split.
  - apply count_where_none. eapply Forall_impl; [exact Hall |].
    intros d Hd. unfold matches_any, get. rewrite Hd.
    rewrite andb_false_iff. right. by apply bool_decide_eq_false_2; by_eval.
  - apply count_where_ext. eapply Forall_impl; [exact Hall |].
    intros d Hd. unfold matches_any, get. rewrite Hd.
    rewrite bool_decide_eq_true_2; [by rewrite andb_true_r | by_eval].
Qed.

Section handlers_slaBreached.
Context `{Runtime}.

Lemma post_no_slaBreached up now body files st :
  Forall no_slaBreached (tickets_db st) ->
  Forall no_slaBreached (tickets_db (post up now body files st).1).
Proof.
  intros Hall. rewrite post_tickets_db.
  pose proof (ticket_save_cases up now
    (create_doc_fields now (post_ticket_id up now body st) body (join ";" files))
    (tickets_db st)) as Hcases.
  destruct (ticket_save _ _ _ _) as [docs' | e]; [| done].
  destruct Hcases as (_ & _ & ->). cbn [or_unchanged].
  apply Forall_app. split; [done |]. apply Forall_singleton.
  unfold no_slaBreached, create_doc_fields. cbn [fields].
  rewrite assign_all_lookup_notin; [done | by_eval].
Qed.

Lemma update_first_Forall (P : ticket_doc -> Prop) id d' docs :
  P d' -> Forall P docs -> Forall P (update_first id d' docs).
Proof.
  intros Hd'. induction 1 as [|d docs Hd Hdocs IH]; [done |].
  cbn [update_first]. destruct (has_id id d); by constructor.
Qed.

Lemma find_doc_elem_of id docs d : find_doc id docs = Some d -> d ∈ docs.
Proof.
  induction docs as [|x docs IH]; [done |]. cbn [find_doc].
  destruct (has_id id x); [intros [= <-]; apply list_elem_of_here |].
  intros Hd. by apply list_elem_of_further, IH.
Qed.

Lemma put_no_slaBreached up now id body files st :
  Forall no_slaBreached (tickets_db st) ->
  Forall no_slaBreached (tickets_db (put up now id body files st).1).
Proof.
  intros Hall.
  assert (Forall no_slaBreached (put_db up now id body files (tickets_db st))) as Hdb.
  { unfold put_db. destruct up; [| done].
    destruct (find_doc id (tickets_db st)) as [doc|] eqn:Hfind; [| done].
    destruct (apply_update now body files doc) as [doc'|] eqn:Hup; [| done].
    apply update_first_Forall; [| done].
    apply apply_update_Some in Hup as (fn & _ & Hf & _).
    unfold no_slaBreached. rewrite Hf.
    rewrite assign_all_lookup_notin; [| rewrite updateObj_keys; by_eval].
    rewrite Forall_forall in Hall. apply Hall. by eapply find_doc_elem_of. }
  unfold put. destruct (tickets_file st) as [content|]; [| done].
  destruct (file_lines content) as [hl rows].
  by destruct (negb (existsb (line_has_id id) rows)).
Qed.
End handlers_slaBreached.

(** C6, at the failing input. The example store holds one ticket, created
    with the SLA-breach flag true. The statistics over it count no ticket as
    breached and one as on time: the counts read the property slaBreached,
    which no document has, and not the flag sla_breach. *)
Theorem sla_counts_miss_breach_flag :
  get (fields example_doc) "sla_breach" = VBool true
  /\ tickets_db example_store = [example_doc]
  /\ (fun r => match r with
               | Ok s => Some (totalTickets s, sla_breached s, sla_onTime s)
               | Err _ => None
               end) (stats (H := utc_runtime) true all_time example_store)
     = Some (1%nat, 0%nat, 1%nat).
Proof. split_and!; vm_compute; reflexivity. Qed.

(** ** Numbers read back from text *)

Lemma digit_not_space c : is_digit c = true -> is_space c = false.
Proof.
  unfold is_digit, digit_val, is_space.
  destruct (_ && _)%N eqn:Hd; [| done]. intros _.
  apply andb_true_iff in Hd as [H1%N.leb_le H2%N.leb_le].
  apply orb_false_iff. split; [apply orb_false_iff; split |].
  - apply andb_false_iff. right. apply N.leb_gt. lia.
  - apply N.eqb_neq. lia.
  - apply N.eqb_neq. lia.
Qed.

Lemma digit_not_dash c : is_digit c = true -> Ascii.eqb dash c = false.
Proof. intros Hc. destruct (Ascii.eqb_spec dash c) as [<- | _]; done. Qed.

Lemma trim_end_digits s : all_chars is_digit s = true -> trim_end s = s.
Proof.
  induction s as [|c s IH]; [done |]. cbn [all_chars].
  intros [Hc Hs]%andb_true_iff. rewrite trim_end_cons, IH by done.
  destruct s; [| done]. by rewrite digit_not_space.
Qed.

Lemma trim_digits s : all_chars is_digit s = true -> trim s = s.
Proof.
  intros Hs. unfold trim.
  assert (trim_start s = s) as ->; [| by apply trim_end_digits].
  destruct s as [|c s]; [done |]. cbn [all_chars] in Hs.
  apply andb_true_iff in Hs as [Hc _]. cbn [trim_start]. by rewrite digit_not_space.
Qed.

Lemma js_number_digits s n :
  all_chars is_digit s = true -> digits_value s = Some n -> js_number s = Some (Z.of_N n).
Proof.
  intros Hs Hn. unfold js_number. rewrite trim_digits by done.
  destruct s as [|c s]; [done |]. cbn [all_chars] in Hs.
  apply andb_true_iff in Hs as [Hc _].
  destruct (Ascii.eqb_spec c dash) as [-> | _]; [done |].
  destruct (Ascii.eqb_spec c "+") as [-> | _]; [done |].
  by rewrite Hn.
Qed.

Lemma js_number_pad w z : 0 <= z -> js_number (pad_num w z) = Some z.
Proof.
  intros Hz. destruct (pad_num_spec w z Hz) as (Hval & Hdig & _).
  rewrite (js_number_digits _ _ Hdig Hval). f_equal. lia.
Qed.

Lemma has_char_digits c s :
  (forall a, is_digit a = true -> Ascii.eqb c a = false) ->
  all_chars is_digit s = true -> has_char c s = false.
Proof.
  intros Hc. induction s as [|a s IH]; [done |]. cbn [all_chars has_char].
  intros [Ha Hs]%andb_true_iff. by rewrite (Hc a Ha), IH.
Qed.

(** ** The week filter *)

Lemma split_week_text (y w : string) :
  has_char dash y = false -> has_char dash w = false ->
  split "-W" (y +:+ "-W" +:+ w) = [y; w].
Proof.
  intros Hy Hw. unfold split. unfold dash in *.
  assert (forall t, has_char "-" t = false -> split_go "-W" 0 t = [t]) as Hlast.
  { induction t as [|a t IH]; [done |]. cbn [has_char].
    intros [Ha Ht]%orb_false_iff. cbn [split_go is_prefix]. rewrite Ha. cbn [andb].
    by rewrite IH. }
  induction y as [|a y IH].
  - rewrite app_nil_l, !app_cons, app_nil_l.
    change (split_go "-W" 0 (String "-" (String "W" w))) with (EmptyString :: split_go "-W" 0 w).
    by rewrite Hlast.
  - cbn [has_char] in Hy. apply orb_false_iff in Hy as [Ha Hy].
    rewrite app_cons. cbn [split_go is_prefix]. rewrite Ha. cbn [andb].
    by rewrite IH.
Qed.

Lemma filter_ext_bool {A} (p q : A -> bool) (l : list A) :
  (forall x, p x = q x) ->
  filter (fun x => p x = true) l = filter (fun x => q x = true) l.
Proof. intros Hpq. apply list_filter_iff. intros x. by rewrite Hpq. Qed.

Section week.
Context `{Runtime}.

Lemma build_match_week (y w : Z) :
  1000 <= y <= 9999 -> 0 <= w <= 99 ->
  exists mt,
    build_match (mkQuery None (Some (pad_num 4 y +:+ "-W" +:+ pad_num 2 w)) None) = Some mt
    /\ forall d,
         mt d = bool_decide
                  ((DayFromYear y + 7 * (w - 1)) * msPerDay - tz_offset
                     <= time_ms (createdAt d)
                     < (DayFromYear y + 7 * (w - 1)) * msPerDay - tz_offset + 7 * msPerDay).
Proof.
  intros Hy Hw.
  destruct (pad_num_spec 4 y) as (_ & Hyd & _); [lia |].
  destruct (pad_num_spec 2 w) as (_ & Hwd & _); [lia |].
  unfold build_match. cbn [q_month q_week q_year given].
  assert (nonempty (pad_num 4 y +:+ "-W" +:+ pad_num 2 w) = true) as ->.
  { unfold pad_num, padStart0. destruct (repeat_char _ _ +:+ _) eqn:He; [| done].
    by rewrite app_nil_l. }
  rewrite split_week_text by (by apply has_char_digits; [apply digit_not_dash |]).
  unfold number_part. cbn [lookup list_lookup mbind option_bind].
  rewrite !js_number_pad by lia.
  eexists. split; [reflexivity |]. intros d. cbn beta.
  unfold local_date_ms.
  destruct (Z.leb_spec y 99); [lia |]. rewrite andb_false_r.
  unfold msPerDay.
  destruct (bool_decide _) eqn:Hb.
  - apply bool_decide_eq_true in Hb. apply andb_true_iff. split; [apply Z.leb_le | apply Z.ltb_lt]; lia.
  - apply bool_decide_eq_false in Hb. apply andb_false_iff.
    destruct (Z.leb_spec ((DayFromYear y + ((w - 1) * 7 + 1 - 1)) * 86400000 - tz_offset)
                (time_ms (createdAt d))); [right | by left].
    apply Z.ltb_ge. lia.
Qed.

(** C8, as the code has it. A week filter YYYY-Www (a year of four digits
    from 1000 on, a week of two digits) selects the tickets created in a
    block of seven days counted from 1 January: the block starts at local
    midnight (w - 1) * 7 days after 1 January of the year and ends seven
    days later. The total and the groupings by status, category and
    priority count exactly these tickets. *)
Theorem week_filter_counts_seven_day_block (y w : Z) (st : store) :
  1000 <= y <= 9999 -> 0 <= w <= 99 ->
  let week := pad_num 4 y +:+ "-W" +:+ pad_num 2 w in
  let start := (DayFromYear y + 7 * (w - 1)) * msPerDay - tz_offset in
  let in_block d := bool_decide (start <= time_ms (createdAt d) < start + 7 * msPerDay) in
  let selected := filter (fun d => in_block d = true) (tickets_db st) in
  exists r,
    stats true (mkQuery None (Some week) None) st = Ok r
    /\ totalTickets r = length selected
    /\ byStatus r = group_count (map (fun d => get (fields d) "status") selected)
    /\ byCategory r = group_count (map (fun d => get (fields d) "category") selected)
    /\ byPriority r = group_count (map (fun d => get (fields d) "priority") selected).
Proof.
  intros Hy Hw week start in_block selected.
  destruct (build_match_week y w Hy Hw) as (mt & Hmt & Hspec).
  unfold stats. fold week in Hmt. rewrite Hmt.
  eexists. split; [reflexivity |].
  assert (filter (fun d => mt d = true) (tickets_db st) = selected) as Hsel.
  { unfold selected. apply filter_ext_bool. intros d. by rewrite Hspec. }
  cbn [aggregate totalTickets byStatus byCategory byPriority].
  unfold count_where, group_field. by rewrite Hsel.
Qed.
End week.

Lemma week_filter_counts_seven_day_block_witness :
  total_of (stats (H := utc_runtime) true week1_2025
              (mkStore [doc_created dec30; doc_created jan7] [] None None))
  = Some 1%nat.
Proof.
  destruct (week_filter_counts_seven_day_block (H := utc_runtime) 2025 1
              (mkStore [doc_created dec30; doc_created jan7] [] None None))
    as (r & Hr & Htotal & _).
  - vm_compute. split; discriminate.
  - vm_compute. split; discriminate.
  - change week1_2025 with (mkQuery None (Some (pad_num 4 2025 +:+ "-W" +:+ pad_num 2 1)) None).
    rewrite Hr. cbn [total_of]. rewrite Htotal. vm_compute. reflexivity.
Defined.

(** C8, as stated, fails. Monday 30 December 2024 lies in ISO week 1 of
    2025, and the filter 2025-W01 does not count a ticket created then;
    Tuesday 7 January 2025 lies in ISO week 2, and the filter counts a
    ticket created then. *)
Lemma week_filter_is_not_iso_week :
  in_iso_week (H := utc_runtime) 2025 1 dec30 = true
  /\ total_of (stats (H := utc_runtime) true week1_2025
                 (mkStore [doc_created dec30] [] None None)) = Some 0%nat
  /\ in_iso_week (H := utc_runtime) 2025 1 jan7 = false
  /\ total_of (stats (H := utc_runtime) true week1_2025
                 (mkStore [doc_created jan7] [] None None)) = Some 1%nat.
Proof. split_and!; vm_compute; reflexivity. Qed.

(** ** The calendar *)

Lemma DayFromYear_succ y :
  DayFromYear (y + 1) = DayFromYear y + (if is_leap y then 366 else 365).
Proof.
  unfold DayFromYear, is_leap.
  destruct (y mod 4 =? 0) eqn:H4; destruct (y mod 100 =? 0) eqn:H100;
    destruct (y mod 400 =? 0) eqn:H400; cbn [andb orb negb]; div_lia.
Qed.

Lemma DayFromYear_mono y1 y2 : y1 <= y2 -> DayFromYear y1 <= DayFromYear y2.
Proof. unfold DayFromYear. intros Hy. div_lia. Qed.

Lemma month_cases m :
  1 <= m <= 12 ->
  m = 1 \/ m = 2 \/ m = 3 \/ m = 4 \/ m = 5 \/ m = 6 \/ m = 7 \/ m = 8 \/ m = 9
  \/ m = 10 \/ m = 11 \/ m = 12.
Proof. lia. Qed.

Lemma month_start_next y m :
  1 <= m <= 11 -> month_start y (m + 1) = month_start y m + days_in_month y m.
Proof.
  intros Hm. assert (1 <= m <= 12) as Hm'%month_cases by lia.
  unfold month_start, days_in_month.
  destruct (is_leap y); destruct_or!; subst m; try lia; reflexivity.
Qed.

Lemma days_in_month_pos y m : 28 <= days_in_month y m <= 31.
Proof.
  unfold days_in_month. destruct (m =? 2); [destruct (is_leap y); lia |].
  destruct (_ || _); lia.
Qed.

Lemma month_start_mono y m1 m2 :
  1 <= m1 -> m1 < m2 -> m2 <= 12 ->
  month_start y m1 + days_in_month y m1 <= month_start y m2.
Proof.
  intros H1 Hlt H2.
  assert (exists k : nat, m2 = m1 + 1 + Z.of_nat k) as [k ->].
  { exists (Z.to_nat (m2 - m1 - 1)). lia. }
  induction k as [|k IH].
  - rewrite Z.add_0_r, month_start_next by lia. lia.
  - replace (m1 + 1 + Z.of_nat (S k)) with ((m1 + 1 + Z.of_nat k) + 1) by lia.
    rewrite month_start_next by lia.
    pose proof (days_in_month_pos y (m1 + 1 + Z.of_nat k)). lia.
Qed.

Lemma year_length y : month_start y 12 + days_in_month y 12 = if is_leap y then 366 else 365.
Proof. unfold month_start, days_in_month. by destruct (is_leap y). Qed.

Lemma month_start_nonneg y m : 1 <= m <= 12 -> 0 <= month_start y m.
Proof.
  intros Hm%month_cases. unfold month_start.
  destruct (is_leap y); destruct_or!; subst m; cbn; lia.
Qed.

Lemma day_number_bounds y m d :
  valid_day (y, m, d) ->
  DayFromYear y <= MakeDay y m d < DayFromYear (y + 1).
Proof.
  intros (_ & Hm & Hd). unfold MakeDay. rewrite DayFromYear_succ, <- year_length.
  pose proof (month_start_nonneg y m Hm).
  destruct (decide (m = 12)) as [-> | Hne]; [lia |].
  pose proof (month_start_mono y m 12). pose proof (days_in_month_pos y 12). lia.
Qed.

(** An earlier day has a smaller day number. *)
Lemma day_number_lt a b :
  valid_day a -> valid_day b -> day_lt a b -> day_number a < day_number b.
Proof.
  destruct a as [[y1 m1] d1], b as [[y2 m2] d2]. intros Ha Hb Hlt.
  cbn [day_number].
  destruct Hlt as [Hy | (-> & [Hm | (-> & Hd)])].
  - pose proof (day_number_bounds _ _ _ Ha). pose proof (day_number_bounds _ _ _ Hb).
    pose proof (DayFromYear_mono (y1 + 1) y2). lia.
  - destruct Ha as (_ & Hm1 & Hd1), Hb as (_ & Hm2 & Hd2). unfold MakeDay.
    pose proof (month_start_mono y2 m1 m2). lia.
  - unfold MakeDay. lia.
Qed.

Lemma day_trichotomy a b : day_lt a b \/ a = b \/ day_lt b a.
Proof.
  destruct a as [[y1 m1] d1], b as [[y2 m2] d2]. unfold day_lt.
  destruct (Z.lt_total y1 y2) as [? | [-> | ?]]; [auto | | auto].
  destruct (Z.lt_total m1 m2) as [? | [-> | ?]]; [auto | | auto 6].
  destruct (Z.lt_total d1 d2) as [? | [-> | ?]]; auto 8.
Qed.

(** ** Order of zero-padded numbers *)

Lemma digit_val_bound c v : digit_val c = Some v -> (v < 10)%N /\ N_of_ascii c = (48 + v)%N.
Proof.
  unfold digit_val. destruct (_ && _)%N eqn:Hd; [| done]. intros [= <-].
  apply andb_true_iff in Hd as [H1%N.leb_le H2%N.leb_le]. lia.
Qed.

Lemma digits_go_value s :
  all_chars is_digit s = true ->
  exists v, (v < 10 ^ N.of_nat (String.length s))%N
    /\ forall acc, digits_go acc s = Some (acc * 10 ^ N.of_nat (String.length s) + v)%N.
Proof.
  induction s as [|c s IH]; intros Hs.
  - exists 0%N. split; [done |]. intros acc. cbn. f_equal. lia.
  - cbn [all_chars] in Hs. apply andb_true_iff in Hs as [Hc Hs].
    destruct (IH Hs) as (v & Hv & Hgo). unfold is_digit in Hc.
    destruct (digit_val c) as [vc|] eqn:Hvc; [| done].
    destruct (digit_val_bound c vc Hvc) as [Hlt _].
    exists (vc * 10 ^ N.of_nat (String.length s) + v)%N. cbn [String.length].
    rewrite pow10_succ. split; [nia |].
    intros acc. cbn [digits_go]. rewrite Hvc, Hgo. f_equal. lia.
Qed.

Lemma compare_digits_lt s : forall t acc a b,
  String.length s = String.length t ->
  all_chars is_digit s = true -> all_chars is_digit t = true ->
  digits_go acc s = Some a -> digits_go acc t = Some b -> (a < b)%N ->
  String.compare s t = Lt.
Proof.
  induction s as [|c s IH]; intros [|e t] acc a b Hlen Hs Ht Ha Hb Hab; try done.
  - cbn in Ha, Hb. simplify_eq. lia.
  - cbn [all_chars] in Hs, Ht.
    apply andb_true_iff in Hs as [Hc Hs]. apply andb_true_iff in Ht as [He Ht].
    cbn [String.length] in Hlen. injection Hlen as Hlen.
    unfold is_digit in Hc, He.
    destruct (digit_val c) as [vc|] eqn:Hvc; [| done].
    destruct (digit_val e) as [ve|] eqn:Hve; [| done].
    destruct (digit_val_bound c vc Hvc) as [Hvc1 Hvc2].
    destruct (digit_val_bound e ve Hve) as [Hve1 Hve2].
    cbn [digits_go] in Ha, Hb. rewrite Hvc in Ha. rewrite Hve in Hb.
    cbn [String.compare]. unfold Ascii.compare. rewrite Hvc2, Hve2.
    destruct (N.compare_spec (48 + vc) (48 + ve)) as [Heq | Hlt | Hgt].
    + assert (vc = ve) as -> by lia. by eapply IH.
    + done.
    + exfalso.
      destruct (digits_go_value s Hs) as (v1 & Hv1 & Hgo1).
      destruct (digits_go_value t Ht) as (v2 & Hv2 & Hgo2).
      rewrite Hgo1 in Ha. rewrite Hgo2 in Hb. rewrite <- Hlen in *.
      simplify_eq. nia.
Qed.

Lemma compare_app_same_length a : forall b s t,
  String.length a = String.length b ->
  String.compare (a +:+ s) (b +:+ t)
  = match String.compare a b with Eq => String.compare s t | c => c end.
Proof.
  induction a as [|x a IH]; intros [|y b] s t Hlen; try done.
  rewrite !app_cons. cbn [String.compare]. cbn [String.length] in Hlen.
  destruct (Ascii.compare x y); [| done | done]. apply IH. lia.
Qed.

Lemma compare_refl s : String.compare s s = Eq.
Proof.
  induction s as [|c s IH]; [done |]. cbn [String.compare].
  unfold Ascii.compare. by rewrite N.compare_refl.
Qed.

Lemma pad_num_compare w (a b : Z) k :
  0 <= a -> a < b -> b < 10 ^ Z.of_nat (S k) -> (S k <= w)%nat ->
  String.compare (pad_num w a) (pad_num w b) = Lt.
Proof.
  intros Ha Hab Hb Hw.
  destruct (pad_num_spec w a) as (Hva & Hda & _ & Hla); [lia |].
  destruct (pad_num_spec w b) as (Hvb & Hdb & _ & Hlb); [lia |].
  assert (pad_num w a ≠ EmptyString /\ pad_num w b ≠ EmptyString) as [Hna Hnb].
  { specialize (Hla k). specialize (Hlb k).
    split; intros Hnil; [rewrite Hnil in Hla | rewrite Hnil in Hlb]; cbn in *; lia. }
  rewrite digits_value_go in Hva, Hvb by done.
  eapply (compare_digits_lt _ _ 0%N); try done; [| lia].
  rewrite (Hla k), (Hlb k); [done | lia | lia | lia | lia].
Qed.

(** An earlier day has the smaller text. *)
Lemma fmt_date_lt a b :
  valid_day a -> valid_day b -> day_lt a b -> text_lt (fmt_date a) (fmt_date b).
Proof.
  destruct a as [[y1 m1] d1], b as [[y2 m2] d2].
  intros (Hy1 & Hm1 & Hd1) (Hy2 & Hm2 & Hd2) Hlt.
  pose proof (days_in_month_pos y1 m1). pose proof (days_in_month_pos y2 m2).
  assert (forall y, 0 <= y <= 9999 -> String.length (pad_num 4 y) = 4%nat) as Hlen4.
  { intros y Hy. destruct (pad_num_spec 4 y) as (_ & _ & _ & Hl); [lia |].
    apply (Hl 3%nat); [change (10 ^ Z.of_nat 4) with 10000 |]; lia. }
  assert (forall m, 0 <= m <= 99 -> String.length (pad_num 2 m) = 2%nat) as Hlen2.
  { intros m Hm. destruct (pad_num_spec 2 m) as (_ & _ & _ & Hl); [lia |].
    apply (Hl 1%nat); [change (10 ^ Z.of_nat 2) with 100 |]; lia. }
  unfold text_lt, String.ltb, fmt_date.
  rewrite compare_app_same_length by (rewrite !Hlen4; lia).
  destruct Hlt as [Hy | (-> & Hlt)].
  { rewrite (pad_num_compare 4 y1 y2 3); [done | lia | lia | | lia].
    change (10 ^ Z.of_nat 4) with 10000. lia. }
  rewrite compare_refl.
  change ("-" +:+ ?x) with (String "-" x). cbn [String.compare].
  change (Ascii.compare "-" "-") with Eq. cbn match.
  rewrite compare_app_same_length by (rewrite !Hlen2; lia).
  destruct Hlt as [Hm | (-> & Hd)].
  { rewrite (pad_num_compare 2 m1 m2 1); [done | lia | lia | | lia].
    change (10 ^ Z.of_nat 2) with 100. lia. }
  rewrite compare_refl.
  change ("-" +:+ ?x) with (String "-" x). cbn [String.compare].
  change (Ascii.compare "-" "-") with Eq. cbn match.
  rewrite (pad_num_compare 2 d1 d2 1); [done | lia | lia | | lia].
  change (10 ^ Z.of_nat 2) with 100. lia.
Qed.

(** ** Day keys and their dates *)

Lemma dec_of_Z_digits z : 0 <= z -> all_chars is_digit (dec_of_Z z) = true.
Proof.
  intros Hz. rewrite dec_of_Z_nonneg by done.
  by destruct (dec_of_N_spec (Z.to_N z)) as (_ & Hd & _).
Qed.

Lemma dec_of_Z_no_dash z : 0 <= z -> has_char dash (dec_of_Z z) = false.
Proof.
  intros Hz. apply has_char_digits; [apply digit_not_dash | by apply dec_of_Z_digits].
Qed.

Lemma dec_of_Z_four_digits y : 1000 <= y <= 9999 -> String.length (dec_of_Z y) = 4%nat.
Proof.
  intros Hy. rewrite dec_of_Z_nonneg by lia.
  destruct (dec_of_N_spec (Z.to_N y)) as (_ & _ & _ & Hlt & Hge).
  set (len := String.length (dec_of_N (Z.to_N y))) in *.
  assert (10 ^ 3 < 10 ^ N.of_nat len)%N as H3.
  { change (10 ^ 3)%N with 1000%N. lia. }
  apply N.pow_lt_mono_r_iff in H3; [| lia].
  destruct Hge as [H1 | Hge]; [lia |].
  assert (10 ^ N.of_nat (len - 1) < 10 ^ 4)%N as H4.
  { change (10 ^ 4)%N with 10000%N. lia. }
  apply N.pow_lt_mono_r_iff in H4; lia.
Qed.

Lemma pad_num_four_digits y : 1000 <= y <= 9999 -> pad_num 4 y = dec_of_Z y.
Proof.
  intros Hy. unfold pad_num, padStart0. by rewrite dec_of_Z_four_digits.
Qed.

Lemma split_dateKey y m d :
  0 <= y -> 0 <= m -> 0 <= d ->
  split "-" (dateKey (y, m, d)) = [dec_of_Z y; dec_of_Z m; dec_of_Z d].
Proof.
  intros Hy Hm Hd. unfold dateKey.
  change "-" with (str1 dash). rewrite !str1_app.
  rewrite split1_app_sep by by apply dec_of_Z_no_dash.
  rewrite split1_app_sep by by apply dec_of_Z_no_dash.
  by rewrite split1_no_char by by apply dec_of_Z_no_dash.
Qed.

Lemma valid_day_nonneg y m d : valid_day (y, m, d) -> 0 <= y /\ 0 <= m /\ 0 <= d.
Proof. intros (? & ? & ?). lia. Qed.

Lemma merge_entry_date opened closed k :
  valid_day k -> e_date (merge_entry opened closed (dateKey k)) = fmt_date k.
Proof.
  destruct k as [[y m] d]. intros Hk.
  destruct (valid_day_nonneg _ _ _ Hk) as (Hy & Hm & Hd). destruct Hk as (Hy4 & _).
  unfold merge_entry. rewrite split_dateKey by done.
  cbn [e_date lookup list_lookup piece default from_option]. unfold Datatypes.id.
  unfold fmt_date. by rewrite pad_num_four_digits.
Qed.

Lemma split_fmt_date y m d :
  0 <= y -> 0 <= m -> 0 <= d ->
  split "-" (fmt_date (y, m, d)) = [pad_num 4 y; pad_num 2 m; pad_num 2 d].
Proof.
  intros Hy Hm Hd. unfold fmt_date.
  destruct (pad_num_spec 4 y Hy) as (_ & Hyd & _).
  destruct (pad_num_spec 2 m Hm) as (_ & Hmd & _).
  destruct (pad_num_spec 2 d Hd) as (_ & Hdd & _).
  change "-" with (str1 dash). rewrite !str1_app.
  rewrite split1_app_sep by (by apply has_char_digits; [apply digit_not_dash |]).
  rewrite split1_app_sep by (by apply has_char_digits; [apply digit_not_dash |]).
  by rewrite split1_no_char by (by apply has_char_digits; [apply digit_not_dash |]).
Qed.

(** The text of a day parses to the midnight of that day. *)
Lemma date_parse_fmt k :
  valid_day k -> date_parse (fmt_date k) = Some (day_number k * msPerDay).
Proof.
  destruct k as [[y m] d]. intros Hk.
  destruct (valid_day_nonneg _ _ _ Hk) as (Hy & Hm & Hd).
  destruct Hk as (Hy4 & Hm12 & Hdm).
  pose proof (days_in_month_pos y m) as Hdim.
  unfold date_parse. rewrite split_fmt_date by done.
  destruct (pad_num_spec 4 y Hy) as (Hyv & _ & _ & Hyl).
  destruct (pad_num_spec 2 m Hm) as (Hmv & _ & _ & Hml).
  destruct (pad_num_spec 2 d Hd) as (Hdv & _ & _ & Hdl).
  rewrite (Hyl 3%nat), (Hml 1%nat), (Hdl 1%nat);
    [| first [lia | change (10 ^ Z.of_nat 2) with 100; lia
              | change (10 ^ Z.of_nat 4) with 10000; lia] ..].
  cbn [Nat.eqb andb]. rewrite Hyv, Hmv, Hdv. rewrite !Z2N.id by lia.
  destruct (Z.leb_spec 1 m); [| lia]. destruct (Z.leb_spec m 12); [| lia].
  destruct (Z.leb_spec 1 d); [| lia]. destruct (Z.leb_spec d (days_in_month y m)); [| lia].
  reflexivity.
Qed.

Lemma fmt_date_inj a b : valid_day a -> valid_day b -> fmt_date a = fmt_date b -> a = b.
Proof.
  intros Ha Hb Heq.
  assert (day_number a = day_number b) as Hnum.
  { pose proof (date_parse_fmt a Ha) as H1. pose proof (date_parse_fmt b Hb) as H2.
    rewrite Heq, H2 in H1. injection H1. unfold msPerDay. lia. }
  destruct (day_trichotomy a b) as [Hlt | [-> | Hlt]]; [| done |].
  - pose proof (day_number_lt a b Ha Hb Hlt). lia.
  - pose proof (day_number_lt b a Hb Ha Hlt). lia.
Qed.

(** ** Groups and sets *)

Lemma tally_keys {K} `{EqDecision K} (k : K) (acc : list (K * nat)) x :
  x ∈ (tally k acc).*1 <-> x = k \/ x ∈ acc.*1.
Proof.
  induction acc as [|[k' n] acc IH].
  - cbn. rewrite list_elem_of_singleton. set_solver.
  - cbn [tally]. destruct (decide (k = k')) as [-> | Hne].
    + cbn [fmap list_fmap fst]. rewrite elem_of_cons. naive_solver.
    + cbn [fmap list_fmap fst]. rewrite !elem_of_cons, IH. naive_solver.
Qed.

Lemma tally_NoDup {K} `{EqDecision K} (k : K) (acc : list (K * nat)) :
  NoDup acc.*1 -> NoDup (tally k acc).*1.
Proof.
  induction acc as [|[k' n] acc IH]; intros Hnd.
  - cbn. apply NoDup_singleton.
  - cbn [tally]. destruct (decide (k = k')) as [-> | Hne]; [done |].
    cbn [fmap list_fmap fst] in *. apply NoDup_cons in Hnd as [Hk' Hnd].
    apply NoDup_cons. split; [| by apply IH].
    rewrite tally_keys. naive_solver.
Qed.

Lemma group_count_keys {K} `{EqDecision K} (keys : list K) :
  NoDup (group_count keys).*1 /\ forall x, x ∈ (group_count keys).*1 <-> x ∈ keys.
Proof.
  unfold group_count.
  assert (forall acc : list (K * nat),
            NoDup acc.*1 ->
            NoDup (foldl (fun a k => tally k a) acc keys).*1
            /\ forall x, x ∈ (foldl (fun a k => tally k a) acc keys).*1
                         <-> x ∈ acc.*1 \/ x ∈ keys) as Hgen.
  { induction keys as [|k keys IH]; intros acc Hnd.
    - cbn. split; [done |]. set_solver.
    - cbn [foldl]. destruct (IH (tally k acc) (tally_NoDup k acc Hnd)) as [H1 H2].
      split; [done |]. intros x. rewrite H2, tally_keys, elem_of_cons. naive_solver. }
  destruct (Hgen [] (NoDup_nil_2)) as [H1 H2]. split; [done |].
  intros x. rewrite H2. set_solver.
Qed.

Lemma set_of_list_spec (l : list string) :
  NoDup (set_of_list l) /\ forall x, x ∈ set_of_list l <-> x ∈ l.
Proof.
  unfold set_of_list. split.
  - rewrite reverse_Permutation. apply NoDup_remove_dups.
  - intros x. by rewrite reverse_Permutation, elem_of_remove_dups, reverse_Permutation.
Qed.

Lemma sorted_groups_keys (groups : list ((Z * Z * Z) * nat)) x :
  x ∈ (merge_sort group_le groups).*1 <-> x ∈ groups.*1.
Proof. by rewrite (merge_sort_Permutation group_le groups). Qed.

Lemma opened_keys mt docs x :
  x ∈ (ticketsOpenedOverTime mt docs).*1 <-> x ∈ opened_days mt docs.
Proof.
  unfold ticketsOpenedOverTime. rewrite sorted_groups_keys.
  apply (proj2 (group_count_keys _)).
Qed.

Lemma closed_keys mt docs x :
  x ∈ (ticketsClosedOverTime mt docs).*1 <-> x ∈ closed_days mt docs.
Proof.
  unfold ticketsClosedOverTime. rewrite sorted_groups_keys.
  apply (proj2 (group_count_keys _)).
Qed.

Lemma days_valid mt docs k :
  Forall dated docs -> k ∈ opened_days mt docs ++ closed_days mt docs -> valid_day k.
Proof.
  intros Hall. rewrite Forall_forall in Hall.
  unfold opened_days, closed_days.
  intros [Hin | Hin]%elem_of_app;
    apply list_elem_of_fmap in Hin as (d & -> & Hd%list_elem_of_filter);
    destruct Hd as [_ Hd]; by destruct (Hall d Hd).
Qed.

(** ** The merged series *)

#[local] Instance entry_le_total : Total entry_le.
Proof.
  intros a b. unfold entry_le, date_cmp.
  destruct (date_parse (e_date a)), (date_parse (e_date b)); lia.
Qed.

Lemma sorted_dates (l : list day_entry) :
  Sorted entry_le l ->
  NoDup (map e_date l) ->
  Forall (fun x => exists k, valid_day k /\ e_date x = fmt_date k) l ->
  Sorted text_lt (map e_date l).
Proof.
  induction 1 as [|a l Hsorted IH Hhd]; intros Hnd Hall; [constructor |].
  cbn [map] in *. apply NoDup_cons in Hnd as [Ha Hnd].
  apply Forall_cons in Hall as [(ka & Hka & Hda) Hall].
  constructor; [by apply IH |].
  destruct Hhd as [|b l' Hab]; [constructor |]. cbn [map]. constructor.
  apply Forall_cons in Hall as [(kb & Hkb & Hdb) _].
  unfold entry_le, date_cmp in Hab.
  rewrite Hda, Hdb, !date_parse_fmt in Hab by done.
  rewrite Hda, Hdb.
  destruct (day_trichotomy ka kb) as [Hlt | [-> | Hlt]].
  - by apply fmt_date_lt.
  - exfalso. apply Ha. cbn [map]. rewrite Hda, Hdb. apply list_elem_of_here.
  - pose proof (day_number_lt kb ka Hkb Hka Hlt). unfold msPerDay in Hab. lia.
Qed.

Lemma merged_series mt docs :
  Forall dated docs ->
  let days := opened_days mt docs ++ closed_days mt docs in
  let dates := map e_date (ticketsOverTime (aggregate mt docs)) in
  (forall s, s ∈ dates <-> exists k, k ∈ days /\ s = fmt_date k)
  /\ NoDup dates
  /\ Sorted text_lt dates.
Proof.
  intros Hall days dates.
  set (opened := ticketsOpenedOverTime mt docs).
  set (closed := ticketsClosedOverTime mt docs).
  set (allDates := set_of_list (map (fun g => dateKey g.1) opened
                                ++ map (fun g => dateKey g.1) closed)).
  set (entries := map (merge_entry opened closed) allDates).
  assert (dates = map e_date (merge_sort entry_le entries)) as Hdates by reflexivity.
  destruct (set_of_list_spec (map (fun g => dateKey g.1) opened
                              ++ map (fun g => dateKey g.1) closed)) as [Hnd Hset].
  fold allDates in Hnd, Hset.
  assert (forall s, s ∈ allDates <-> exists k, k ∈ days /\ s = dateKey k) as Hkeys.
  { intros s. rewrite Hset, elem_of_app, !list_elem_of_fmap. unfold days. split.
    - intros [([k n] & -> & Hin) | ([k n] & -> & Hin)]; exists k; (split; [| done]);
        apply elem_of_app; [left; apply opened_keys | right; apply closed_keys];
        apply list_elem_of_fmap; by exists (k, n).
    - intros (k & [Hin | Hin]%elem_of_app & ->).
      + apply opened_keys, list_elem_of_fmap in Hin as ([k' n] & -> & Hin).
        left. by exists (k', n).
      + apply closed_keys, list_elem_of_fmap in Hin as ([k' n] & -> & Hin).
        right. by exists (k', n). }
  assert (forall s, s ∈ allDates ->
            exists k, k ∈ days /\ valid_day k /\ s = dateKey k
                      /\ e_date (merge_entry opened closed s) = fmt_date k) as Hentry.
  { intros s (k & Hk & ->)%Hkeys. exists k.
    assert (valid_day k) by by eapply days_valid.
    split_and!; try done. by apply merge_entry_date. }
  assert (map e_date entries ≡ₚ dates) as Hperm.
  { rewrite Hdates. by rewrite (merge_sort_Permutation entry_le entries). }
  assert (forall s, s ∈ map e_date entries <-> exists k, k ∈ days /\ s = fmt_date k) as Hmem.
  { intros s. unfold entries. rewrite map_map, list_elem_of_fmap. split.
    - intros (key & -> & (k & Hk & _ & _ & Hd)%Hentry). by exists k.
    - intros (k & Hk & ->). exists (dateKey k).
      assert (dateKey k ∈ allDates) as Hin by (apply Hkeys; by exists k).
      split; [| done]. symmetry. apply merge_entry_date. by eapply days_valid. }
  assert (NoDup (map e_date entries)) as Hnd'.
  { unfold entries. rewrite map_map. apply NoDup_fmap_2_strong; [| done].
    intros s1 s2 (k1 & _ & Hv1 & -> & Hd1)%Hentry (k2 & _ & Hv2 & -> & Hd2)%Hentry Heq.
    rewrite Hd1, Hd2 in Heq. by rewrite (fmt_date_inj k1 k2 Hv1 Hv2 Heq). }
  split_and!.
  - intros s. by rewrite <- Hperm.
  - by rewrite <- Hperm.
  - rewrite Hdates. apply sorted_dates.
    + apply Sorted_merge_sort, _.
    + rewrite <- Hdates. by rewrite <- Hperm.
    + apply Forall_forall. intros x Hx.
      rewrite (merge_sort_Permutation entry_le entries) in Hx.
      apply list_elem_of_fmap in Hx as (s & -> & (k & _ & Hv & _ & Hd)%Hentry).
      by exists k.
Qed.

Section series.
Context `{Runtime}.

(** C7. For every filter the store accepts and every set of tickets whose
    dates are calendar days of four-digit years, the dates of
    ticketsOverTime are exactly the days on which a ticket of the filtered
    set was opened or a closed ticket of the set was closed (by its
    closedAt, or its createdAt when it has none), written YYYY-MM-DD with
    zeros; no date comes twice, and the dates ascend in the order of their
    texts. *)
Theorem tickets_over_time_days (q : stats_query) (st : store) (r : stats_result) :
  stats true q st = Ok r ->
  Forall dated (tickets_db st) ->
  exists mt,
    build_match q = Some mt
    /\ let days := opened_days mt (tickets_db st) ++ closed_days mt (tickets_db st) in
       let dates := map e_date (ticketsOverTime r) in
       (forall s, s ∈ dates <-> exists k, k ∈ days /\ s = fmt_date k)
       /\ NoDup dates
       /\ Sorted text_lt dates.
Proof.
  unfold stats. destruct (build_match q) as [mt|]; [| done].
  intros [= <-] Hall. exists mt. split; [done |]. by apply merged_series.
Qed.
End series.

Lemma tickets_over_time_days_witness :
  map e_date (ticketsOverTime series_stats) = ["2024-12-30"; "2025-01-07"; "2025-02-03"]
  /\ NoDup (map e_date (ticketsOverTime series_stats))
  /\ Sorted text_lt (map e_date (ticketsOverTime series_stats)).
Proof.
  destruct (tickets_over_time_days (H := utc_runtime) all_time series_store series_stats)
    as (mt & _ & _ & Hnd & Hsorted).
  - reflexivity.
  - repeat constructor; vm_compute; discriminate.
  - split; [vm_compute; reflexivity |]. split; [exact Hnd | exact Hsorted].
Defined.
(** ** Groups and their counts *)

Lemma filter_none {A} (P : A -> Prop) `{forall x, Decision (P x)} (l : list A) :
  Forall (fun x => ~ P x) l -> filter P l = [].
Proof.
  induction 1 as [|x l Hx _ IH]; [done |]. by rewrite filter_cons_False.
Qed.

Lemma filter_all {A} (P : A -> Prop) `{forall x, Decision (P x)} (l : list A) :
  Forall P l -> filter P l = l.
Proof.
  induction 1 as [|x l Hx _ IH]; [done |]. by rewrite filter_cons_True, IH.
Qed.

Lemma tally_sum {K} `{EqDecision K} (k : K) (acc : list (K * nat)) :
  sum_counts (tally k acc) = S (sum_counts acc).
Proof.
  induction acc as [|[k' n] acc IH]; [done |]. cbn [tally].
  destruct (decide (k = k')); cbn [sum_counts foldr snd] in *; [lia |].
  unfold sum_counts in IH. rewrite IH. lia.
Qed.

Lemma group_count_sum {K} `{EqDecision K} (keys : list K) :
  sum_counts (group_count keys) = length keys.
Proof.
  unfold group_count. induction keys as [|k keys IH] using rev_ind; [done |].
  rewrite foldl_app, length_app. cbn [foldl length]. rewrite tally_sum, IH. lia.
Qed.

Lemma tally_count {K} `{EqDecision K} (k k' : K) (acc : list (K * nat)) :
  sum_counts (filter (fun g => g.1 = k') (tally k acc))
  = ((if decide (k = k') then 1 else 0) + sum_counts (filter (fun g => g.1 = k') acc))%nat.
Proof.
  induction acc as [|[k0 n] acc IH].
  - cbn [tally]. rewrite filter_cons, filter_nil. cbn [fst].
    by destruct (decide (k = k')).
  - cbn [tally]. destruct (decide (k = k0)) as [-> | Hne].
    + rewrite !filter_cons. cbn [fst]. destruct (decide (k0 = k')); [| done].
      cbn [sum_counts foldr snd]. lia.
    + rewrite !filter_cons. cbn [fst]. destruct (decide (k0 = k')) as [-> | Hne'].
      * cbn [sum_counts foldr snd] in *. unfold sum_counts in IH. rewrite IH. lia.
      * apply IH.
Qed.

Lemma group_count_count {K} `{EqDecision K} (keys : list K) k :
  sum_counts (filter (fun g => g.1 = k) (group_count keys))
  = length (filter (fun x => x = k) keys).
Proof.
  unfold group_count. induction keys as [|x keys IH] using rev_ind; [done |].
  rewrite foldl_app. cbn [foldl]. rewrite tally_count, IH.
  rewrite filter_app, length_app, filter_cons, filter_nil.
  destruct (decide (x = k)); cbn [length]; lia.
Qed.







Lemma count_where_disjoint p a b docs :
  (forall d, a d = true -> b d = true -> False) ->
  (count_where (fun d => p d && a d) docs + count_where (fun d => p d && b d) docs
   <= count_where p docs)%nat.
Proof.
  intros Hab. unfold count_where. induction docs as [|d docs IH]; [done |].
  rewrite !filter_cons. pose proof (Hab d) as Hd.
  destruct (p d), (a d), (b d); cbn [andb]; repeat case_decide; try done;
    cbn [length]; try lia; by exfalso; apply Hd.
Qed.

Lemma top_group_fold (a : jsval * nat) (groups : list (jsval * nat)) top :
  top = foldl (fun a b => if (b.2 <? a.2)%nat then a else b) a groups ->
  (top = a /\ Forall (fun g => (g.2 < a.2)%nat) groups)
  \/ exists before after,
       groups = before ++ top :: after
       /\ (a.2 <= top.2)%nat
       /\ Forall (fun g => (g.2 <= top.2)%nat) before
       /\ Forall (fun g => (g.2 < top.2)%nat) after.
Proof.
  revert top. induction groups as [|x groups IH] using rev_ind; intros top ->; [by left |].
  rewrite foldl_app. cbn [foldl].
  specialize (IH _ eq_refl).
  set (top' := foldl _ a groups) in *.
  destruct (Nat.ltb_spec x.2 top'.2) as [Hlt | Hge].
  - destruct IH as [[Htop Hall] | (before & after & Heq & Ha & Hb & Haf)].
    + left. split; [done |]. apply Forall_app. split; [done |].
      constructor; [| done]. by rewrite <- Htop.
    + right. exists before, (after ++ [x]). split_and!; try done.
      * rewrite Heq at 1. by rewrite <- app_assoc.
      * apply Forall_app. split; [done |]. by constructor.
  - right. exists groups, []. split; [done |].
    destruct IH as [[Htop Hall] | (before & after & Heq & Ha & Hb & Haf)].
    + rewrite Htop in Hge. split_and!; [done | | done].
      eapply Forall_impl; [exact Hall |]. cbn. intros g Hg. lia.
    + split_and!; [lia | | done]. rewrite Heq. apply Forall_app. split.
      * eapply Forall_impl; [exact Hb |]. cbn. intros g Hg. lia.
      * constructor; [done |]. eapply Forall_impl; [exact Haf |]. cbn. intros g Hg. lia.
Qed.

Lemma split_month_text (y m : string) :
  has_char dash y = false -> has_char dash m = false ->
  split "-" (y +:+ "-" +:+ m) = [y; m].
Proof.
  intros Hy Hm. change "-" with (str1 dash). rewrite str1_app.
  rewrite split1_app_sep by done. by rewrite split1_no_char.
Qed.

Section filters.
Context `{Runtime}.

Lemma build_match_month (y m : Z) week year :
  0 <= y -> 0 <= m ->
  exists mt,
    build_match (mkQuery (Some (pad_num 4 y +:+ "-" +:+ pad_num 2 m)) week year) = Some mt
    /\ forall d,
         mt d = bool_decide (dt_year (createdAt d) = y /\ dt_month (createdAt d) = m).
Proof.
  intros Hy Hm.
  destruct (pad_num_spec 4 y) as (_ & Hyd & _); [lia |].
  destruct (pad_num_spec 2 m) as (_ & Hmd & _); [lia |].
  unfold build_match. cbn [q_month given].
  assert (nonempty (pad_num 4 y +:+ "-" +:+ pad_num 2 m) = true) as ->.
  { unfold pad_num, padStart0. destruct (repeat_char _ _ +:+ _) eqn:He; [| done].
    by rewrite app_nil_l. }
  rewrite split_month_text by (by apply has_char_digits; [apply digit_not_dash |]).
  unfold number_part. cbn [lookup list_lookup mbind option_bind].
  rewrite !js_number_pad by lia.
  eexists. split; [reflexivity |]. intros d. cbn beta.
  destruct (decide (dt_year (createdAt d) = y)) as [<- | Hne].
  - rewrite bool_decide_eq_true_2 by done. cbn [andb].
    apply bool_decide_ext. naive_solver.
  - rewrite (bool_decide_eq_false_2 (Some _ = Some y)) by congruence. cbn [andb].
    symmetry. apply bool_decide_eq_false_2. tauto.
Qed.

End filters.

Section stats_groups.
Context `{Runtime}.


(** X2. [GET /stats]: in each of the three groupings the counts add up to
    [totalTickets]. *)
Theorem stats_groups_add_up (up : bool) (q : stats_query) (st : store) (r : stats_result) :
  stats up q st = Ok r ->
  sum_counts (byStatus r) = totalTickets r
  /\ sum_counts (byCategory r) = totalTickets r
  /\ sum_counts (byPriority r) = totalTickets r.
Proof.
  unfold stats. destruct up; [| done].
  destruct (build_match q) as [mt|]; [| done].
  intros [= <-]. cbn [aggregate totalTickets byStatus byCategory byPriority].
  unfold group_field, count_where.
  by rewrite !group_count_sum, !length_map.
Qed.

(** X3. [GET /stats]: no ticket is counted both as breached and as on
    time, so the two SLA counts together never exceed [totalTickets]. *)
Theorem stats_sla_counts_within_total (up : bool) (q : stats_query) (st : store)
    (r : stats_result) :
  stats up q st = Ok r ->
  (sla_breached r + sla_onTime r <= totalTickets r)%nat.
Proof.
  unfold stats. destruct up; [| done].
  destruct (build_match q) as [mt|]; [| done].
  intros [= <-]. cbn [aggregate totalTickets sla_breached sla_onTime].
  apply count_where_disjoint. intros d Ha Hb. unfold matches_any in *.
  apply bool_decide_eq_true in Ha, Hb.
  unfold sla_breached_values, sla_onTime_values in *.
  repeat (apply elem_of_cons in Ha as [Ha | Ha];
          [rewrite Ha in Hb;
           repeat (apply elem_of_cons in Hb as [Hb | Hb]; [done |]);
           by apply elem_of_nil in Hb |]).
  by apply elem_of_nil in Ha.
Qed.

(** X5. A month filter YYYY-MM selects the tickets created in that month of
    that year, in UTC, whatever week and year the query names beside it:
    the total and the three groupings count exactly these tickets. *)
Theorem month_filter_selects_utc_month (y m : Z) (week year : option string) (st : store) :
  0 <= y -> 0 <= m ->
  let month := pad_num 4 y +:+ "-" +:+ pad_num 2 m in
  let selected :=
    filter (fun d => dt_year (createdAt d) = y /\ dt_month (createdAt d) = m)
           (tickets_db st) in
  exists r,
    stats true (mkQuery (Some month) week year) st = Ok r
    /\ totalTickets r = length selected
    /\ byStatus r = group_count (map (fun d => get (fields d) "status") selected)
    /\ byCategory r = group_count (map (fun d => get (fields d) "category") selected)
    /\ byPriority r = group_count (map (fun d => get (fields d) "priority") selected).
Proof.
  intros Hy Hm month selected.
  destruct (build_match_month y m week year Hy Hm) as (mt & Hmt & Hspec).
  unfold stats. fold month in Hmt. rewrite Hmt.
  eexists. split; [reflexivity |].
  assert (filter (fun d => mt d = true) (tickets_db st) = selected) as Hsel.
  { unfold selected. apply list_filter_iff. intros d.
    by rewrite Hspec, bool_decide_eq_true. }
  cbn [aggregate totalTickets byStatus byCategory byPriority].
  unfold count_where, group_field. by rewrite Hsel.
Qed.

(** X6. With no month and no week, a year filter of digits selects the
    tickets created in that year, in UTC. *)
Theorem year_filter_selects_utc_year (y : Z) (st : store) :
  0 <= y ->
  let selected := filter (fun d => dt_year (createdAt d) = y) (tickets_db st) in
  exists r,
    stats true (mkQuery None None (Some (pad_num 4 y))) st = Ok r
    /\ totalTickets r = length selected
    /\ byStatus r = group_count (map (fun d => get (fields d) "status") selected)
    /\ byCategory r = group_count (map (fun d => get (fields d) "category") selected)
    /\ byPriority r = group_count (map (fun d => get (fields d) "priority") selected).
Proof.
  intros Hy selected. unfold stats, build_match. cbn [q_month q_week q_year given].
  assert (nonempty (pad_num 4 y) = true) as ->.
  { destruct (pad_num_spec 4 y Hy) as (_ & _ & Hlen & _).
    destruct (pad_num 4 y); [cbn in Hlen; lia | done]. }
  eexists. split; [reflexivity |].
  assert (filter (fun d => bool_decide (Some (dt_year (createdAt d)) = js_number (pad_num 4 y))
                           = true) (tickets_db st) = selected) as Hsel.
  { unfold selected. apply list_filter_iff. intros d.
    rewrite js_number_pad by done. rewrite bool_decide_eq_true. naive_solver. }
  cbn [aggregate totalTickets byStatus byCategory byPriority].
  unfold count_where, group_field. by rewrite Hsel.
Qed.

End stats_groups.

(** X4. The top group of the analytics is the last of the groups with the
    largest count: no group before it has more, every group after it has
    less. With no group at all it is the placeholder N/A. *)
Theorem top_group_is_last_maximum (groups : list (jsval * nat)) :
  match groups with
  | [] => top_group groups = (VStr "N/A", O)
  | _ =>
      exists before after,
        groups = before ++ top_group groups :: after
        /\ Forall (fun g => (g.2 <= (top_group groups).2)%nat) before
        /\ Forall (fun g => (g.2 < (top_group groups).2)%nat) after
  end.
Proof.
  destruct groups as [|g groups]; [done |].
  destruct (top_group_fold (VStr "N/A", O) (g :: groups) (top_group (g :: groups)) eq_refl)
    as [[_ Hall] | (before & after & Heq & _ & Hb & Ha)].
  - apply Forall_cons in Hall as [Hg _]. cbn in Hg. lia.
  - by exists before, after.
Qed.


Lemma stats_groups_add_up_witness :
  sum_counts (byStatus series_stats) = totalTickets series_stats
  /\ sum_counts (byCategory series_stats) = totalTickets series_stats
  /\ sum_counts (byPriority series_stats) = totalTickets series_stats.
Proof.
  apply (stats_groups_add_up (H := utc_runtime) true all_time series_store series_stats).
  reflexivity.
Defined.

Lemma stats_sla_counts_within_total_witness :
  (sla_breached series_stats + sla_onTime series_stats <= totalTickets series_stats)%nat.
Proof.
  apply (stats_sla_counts_within_total (H := utc_runtime) true all_time series_store
           series_stats).
  reflexivity.
Defined.

Lemma month_filter_selects_utc_month_witness :
  exists r,
    stats (H := utc_runtime) true (mkQuery (Some "2025-01") (Some "2025-W40") None)
      series_store = Ok r
    /\ totalTickets r = 2%nat.
Proof.
  destruct (month_filter_selects_utc_month (H := utc_runtime) 2025 1 (Some "2025-W40") None
              series_store) as (r & Hr & Htotal & _); [lia | lia |].
  exists r. split; [exact Hr | exact Htotal].
Defined.

Lemma year_filter_selects_utc_year_witness :
  exists r,
    stats (H := utc_runtime) true (mkQuery None None (Some "2024")) series_store = Ok r
    /\ totalTickets r = 1%nat.
Proof.
  destruct (year_filter_selects_utc_year (H := utc_runtime) 2024 series_store)
    as (r & Hr & Htotal & _); [lia |].
  exists r. split; [exact Hr | exact Htotal].
Defined.

(** ** Counts of the merged series *)

Lemma js_number_dec z : 0 <= z -> js_number (dec_of_Z z) = Some z.
Proof.
  intros Hz. pose proof (js_number_pad 0 z Hz) as Hpad.
  unfold pad_num, padStart0 in Hpad. cbn [Nat.sub repeat_char] in Hpad.
  by rewrite app_nil_l in Hpad.
Qed.

Lemma sum_counts_Permutation {K} (l1 l2 : list (K * nat)) :
  l1 ≡ₚ l2 -> sum_counts l1 = sum_counts l2.
Proof.
  unfold sum_counts. induction 1 as [| x l1 l2 _ IH | x y l | l1 l2 l3 _ IH1 _ IH2];
    cbn [foldr]; [done | by rewrite IH | lia | by rewrite IH1].
Qed.

Lemma loose_eq_dec n z : 0 <= z -> loose_eq n (Some (dec_of_Z z)) = bool_decide (n = z).
Proof.
  intros Hz. unfold loose_eq. rewrite js_number_dec by done.
  apply bool_decide_ext. naive_solver.
Qed.

Lemma find_group_count (y m d : Z) (groups : list ((Z * Z * Z) * nat)) :
  0 <= y -> 0 <= m -> 0 <= d -> NoDup groups.*1 ->
  default O (snd <$> find_group (Some (dec_of_Z y)) (Some (dec_of_Z m)) (Some (dec_of_Z d))
                       groups)
  = sum_counts (filter (fun g => g.1 = (y, m, d)) groups).
Proof.
  intros Hy Hm Hd. unfold find_group.
  set (P := fun g : Z * Z * Z * nat => _ = true).
  assert (forall g, P g <-> g.1 = (y, m, d)) as HP.
  { intros [[[y' m'] d'] n]. unfold P. cbn [fst snd].
    rewrite !loose_eq_dec by done. rewrite !andb_true_iff, !bool_decide_eq_true.
    naive_solver. }
  induction groups as [|g groups IH]; [done |].
  cbn [fmap list_fmap]. intros [Hk Hnd]%NoDup_cons.
  cbn [list_find]. rewrite filter_cons.
  destruct (decide (g.1 = (y, m, d))) as [Heq | Hne].
  - rewrite decide_True by by apply HP.
    cbn [fmap option_fmap option_map snd default from_option sum_counts foldr].
    rewrite filter_none; [cbn; lia |].
    apply Forall_forall. intros g1 Hin1 Heq1.
    apply Hk, list_elem_of_fmap. exists g1. split; [congruence | done].
  - rewrite decide_False by by rewrite HP.
    rewrite <- (IH Hnd). by destruct (list_find P groups) as [[i g']|].
Qed.

Lemma sorted_group_count (keys : list (Z * Z * Z)) k :
  NoDup (merge_sort group_le (group_count keys)).*1
  /\ sum_counts (filter (fun g => g.1 = k) (merge_sort group_le (group_count keys)))
     = occurrences k keys.
Proof.
  split.
  - rewrite (merge_sort_Permutation group_le (group_count keys)). apply group_count_keys.
  - rewrite (sum_counts_Permutation _ (filter (fun g => g.1 = k) (group_count keys))).
    + apply group_count_count.
    + by rewrite (merge_sort_Permutation group_le (group_count keys)).
Qed.

Lemma merge_entry_counts mt docs k :
  valid_day k ->
  merge_entry (ticketsOpenedOverTime mt docs) (ticketsClosedOverTime mt docs) (dateKey k)
  = mkEntry (fmt_date k) (occurrences k (opened_days mt docs))
            (occurrences k (closed_days mt docs)).
Proof.
  intros Hk.
  pose proof (merge_entry_date (ticketsOpenedOverTime mt docs)
                (ticketsClosedOverTime mt docs) k Hk) as Hdate.
  destruct k as [[y m] d].
  destruct (valid_day_nonneg _ _ _ Hk) as (Hy & Hm & Hd).
  unfold merge_entry in *. rewrite split_dateKey in * by done.
  cbn [lookup list_lookup] in *. cbn [e_date] in Hdate. rewrite Hdate.
  unfold ticketsOpenedOverTime, ticketsClosedOverTime.
  destruct (sorted_group_count
              (map (fun d => ymd (createdAt d)) (filter (fun d => mt d = true) docs))
              (y, m, d)) as [Hnd1 Hc1].
  destruct (sorted_group_count
              (map (fun d => ymd (closed_instant d))
                   (filter (fun d => mt d && is_closed d = true) docs))
              (y, m, d)) as [Hnd2 Hc2].
  rewrite !find_group_count by done. by rewrite Hc1, Hc2.
Qed.

Section series_counts.
Context `{Runtime}.

(** X7. [ticketsOverTime] holds, for every day on which a selected ticket
    was opened or a selected closed ticket was closed, the number of
    selected tickets opened that day and the number of selected closed
    tickets closed that day (by [closedAt], or [createdAt] without it), and
    nothing else. *)
Theorem tickets_over_time_counts (q : stats_query) (st : store) (r : stats_result) :
  stats true q st = Ok r ->
  Forall dated (tickets_db st) ->
  exists mt,
    build_match q = Some mt
    /\ let opened := opened_days mt (tickets_db st) in
       let closed := closed_days mt (tickets_db st) in
       forall e,
         e ∈ ticketsOverTime r
         <-> exists k,
               k ∈ opened ++ closed
               /\ e = mkEntry (fmt_date k) (occurrences k opened) (occurrences k closed).
Proof.
  unfold stats. destruct (build_match q) as [mt|]; [| done].
  intros [= <-] Hall. exists mt. split; [done |]. cbv zeta. intros e.
  set (opened := opened_days mt (tickets_db st)).
  set (closed := closed_days mt (tickets_db st)).
  cbn [aggregate ticketsOverTime]. unfold mergedOverTime.
  rewrite merge_sort_Permutation, list_elem_of_fmap.
  assert (forall s, s ∈ set_of_list
              (map (fun g => dateKey g.1) (ticketsOpenedOverTime mt (tickets_db st))
               ++ map (fun g => dateKey g.1) (ticketsClosedOverTime mt (tickets_db st)))
            <-> exists k, k ∈ opened ++ closed /\ s = dateKey k) as Hkeys.
  { intros s. rewrite (proj2 (set_of_list_spec _)), elem_of_app, !list_elem_of_fmap. split.
    - intros [([k n] & -> & Hin) | ([k n] & -> & Hin)]; exists k; (split; [| done]);
        apply elem_of_app; [left; apply opened_keys | right; apply closed_keys];
        apply list_elem_of_fmap; by exists (k, n).
    - intros (k & [Hin | Hin]%elem_of_app & ->).
      + apply opened_keys, list_elem_of_fmap in Hin as ([k' n] & -> & Hin).
        left. by exists (k', n).
      + apply closed_keys, list_elem_of_fmap in Hin as ([k' n] & -> & Hin).
        right. by exists (k', n). }
  split.
  - intros (s & -> & (k & Hk & ->)%Hkeys). exists k. split; [done |].
    apply merge_entry_counts. by eapply days_valid.
  - intros (k & Hk & ->). exists (dateKey k). split.
    + symmetry. apply merge_entry_counts. by eapply days_valid.
    + apply Hkeys. by exists k.
Qed.

End series_counts.

Lemma tickets_over_time_counts_witness :
  mkEntry "2025-01-07" 2 0 ∈ ticketsOverTime series_stats
  /\ mkEntry "2025-02-03" 0 1 ∈ ticketsOverTime series_stats.
Proof.
  destruct (tickets_over_time_counts (H := utc_runtime) all_time series_store series_stats)
    as (mt & Hmt & Hspec).
  - reflexivity.
  - repeat constructor; vm_compute; discriminate.
  - injection Hmt as <-. split; apply Hspec.
    + exists (2025, 1, 7). split; [by_eval | vm_compute; reflexivity].
    + exists (2025, 2, 3). split; [by_eval | vm_compute; reflexivity].
Defined.

(** ** Files of the handlers, read back *)

Lemma has_char_app c a b : has_char c (a +:+ b) = has_char c a || has_char c b.
Proof.
  induction a as [|x a IH]; [by rewrite app_nil_l |].
  rewrite app_cons. cbn [has_char]. by rewrite IH, orb_assoc.
Qed.

Lemma has_char_join c sep (l : list string) :
  has_char c sep = false -> Forall (fun s => has_char c s = false) l ->
  has_char c (join sep l) = false.
Proof.
  intros Hsep. induction 1 as [|x l Hx Hl IH]; [done |].
  destruct l as [|y l]; [done |]. rewrite join_cons2, !has_char_app.
  by rewrite Hx, Hsep, IH.
Qed.

Lemma has_char_remove_quotes c s :
  has_char c s = false -> has_char c (remove_quotes s) = false.
Proof.
  induction s as [|a s IH]; [done |]. cbn [has_char remove_quotes].
  intros [Ha Hs]%orb_false_iff. destruct (is_dquote a); [by apply IH |].
  cbn [has_char]. by rewrite Ha, IH.
Qed.

Lemma remove_quotes_no_quote s : has_char dquote (remove_quotes s) = false.
Proof.
  induction s as [|a s IH]; [done |]. cbn [remove_quotes].
  destruct (is_dquote a) eqn:Ha; [done |]. cbn [has_char]. rewrite IH, orb_false_r.
  unfold is_dquote in Ha. by rewrite Ascii.eqb_sym.
Qed.

Lemma remove_quotes_plain s : has_char dquote s = false -> remove_quotes s = s.
Proof.
  induction s as [|a s IH]; [done |]. cbn [has_char remove_quotes].
  intros [Ha Hs]%orb_false_iff. unfold is_dquote. rewrite Ascii.eqb_sym, Ha. by rewrite IH.
Qed.

Lemma double_quotes_plain s : has_char dquote s = false -> double_quotes s = s.
Proof.
  induction s as [|a s IH]; [done |]. cbn [has_char double_quotes].
  intros [Ha Hs]%orb_false_iff. unfold is_dquote. rewrite Ascii.eqb_sym, Ha. by rewrite IH.
Qed.

Lemma has_char_double_quotes c s :
  Ascii.eqb c dquote = false -> has_char c s = false -> has_char c (double_quotes s) = false.
Proof.
  intros Hc. induction s as [|a s IH]; [done |]. cbn [has_char double_quotes].
  intros [Ha Hs]%orb_false_iff. destruct (is_dquote a); cbn [has_char]; by rewrite ?Hc, ?Ha, IH.
Qed.

Lemma cons_head_Forall (P : string -> Prop) a l :
  (forall s, P s -> P (String a s)) -> P (str1 a) -> Forall P l -> Forall P (cons_head a l).
Proof.
  intros Hcons Hone [|x l' Hx Hl]; cbn [cons_head]; constructor; auto.
Qed.

Lemma split1_pieces c x s :
  (has_char x s = false \/ x = c) ->
  Forall (fun p => has_char x p = false) (split (str1 c) s).
Proof.
  induction s as [|a s IH]; intros Hx; [by repeat constructor |].
  rewrite split1_cons. destruct (Ascii.eqb_spec c a) as [<- | Hne].
  - constructor; [done |]. apply IH. destruct Hx as [Hx | ->]; [| by right].
    cbn [has_char] in Hx. apply orb_false_iff in Hx as [_ Hx]. by left.
  - assert (Ascii.eqb x a = false) as Hxa.
    { destruct Hx as [Hx | ->].
      - cbn [has_char] in Hx. by apply orb_false_iff in Hx as [Hx _].
      - by apply Ascii.eqb_neq. }
    apply cons_head_Forall.
    + intros p Hp. cbn [has_char]. by rewrite Hxa, Hp.
    + cbn. by rewrite Hxa.
    + apply IH. destruct Hx as [Hx | ->]; [| by right].
      cbn [has_char] in Hx. apply orb_false_iff in Hx as [_ Hx]. by left.
Qed.

Lemma parse_header_cells hl :
  parse_header hl ≠ []
  /\ Forall (fun h => has_char dquote h = false /\ has_char comma h = false) (parse_header hl)
  /\ (no_newline hl -> Forall no_newline (parse_header hl)).
Proof.
  unfold parse_header. change "," with (str1 comma). split_and!.
  - destruct (split1_nonempty comma hl) as (l0 & rest & ->). done.
  - apply Forall_fmap. eapply Forall_impl; [apply (split1_pieces comma comma); by right |].
    cbn. intros p Hp. split; [apply remove_quotes_no_quote | by apply has_char_remove_quotes].
  - intros Hnl. apply Forall_fmap.
    eapply Forall_impl; [apply (split1_pieces comma newline); by left |].
    cbn. intros p Hp. by apply has_char_remove_quotes.
Qed.

Lemma quoted_header_written (header : list string) :
  Forall (fun h => has_char dquote h = false) header ->
  quoted_header header = join "," (map csvEscape (map VStr header)).
Proof.
  intros Hall. unfold quoted_header. f_equal. rewrite map_map.
  apply Forall_fmap_ext_1. eapply Forall_impl; [exact Hall |]. cbn beta.
  intros h Hh. rewrite csvEscape_unfold.
  assert (cell_text (VStr h) = h) as ->.
  { unfold cell_text, js_or, truthy. destruct h; done. }
  by rewrite double_quotes_plain.
Qed.

Lemma remove_quotes_app a b : remove_quotes (a +:+ b) = remove_quotes a +:+ remove_quotes b.
Proof.
  induction a as [|x a IH]; [by rewrite !app_nil_l |].
  rewrite app_cons. cbn [remove_quotes]. destruct (is_dquote x); [done |].
  by rewrite app_cons, IH.
Qed.

Lemma parse_quoted_header (header : list string) :
  header ≠ [] ->
  Forall (fun h => has_char dquote h = false /\ has_char comma h = false) header ->
  parse_header (quoted_header header) = header.
Proof.
  intros Hne Hall. unfold parse_header, quoted_header. change "," with (str1 comma).
  rewrite split1_join.
  - rewrite map_map. rewrite <- (map_id header) at 2.
    apply Forall_fmap_ext_1. eapply Forall_impl; [exact Hall |]. cbn beta.
    intros h [Hq _]. cbn [remove_quotes]. change (is_dquote dquote) with true. cbn match.
    rewrite remove_quotes_app, remove_quotes_plain by done.
    change (remove_quotes (str1 dquote)) with EmptyString.
    by rewrite append_nil_r.
  - by destruct header.
  - apply Forall_fmap. eapply Forall_impl; [exact Hall |]. cbn beta.
    intros h [_ Hc]. unfold compose. cbn [has_char]. by rewrite has_char_app, Hc.
Qed.

Lemma trim_lines_solid (l : list string) :
  Forall ends_solid l -> trim_lines (l ++ [EmptyString]) = l.
Proof.
  induction 1 as [|x l [Hx Hne] Hl IH]; [done |].
  change ((x :: l) ++ [EmptyString]) with (x :: (l ++ [EmptyString])).
  rewrite trim_lines_cons, IH, Hx. destruct l; [| done]. by destruct x.
Qed.

Lemma file_lines_csv_file hl rows :
  wf_csv hl rows -> file_lines (csv_file hl rows) = (hl, rows).
Proof.
  intros (Hstart & Hend & Hnl & Hsolid). unfold file_lines, trim.
  rewrite trim_start_solid.
  2:{ unfold csv_file. destruct rows; cbn [join]; rewrite ?join_cons2;
      repeat apply starts_solid_app; done. }
  rewrite (proj2 (split_trim_end _)), csv_file_lines by done.
  change (hl :: rows ++ [EmptyString]) with ((hl :: rows) ++ [EmptyString]).
  rewrite trim_lines_solid; [done |]. by constructor.
Qed.

Lemma join_snoc sep (l : list string) x :
  l ≠ [] -> join sep (l ++ [x]) = join sep l +:+ sep +:+ x.
Proof.
  induction l as [|y l IH]; [done |]. intros _. destruct l as [|z l]; [done |].
  change ((y :: z :: l) ++ [x]) with (y :: z :: (l ++ [x])).
  rewrite !(join_cons2 sep y).
  change (z :: l ++ [x]) with ((z :: l) ++ [x]). rewrite IH by done.
  by rewrite !append_assoc.
Qed.

Lemma csv_file_snoc hl rows line :
  csv_file hl rows +:+ (line +:+ str1 newline) = csv_file hl (rows ++ [line]).
Proof.
  unfold csv_file. change (hl :: rows ++ [line]) with ((hl :: rows) ++ [line]).
  rewrite join_snoc by done. by rewrite !append_assoc.
Qed.

(** ** [DELETE /:id] *)

Lemma quoted_header_wf hl rows :
  wf_csv hl [] -> Forall no_newline rows -> Forall ends_solid rows ->
  wf_csv (quoted_header (parse_header hl)) rows.
Proof.
  intros (_ & _ & Hnl & _) Hrows Hsolid.
  apply Forall_cons in Hnl as [Hnl _].
  destruct (parse_header_cells hl) as (Hne & Hcells & Hlines).
  assert (Forall (fun h => has_char dquote h = false) (parse_header hl)) as Hq.
  { eapply Forall_impl; [exact Hcells |]. by intros h [? _]. }
  split_and!; [| | | done].
  - unfold quoted_header. destruct (parse_header hl) as [|h [|h' l]]; done.
  - rewrite quoted_header_written by done. apply written_row_ends_solid.
    by destruct (parse_header hl).
  - constructor; [| done]. unfold no_newline, quoted_header.
    apply has_char_join; [done |]. apply Forall_fmap.
    eapply Forall_impl; [exact (Hlines Hnl) |]. cbn beta. unfold compose, no_newline.
    intros h Hh. cbn [has_char]. by rewrite has_char_app, Hh.
Qed.

Lemma find_doc_none id docs :
  VStr id ∉ map doc_id docs -> find_doc id docs = None.
Proof.
  induction docs as [|d docs IH]; [done |]. cbn [map find_doc].
  intros [Hd Hrest]%not_elem_of_cons. unfold has_id.
  rewrite bool_decide_eq_false_2 by done. by apply IH.
Qed.

Lemma delete_first_ids id docs :
  NoDup (map doc_id docs) ->
  NoDup (map doc_id (delete_first id docs)) /\ VStr id ∉ map doc_id (delete_first id docs).
Proof.
  induction docs as [|d docs IH]; [by split; [constructor | apply not_elem_of_nil] |].
  cbn [map delete_first]. intros [Hd Hnd]%NoDup_cons.
  destruct (has_id id d) eqn:Hid.
  - apply bool_decide_eq_true in Hid. split; [done |]. by rewrite <- Hid.
  - apply bool_decide_eq_false in Hid. destruct (IH Hnd) as [IH1 IH2].
    assert (forall x, x ∈ map doc_id (delete_first id docs) -> x ∈ map doc_id docs) as Hsub.
    { clear. induction docs as [|d' docs IH]; [done |]. cbn [map delete_first].
      intros x. destruct (has_id id d'); [by right |].
      cbn [map]. intros [-> | Hin]%elem_of_cons; [by left | right; by apply IH]. }
    cbn [map]. split.
    + apply NoDup_cons. split; [| done]. intros Hin. by apply Hd, Hsub.
    + apply not_elem_of_cons. split; [congruence | done].
Qed.

Lemma find_line_none id rows :
  Forall (fun line => line_has_id id line = false) rows -> find_line id rows = None.
Proof. induction 1 as [|line rows Hline _ IH]; [done |]. cbn [find_line]. by rewrite Hline. Qed.

Lemma filter_keeps_all {A} (P : A -> Prop) `{forall x, Decision (P x)} (l : list A) :
  length (filter P l) = length l -> Forall P l.
Proof.
  induction l as [|x l IH]; [done |]. rewrite filter_cons.
  destruct (decide (P x)) as [Hx | Hx]; cbn [length].
  - intros [= Hlen]. constructor; auto.
  - pose proof (length_filter P l). lia.
Qed.

Lemma filter_drops_some {A} (P : A -> Prop) `{forall x, Decision (P x)} (l : list A) :
  Exists (fun x => ~ P x) l -> (length (filter P l) =? length l)%nat = false.
Proof.
  intros Hex. apply Nat.eqb_neq. intros Hlen. apply filter_keeps_all in Hlen.
  apply Exists_exists in Hex as (x & Hin & Hx). rewrite Forall_forall in Hlen. by apply Hx, Hlen.
Qed.

Lemma filter_fmap_comm {A B} (f : A -> B) (P : B -> Prop) `{forall x, Decision (P x)}
    (l : list A) :
  map f (filter (fun x => P (f x)) l) = filter P (map f l).
Proof.
  induction l as [|x l IH]; [done |]. cbn [map]. rewrite !filter_cons.
  destruct (decide (P (f x))); cbn [map]; by rewrite IH.
Qed.

Section delete.
Context `{Runtime}.

Lemma delete_found (up : bool) now id body st hl rows :
  wf_csv hl rows ->
  tickets_file st = Some (csv_file hl rows) ->
  Exists (fun line => line_has_id id line = true) rows ->
  delete_ticket up now id body st
  = (mkStore (if up then delete_first id (tickets_db st) else tickets_db st)
       (or_unchanged
          (history_save up
             (mkHistory (VStr id) now "delete" "{}" (or_empty (get body "editor")))
             (history_db st))
          (history_db st))
       (Some (csv_file (quoted_header (parse_header hl))
                (filter (fun line => line_has_id id line = false) rows)))
       (append_file (history_file st)
          (csv_line [VStr id; VStr (toISOString now); VStr "delete"; VStr "{}";
                     or_empty (get body "editor")])),
     RJson (<["message" := VStr ("Ticket " +:+ id +:+ " deleted.")]>
              {["success" := VBool true]})).
Proof.
  intros Hwf Hfile Hex. unfold delete_ticket. rewrite Hfile, (file_lines_csv_file _ _ Hwf).
  rewrite filter_drops_some; [done |].
  eapply Exists_impl; [exact Hex |]. cbn beta. intros line ->. done.
Qed.

(** X8. Deleting a ticket whose id is in the CSV mirror answers success
    and rewrites the mirror without the rows of that id: the other rows
    stay as they were and in their order, the header is written in quotes,
    and the file can be read again line by line. *)
Theorem delete_removes_rows_of_id (up : bool) (now : datetime) (id : string)
    (body : gmap string jsval) (st : store) (hl : string) (rows : list string) :
  wf_csv hl rows ->
  tickets_file st = Some (csv_file hl rows) ->
  Exists (fun line => line_has_id id line = true) rows ->
  let st' := (delete_ticket up now id body st).1 in
  let remaining := filter (fun line => line_has_id id line = false) rows in
  (delete_ticket up now id body st).2
  = RJson (<["message" := VStr ("Ticket " +:+ id +:+ " deleted.")]>
             {["success" := VBool true]})
  /\ tickets_file st' = Some (csv_file (quoted_header (parse_header hl)) remaining)
  /\ wf_csv (quoted_header (parse_header hl)) remaining
  /\ parse_header (quoted_header (parse_header hl)) = parse_header hl
  /\ csv_ids st' = filter (fun v => v ≠ VStr id) (csv_ids st).
Proof.
  intros Hwf Hfile Hex st' remaining. unfold st'.
  rewrite (delete_found up now id body st hl rows Hwf Hfile Hex). cbn [fst snd tickets_file].
  destruct Hwf as (Hstart & Hend & Hnl & Hsolid).
  assert (wf_csv (quoted_header (parse_header hl)) remaining) as Hwf'.
  { apply Forall_cons in Hnl as [Hnl Hrows].
    apply quoted_header_wf.
    - split_and!; try done. by repeat constructor.
    - unfold remaining. rewrite Forall_forall in Hrows |- *.
      intros line [_ Hin]%list_elem_of_filter. by apply Hrows.
    - unfold remaining. rewrite Forall_forall in Hsolid |- *.
      intros line [_ Hin]%list_elem_of_filter. by apply Hsolid. }
  destruct (parse_header_cells hl) as (Hne & Hcells & _).
  split_and!; try done.
  - by apply parse_quoted_header.
  - unfold csv_ids. cbn [tickets_file]. rewrite Hfile. fold remaining.
    rewrite (file_lines_csv_file _ _ Hwf').
    rewrite (file_lines_csv_file hl rows) by by split_and!.
    cbn [snd]. rewrite <- filter_fmap_comm. f_equal. unfold remaining.
    apply list_filter_iff. intros line. unfold line_has_id.
    rewrite bool_decide_eq_false. done.
Qed.

(** X9. After a ticket was deleted while the Record Store answered, it can
    be read neither from the store nor from the CSV mirror: [GET /:id]
    answers 404, whether the store answers then or not. *)
Theorem delete_then_get_is_404 (up' : bool) (now : datetime) (id : string)
    (body : gmap string jsval) (st : store) (hl : string) (rows : list string) :
  wf_csv hl rows ->
  tickets_file st = Some (csv_file hl rows) ->
  Exists (fun line => line_has_id id line = true) rows ->
  NoDup (db_ids st) ->
  id ≠ "stats" ->
  get_one up' id (delete_ticket true now id body st).1 = RError 404 "Ticket not found".
Proof.
  intros Hwf Hfile Hex Hnd _.
  rewrite (delete_found true now id body st hl rows Hwf Hfile Hex). cbn [fst].
  unfold get_one. cbn [tickets_db tickets_file].
  destruct (delete_first_ids id (tickets_db st) Hnd) as [_ Hid].
  rewrite (find_doc_none _ _ Hid). cbn [mbind option_bind].
  assert ((if up' then None else None) = @None (gmap string jsval)) as -> by by destruct up'.
  rewrite file_lines_csv_file.
  - rewrite find_line_none; [done |].
    apply Forall_forall. by intros line [Hline _]%list_elem_of_filter.
  - destruct Hwf as (Hstart & Hend & Hnl & Hsolid).
    apply Forall_cons in Hnl as [Hnl Hrows].
    apply quoted_header_wf.
    + split_and!; try done. by repeat constructor.
    + rewrite Forall_forall in Hrows |- *.
      intros line [_ Hin]%list_elem_of_filter. by apply Hrows.
    + rewrite Forall_forall in Hsolid |- *.
      intros line [_ Hin]%list_elem_of_filter. by apply Hsolid.
Qed.

(** X10. Deleting an id that no row of the CSV mirror carries answers 404
    and leaves the mirror and the history as they were, but the document
    of that id is gone from the Record Store when the store answered. *)
Theorem delete_unknown_row_drops_document (up : bool) (now : datetime) (id : string)
    (body : gmap string jsval) (st : store) (content : string) :
  tickets_file st = Some content ->
  Forall (fun line => line_has_id id line = false) (file_lines content).2 ->
  NoDup (db_ids st) ->
  let st' := (delete_ticket up now id body st).1 in
  (delete_ticket up now id body st).2 = RError 404 "Ticket not found"
  /\ tickets_file st' = tickets_file st
  /\ history_file st' = history_file st
  /\ history_db st' = history_db st
  /\ (up = true -> find_doc id (tickets_db st') = None)
  /\ (up = false -> tickets_db st' = tickets_db st).
Proof.
  intros Hfile Hall Hnd. unfold delete_ticket. rewrite Hfile.
  destruct (file_lines content) as [hl rows]. cbn [snd] in Hall.
  rewrite (filter_all _ rows Hall), Nat.eqb_refl. cbn [fst snd tickets_file history_file
    history_db tickets_db].
  split_and!; try done.
  - intros ->. apply find_doc_none. by apply delete_first_ids.
  - by intros ->.
Qed.

End delete.

(** X11. The header line that the update and the delete handler write (every
    name in quotes) reads back as the header that was read, and both
    handlers write the same line. *)
Theorem header_survives_rewrite (hl : string) :
  let header := parse_header hl in
  parse_header (quoted_header header) = header
  /\ join "," (map (fun h => csvEscape (VStr h)) header) = quoted_header header.
Proof.
  cbv zeta. destruct (parse_header_cells hl) as (Hne & Hcells & _). split.
  - by apply parse_quoted_header.
  - rewrite quoted_header_written; [by rewrite map_map |].
    eapply Forall_impl; [exact Hcells |]. by intros h [? _].
Qed.

Lemma two_ticket_file :
  wf_csv (join "," TICKETS_HEADER) two_ticket_rows
  /\ tickets_file two_ticket_store = Some (csv_file (join "," TICKETS_HEADER) two_ticket_rows).
Proof.
  split; [| vm_compute; reflexivity].
  split_and!.
  - vm_compute. reflexivity.
  - split; [vm_compute; reflexivity | discriminate].
  - unfold no_newline. by_eval.
  - unfold ends_solid. by_eval.
Qed.

Lemma delete_removes_rows_of_id_witness :
  csv_ids (delete_ticket (H := utc_runtime) false example_later example_id ∅
             two_ticket_store).1
  = [VStr second_id].
Proof.
  destruct two_ticket_file as [Hwf Hfile].
  destruct (delete_removes_rows_of_id (H := utc_runtime) false example_later example_id ∅
              two_ticket_store _ _ Hwf Hfile) as (_ & _ & _ & _ & Hids).
  - by_eval.
  - rewrite Hids. vm_compute. reflexivity.
Defined.

Lemma delete_then_get_is_404_witness :
  get_one (H := utc_runtime) true example_id
    (delete_ticket (H := utc_runtime) true example_later example_id ∅ two_ticket_store).1
  = RError 404 "Ticket not found".
Proof.
  destruct two_ticket_file as [Hwf Hfile].
  apply (delete_then_get_is_404 (H := utc_runtime) true example_later example_id ∅
           two_ticket_store _ _ Hwf Hfile).
  - by_eval.
  - by_eval.
  - discriminate.
Defined.

Lemma delete_unknown_row_drops_document_witness :
  (delete_ticket (H := utc_runtime) true example_later second_id ∅
     (mkStore (tickets_db two_ticket_store) [] (tickets_file example_store) None)).2
  = RError 404 "Ticket not found"
  /\ find_doc second_id
       (tickets_db (delete_ticket (H := utc_runtime) true example_later second_id ∅
          (mkStore (tickets_db two_ticket_store) [] (tickets_file example_store) None)).1)
     = None.
Proof.
  destruct (delete_unknown_row_drops_document (H := utc_runtime) true example_later second_id ∅
              (mkStore (tickets_db two_ticket_store) [] (tickets_file example_store) None)
              (default EmptyString (tickets_file example_store)))
    as (Hresp & _ & _ & _ & Hdb & _).
  - vm_compute. reflexivity.
  - by_eval.
  - by_eval.
  - split; [exact Hresp | by apply Hdb].
Defined.

(** ** Invariants of the Record Store *)

Lemma split_names_clean s : Forall (fun n => clean_name n = true) (split_names s).
Proof.
  unfold split_names. apply Forall_forall. intros n [Hn Hin]%list_elem_of_filter.
  unfold clean_name. rewrite Hn. cbn [andb]. apply negb_true_iff.
  pose proof (split1_pieces semicolon semicolon s (or_intror eq_refl)) as Hall.
  rewrite Forall_forall in Hall. by apply Hall.
Qed.

Lemma update_first_ids id d' docs :
  doc_id d' = VStr id -> map doc_id (update_first id d' docs) = map doc_id docs.
Proof.
  intros Hd'. induction docs as [|d docs IH]; [done |]. cbn [update_first map].
  destruct (has_id id d) eqn:Hid.
  - apply bool_decide_eq_true in Hid. cbn [map]. by rewrite Hd', Hid.
  - cbn [map]. by rewrite IH.
Qed.

Lemma delete_first_Forall (P : ticket_doc -> Prop) id docs :
  Forall P docs -> Forall P (delete_first id docs).
Proof.
  induction 1 as [|d docs Hd Hdocs IH]; [done |]. cbn [delete_first].
  destruct (has_id id d); [done | by constructor].
Qed.

Section store_invariants.
Context `{Runtime}.

Lemma put_tickets_db up now id body files st :
  tickets_db (put up now id body files st).1 = put_db up now id body files (tickets_db st).
Proof.
  unfold put. destruct (tickets_file st) as [content|]; [| done].
  destruct (file_lines content) as [hl rows].
  by destruct (negb (existsb (line_has_id id) rows)).
Qed.

Lemma delete_tickets_db up now id body st :
  tickets_db (delete_ticket up now id body st).1
  = if up then delete_first id (tickets_db st) else tickets_db st.
Proof.
  unfold delete_ticket. destruct (tickets_file st) as [content|]; [| done].
  destruct (file_lines content) as [hl rows].
  by destruct (_ =? _)%nat.
Qed.

Lemma put_db_ids up now id body files docs :
  map doc_id (put_db up now id body files docs) = map doc_id docs.
Proof.
  unfold put_db. destruct up; [| done].
  destruct (find_doc id docs) as [doc|] eqn:Hfind; [| done].
  destruct (apply_update now body files doc) as [doc'|] eqn:Hup; [| done].
  apply update_first_ids. rewrite (apply_update_keeps_id _ _ _ _ _ Hup).
  apply find_doc_has_id in Hfind. by apply bool_decide_eq_true in Hfind.
Qed.

(** X12. An update never changes the ticket ids of the Record Store, not
    even when the body names another [ticket_id]; a delete only removes
    one. With ids that are unique before, they are unique after both. *)
Theorem update_and_delete_keep_store_ids (up : bool) (now : datetime) (id : string)
    (body : gmap string jsval) (files : list string) (st : store) :
  db_ids (put up now id body files st).1 = db_ids st
  /\ db_ids (delete_ticket up now id body st).1 ⊆ db_ids st
  /\ (NoDup (db_ids st) -> NoDup (db_ids (delete_ticket up now id body st).1)).
Proof.
  unfold db_ids. rewrite put_tickets_db, delete_tickets_db, put_db_ids.
  split_and!; [done | |].
  - destruct up; [| done]. intros x.
    induction (tickets_db st) as [|d docs IH]; [done |]. cbn [map delete_first].
    destruct (has_id id d); [by right |].
    cbn [map]. intros [-> | Hin]%elem_of_cons; [by left | right; by apply IH].
  - intros Hnd. destruct up; [| done]. by apply delete_first_ids.
Qed.

Lemma post_attachments_clean up now body files st :
  Forall attachments_clean (tickets_db st) ->
  Forall attachments_clean (tickets_db (post up now body files st).1).
Proof.
  intros Hall. rewrite post_tickets_db.
  pose proof (ticket_save_cases up now
    (create_doc_fields now (post_ticket_id up now body st) body (join ";" files))
    (tickets_db st)) as Hcases.
  destruct (ticket_save _ _ _ _) as [docs' | e]; [| done].
  destruct Hcases as (_ & _ & ->). cbn [or_unchanged].
  apply Forall_app. split; [done |]. apply Forall_singleton.
  unfold attachments_clean, create_doc_fields, get. cbn [fields].
  erewrite assign_all_lookup_in; [| by_eval |].
  2:{ do 20 apply list_elem_of_further. apply list_elem_of_here. }
  cbn [default from_option]. unfold Datatypes.id, attachments_array.
  destruct (nonempty (join ";" files)).
  - eexists. split; [done |]. apply split_names_clean.
  - exists []. by split.
Qed.

Lemma put_attachments_clean up now id body files st :
  Forall attachments_clean (tickets_db st) ->
  Forall attachments_clean (tickets_db (put up now id body files st).1).
Proof.
  intros Hall. rewrite put_tickets_db.
  unfold put_db. destruct up; [| done].
  destruct (find_doc id (tickets_db st)) as [doc|] eqn:Hfind; [| done].
  destruct (apply_update now body files doc) as [doc'|] eqn:Hup; [| done].
  apply update_first_Forall; [| done].
  apply apply_update_Some in Hup as (fn & _ & Hf & _).
  assert (attachments_clean doc) as (l & Hl & Hclean).
  { rewrite Forall_forall in Hall. apply Hall. by eapply find_doc_elem_of. }
  unfold attachments_clean, get. rewrite Hf.
  erewrite updateObj_lookup.
  2:{ unfold updateObj. do 19 apply list_elem_of_further. apply list_elem_of_here. }
  cbn [default from_option]. unfold Datatypes.id, attachments_array.
  destruct (nonempty fn).
  - eexists. split; [done |]. apply split_names_clean.
  - exists l. fold (get (fields doc) "attachments"). rewrite Hl. by split.
Qed.

(** X13. In every document the create handler stores, [attachments] is an
    array of names that are not empty and hold no semicolon; the update
    and the delete handler keep the documents of the store that way. *)
Theorem handlers_keep_attachments_clean (up : bool) (now : datetime) (id : string)
    (body : gmap string jsval) (files : list string) (st : store) :
  Forall attachments_clean (tickets_db st) ->
  Forall attachments_clean (tickets_db (post up now body files st).1)
  /\ Forall attachments_clean (tickets_db (put up now id body files st).1)
  /\ Forall attachments_clean (tickets_db (delete_ticket up now id body st).1).
Proof.
  intros Hall. split_and!.
  - by apply post_attachments_clean.
  - by apply put_attachments_clean.
  - rewrite delete_tickets_db. destruct up; [| done]. by apply delete_first_Forall.
Qed.

End store_invariants.

(** ** Listing the store, and the history *)

#[local] Instance newer_first_total : Total newer_first.
Proof. intros a b. unfold newer_first. lia. Qed.

#[local] Instance newer_first_trans : Transitive newer_first.
Proof. intros a b c. unfold newer_first. lia. Qed.

Lemma history_save_prefix up e hs :
  hs `prefix_of` or_unchanged (history_save up e hs) hs.
Proof.
  unfold history_save. destruct (negb up); [done |].
  destruct (negb (required_ok (h_ticket_id e))); [done |].
  cbn [or_unchanged]. by apply prefix_app_r.
Qed.

Lemma append_file_grows file text :
  default EmptyString (append_file file text) = default EmptyString file +:+ text.
Proof. done. Qed.

Lemma get_assign_all_in o kvs k v :
  NoDup kvs.*1 -> (k, v) ∈ kvs -> get (assign_all o kvs) k = v.
Proof. intros Hnd Hin. unfold get. by rewrite (assign_all_lookup_in o kvs k v Hnd Hin). Qed.

Section reading.
Context `{Runtime}.

Lemma ticket_of_doc_clean d :
  attachments_clean d ->
  exists t l,
    ticket_of_doc d = Some t
    /\ get t "ticket_id" = doc_id d
    /\ get (fields d) "attachments" = VArr l
    /\ get t "attachments" = VArr (map uploads_url l).
Proof.
  intros (l & Hl & _). unfold ticket_of_doc. rewrite Hl.
  cbn [doc_attachment_urls mbind option_bind]. eexists _, l. split; [reflexivity |].
  split_and!; [| done |].
  - apply get_assign_all_in; [by_eval | apply list_elem_of_here].
  - apply get_assign_all_in; [by_eval |].
    do 20 apply list_elem_of_further. apply list_elem_of_here.
Qed.

Lemma tickets_of_clean_docs docs :
  Forall attachments_clean docs ->
  exists tickets,
    Forall2 (fun d t =>
               ticket_of_doc d = Some t
               /\ get t "ticket_id" = doc_id d
               /\ exists l, get (fields d) "attachments" = VArr l
                            /\ get t "attachments" = VArr (map uploads_url l))
            docs tickets.
Proof.
  induction 1 as [|d docs Hd _ [ts IH]]; [by exists nil |].
  destruct (ticket_of_doc_clean d Hd) as (t & l & Ht & Hid & Hl & Hurls).
  exists (t :: ts). constructor; [| done]. split_and!; try done. by exists l.
Qed.

(** X14. With a Record Store that answers and holds documents, [GET /]
    lists exactly the documents of the store, the newest first, each with
    its ticket id and with one upload URL for every attachment; the CSV
    mirror is not read. *)
Theorem get_all_lists_store_newest_first (st : store) :
  tickets_db st ≠ [] ->
  Forall attachments_clean (tickets_db st) ->
  exists docs tickets,
    get_all true st = RList tickets
    /\ docs ≡ₚ tickets_db st
    /\ StronglySorted newer_first docs
    /\ Forall2 (fun d t =>
                  ticket_of_doc d = Some t
                  /\ get t "ticket_id" = doc_id d
                  /\ exists l, get (fields d) "attachments" = VArr l
                               /\ get t "attachments" = VArr (map uploads_url l))
               docs tickets
    /\ forall tfile hfile,
         get_all true (mkStore (tickets_db st) (history_db st) tfile hfile) = RList tickets.
Proof.
  intros Hne Hclean.
  pose proof (merge_sort_Permutation newer_first (tickets_db st)) as Hperm.
  pose proof (StronglySorted_merge_sort newer_first (tickets_db st)) as Hsorted.
  assert (Forall attachments_clean (merge_sort newer_first (tickets_db st))) as Hclean'
    by by rewrite Hperm.
  destruct (tickets_of_clean_docs _ Hclean') as [tickets Htickets].
  assert (mapM ticket_of_doc (merge_sort newer_first (tickets_db st)) = Some tickets) as HmapM.
  { apply mapM_Some. eapply Forall2_impl; [exact Htickets |]. by intros d t [? _]. }
  assert (forall tfile hfile,
            get_all true (mkStore (tickets_db st) (history_db st) tfile hfile) = RList tickets)
    as Hany.
  { intros tfile hfile. unfold get_all. cbn [tickets_db].
    destruct (merge_sort newer_first (tickets_db st)) as [|d docs] eqn:Hsort.
    - exfalso. apply Hne. symmetry. by apply Permutation_nil_l.
    - by rewrite HmapM. }
  exists (merge_sort newer_first (tickets_db st)), tickets. split_and!; try done.
  destruct st as [tdb hdb tf hf]. apply Hany.
Qed.

(** X15. No handler removes or rewrites history: after a create, an update
    or a delete, the history collection starts with the entries it had and
    the history file starts with the text it had. *)
Theorem history_is_append_only (up : bool) (now : datetime) (id : string)
    (body : gmap string jsval) (files : list string) (st : store) :
  let grows (st' : store) :=
    history_db st `prefix_of` history_db st'
    /\ exists text,
         default EmptyString (history_file st')
         = default EmptyString (history_file st) +:+ text in
  grows (post up now body files st).1
  /\ grows (put up now id body files st).1
  /\ grows (delete_ticket up now id body st).1.
Proof.
  cbv zeta. split; [| split].
  - unfold post. cbn [fst history_db history_file]. split; [apply history_save_prefix |].
    eexists. apply append_file_grows.
  - unfold put. destruct (tickets_file st) as [content|].
    2:{ cbn [fst history_db history_file]. split; [done |]. exists EmptyString.
        by rewrite append_nil_r. }
    destruct (file_lines content) as [hl rows].
    destruct (negb (existsb (line_has_id id) rows)); cbn [fst history_db history_file].
    + split; [done |]. exists EmptyString. by rewrite append_nil_r.
    + split; [apply history_save_prefix |]. eexists. apply append_file_grows.
  - unfold delete_ticket. destruct (tickets_file st) as [content|].
    2:{ cbn [fst history_db history_file]. split; [done |]. exists EmptyString.
        by rewrite append_nil_r. }
    destruct (file_lines content) as [hl rows].
    destruct (_ =? _)%nat; cbn [fst history_db history_file].
    + split; [done |]. exists EmptyString. by rewrite append_nil_r.
    + split; [apply history_save_prefix |]. eexists. apply append_file_grows.
Qed.

End reading.

Lemma update_and_delete_keep_store_ids_witness :
  db_ids (put (H := utc_runtime) true example_later example_id
            {["ticket_id" := VStr "OTHER"]} [] two_ticket_store).1
  = [VStr example_id; VStr second_id]
  /\ NoDup (db_ids (delete_ticket (H := utc_runtime) true example_later example_id ∅
                      two_ticket_store).1).
Proof.
  destruct (update_and_delete_keep_store_ids (H := utc_runtime) true example_later example_id
              {["ticket_id" := VStr "OTHER"]} [] two_ticket_store) as (Hput & _ & _).
  destruct (update_and_delete_keep_store_ids (H := utc_runtime) true example_later example_id
              ∅ [] two_ticket_store) as (_ & _ & Hdel).
  split.
  - rewrite Hput. vm_compute. reflexivity.
  - apply Hdel. by_eval.
Defined.

Lemma handlers_keep_attachments_clean_witness :
  Forall attachments_clean (tickets_db example_store).
Proof.
  destruct (handlers_keep_attachments_clean (H := utc_runtime) true example_now EmptyString
              example_body ["1-a.png"] empty_store) as [Hpost _].
  - constructor.
  - exact Hpost.
Defined.

Lemma get_all_lists_store_newest_first_witness :
  exists docs tickets,
    get_all (H := utc_runtime) true two_ticket_store = RList tickets
    /\ docs ≡ₚ tickets_db two_ticket_store.
Proof.
  destruct (get_all_lists_store_newest_first (H := utc_runtime) two_ticket_store)
    as (docs & tickets & Hget & Hperm & _).
  - intros Heq. apply (f_equal length) in Heq. vm_compute in Heq. discriminate.
  - unfold two_ticket_store, example_store.
    apply post_attachments_clean, post_attachments_clean. constructor.
  - by exists docs, tickets.
Defined.

(** ** The sequence of the identifier *)

Lemma or_empty_required v : required_ok (or_empty v) = true -> or_empty v = v.
Proof.
  unfold or_empty, js_or. destruct (truthy v) eqn:Hv; [done |]. done.
Qed.

Lemma count_category_snoc docs d c :
  count_category (docs ++ [d]) c
  = (count_category docs c + if bool_decide (get (fields d) "category" = c) then 1 else 0)%nat.
Proof.
  unfold count_category. rewrite filter_app, length_app, filter_cons, filter_nil.
  case_bool_decide; [by rewrite decide_True | by rewrite decide_False].
Qed.

Lemma trimmed_lines hl rows :
  wf_csv hl rows -> split (str1 newline) (trim (csv_file hl rows)) = hl :: rows.
Proof.
  intros Hwf. pose proof (file_lines_csv_file hl rows Hwf) as Hlines.
  unfold file_lines in Hlines.
  destruct (split1_nonempty newline (trim (csv_file hl rows))) as (l0 & rest & Hsplit).
  rewrite Hsplit in Hlines |- *. by injection Hlines as -> ->.
Qed.

Lemma csv_category_count_wf hl rows c j :
  wf_csv hl rows -> index_of "category" (parse_header hl) = Some j ->
  csv_category_count (Some (csv_file hl rows)) c
  = length (filter (fun line => cell_opt (csv_tokens line) j = c) rows).
Proof.
  intros Hwf Hj. unfold csv_category_count. rewrite (trimmed_lines _ _ Hwf).
  destruct rows as [|r rows]; [done |]. by rewrite Hj.
Qed.

Lemma no_newline_csvEscape v : no_newline (cell_text v) -> no_newline (csvEscape v).
Proof.
  unfold no_newline. intros Hv. rewrite csvEscape_unfold. cbn [has_char].
  rewrite has_char_app, has_char_double_quotes by done. done.
Qed.

Lemma written_row_wf hl rows vals :
  wf_csv hl rows -> vals ≠ [] -> Forall (fun v => no_newline (cell_text v)) vals ->
  wf_csv hl (rows ++ [join "," (map csvEscape vals)]).
Proof.
  intros (Hstart & Hend & Hnl & Hsolid) Hne Hvals. split_and!; try done.
  - change (hl :: rows ++ [join "," (map csvEscape vals)])
      with ((hl :: rows) ++ [join "," (map csvEscape vals)]).
    apply Forall_app. split; [done |]. apply Forall_singleton.
    apply has_char_join; [done |]. apply Forall_fmap.
    eapply Forall_impl; [exact Hvals |]. intros v Hv. by apply no_newline_csvEscape.
  - apply Forall_app. split; [done |]. apply Forall_singleton.
    by apply written_row_ends_solid.
Qed.

Section sequence.
Context `{Runtime}.

(** X16. When the Record Store takes the document of a create, the count
    that the next identifier of that category is numbered from grows by
    one, and the counts of the other categories stay as they are. *)
Theorem create_advances_store_sequence (now : datetime) (body : gmap string jsval)
    (files : list string) (st : store) (category : jsval) :
  tickets_db (post true now body files st).1 ≠ tickets_db st ->
  existing_in_category true (post true now body files st).1 category
  = (existing_in_category true st category
     + if bool_decide (get body "category" = category) then 1 else 0)%nat.
Proof.
  unfold existing_in_category. rewrite !post_tickets_db.
  assert (get (create_doc_fields now (post_ticket_id true now body st) body (join ";" files))
              "category" = or_empty (get body "category")) as Hcat.
  { apply get_assign_all_in; [by_eval |].
    apply list_elem_of_further, list_elem_of_here. }
  unfold ticket_save. cbn [negb]. rewrite Hcat.
  destruct (required_ok _ && required_ok (or_empty (get body "category"))) eqn:Hreq;
    cbn [negb]; [| done].
  destruct (bool_decide _); [done |]. cbn [or_unchanged]. intros _.
  rewrite count_category_snoc. cbn [fields]. rewrite Hcat.
  apply andb_true_iff in Hreq as [_ Hreq]. by rewrite or_empty_required.
Qed.

End sequence.

Section mirror.
Context `{Runtime}.

Lemma post_tickets_file up now body files st hl rows :
  tickets_file st = Some (csv_file hl rows) ->
  tickets_file (post up now body files st).1
  = Some (csv_file hl
            (rows ++ [join "," (map csvEscape
                        (create_row_values now (post_ticket_id up now body st) body
                           (join ";" files)))])).
Proof.
  intros Hfile. unfold post. cbn [fst tickets_file]. rewrite Hfile.
  unfold append_file, csv_line. cbn [default from_option]. unfold Datatypes.id.
  by rewrite csv_file_snoc.
Qed.

(** X17. A create adds one to the count that the CSV fallback of the
    identifier generator finds for the category text it wrote, and leaves
    the counts of the other categories alone, on a mirror file with the
    header of the handlers and rows without line feeds. *)
Theorem create_advances_mirror_sequence (up : bool) (now : datetime)
    (body : gmap string jsval) (files : list string) (st : store)
    (hl : string) (rows : list string) (category : jsval) :
  wf_csv hl rows ->
  tickets_file st = Some (csv_file hl rows) ->
  parse_header hl = TICKETS_HEADER ->
  Forall (fun v => no_newline (cell_text v))
         (create_row_values now (post_ticket_id up now body st) body (join ";" files)) ->
  existing_in_category false (post up now body files st).1 category
  = (existing_in_category false st category
     + if bool_decide (VStr (cell_text (or_empty (get body "category"))) = category)
       then 1 else 0)%nat.
Proof.
  intros Hwf Hfile Hhdr Hvals. unfold existing_in_category.
  rewrite (post_tickets_file up now body files st hl rows Hfile), Hfile.
  assert (index_of "category" (parse_header hl) = Some 1%nat) as Hidx by by rewrite Hhdr.
  rewrite (csv_category_count_wf hl rows category 1 Hwf Hidx).
  rewrite (csv_category_count_wf hl _ category 1); [| by apply written_row_wf | done].
  rewrite filter_app, length_app, filter_cons, filter_nil.
  rewrite csv_tokens_written. unfold cell_opt. cbn [create_row_values map lookup list_lookup].
  rewrite unquote_csvEscape.
  case_bool_decide; [by rewrite decide_True | by rewrite decide_False].
Qed.

(** X18. Round trip through the file: after a create whose values hold
    no line feed, the CSV listing of [GET /] is the listing from before
    with one more entry at its end, and that entry gives back, under the
    name of every column, the text that was written for it (for
    attachments, the upload URLs of the names). *)
Theorem create_appends_to_csv_listing (up : bool) (now : datetime)
    (body : gmap string jsval) (files : list string) (st : store)
    (hl : string) (rows : list string) :
  wf_csv hl rows ->
  tickets_file st = Some (csv_file hl rows) ->
  parse_header hl = TICKETS_HEADER ->
  Forall (fun v => no_newline (cell_text v))
         (create_row_values now (post_ticket_id up now body st) body (join ";" files)) ->
  let vals := create_row_values now (post_ticket_id up now body st) body (join ";" files) in
  exists t,
    get_all false (post up now body files st).1 = RList (get_all_csv st ++ [t])
    /\ get t "ticket_id" = VStr (cell_text (post_ticket_id up now body st))
    /\ get t "category" = VStr (cell_text (or_empty (get body "category")))
    /\ get t "attachments" = VArr (toAttachmentUrls (VStr (join ";" files)))
    /\ forall j h v,
         TICKETS_HEADER !! j = Some h -> vals !! j = Some v ->
         get t h = if decide (h = "attachments")
                   then VArr (toAttachmentUrls (VStr (cell_text v)))
                   else VStr (cell_text v).
Proof.
  intros Hwf Hfile Hhdr Hvals vals.
  exists (ticket_of_line TICKETS_HEADER (join "," (map csvEscape vals))).
  split.
  - unfold get_all, get_all_csv.
    rewrite (post_tickets_file up now body files st hl rows Hfile), Hfile.
    unfold read_tickets_csv. rewrite (file_lines_csv_file _ _ Hwf).
    rewrite file_lines_csv_file by by apply written_row_wf.
    by rewrite map_app, Hhdr.
  - assert (NoDup TICKETS_HEADER) as Hnd by by_eval.
    split_and!.
    + rewrite (ticket_of_line_get _ _ 0 "ticket_id" Hnd eq_refl).
      rewrite decide_False by done. f_equal. by apply cell_written.
    + rewrite (ticket_of_line_get _ _ 1 "category" Hnd eq_refl).
      rewrite decide_False by done. f_equal. by apply cell_written.
    + rewrite (ticket_of_line_get _ _ 20 "attachments" Hnd eq_refl).
      rewrite decide_True by done. do 2 f_equal.
      rewrite (cell_written vals 20 (VStr (join ";" files)) eq_refl).
      by rewrite cell_text_str.
    + intros j h v Hh Hv. rewrite (ticket_of_line_get _ _ j h Hnd Hh).
      by rewrite (cell_written vals j v Hv).
Qed.

End mirror.

Lemma example_file :
  wf_csv (join "," TICKETS_HEADER) [example_line]
  /\ tickets_file example_store = Some (csv_file (join "," TICKETS_HEADER) [example_line]).
Proof.
  split; [| vm_compute; reflexivity].
  split_and!.
  - vm_compute. reflexivity.
  - split; [vm_compute; reflexivity | discriminate].
  - unfold no_newline. by_eval.
  - unfold ends_solid. by_eval.
Qed.

Lemma create_advances_store_sequence_witness :
  existing_in_category true two_ticket_store (VStr "Power") = 1%nat
  /\ existing_in_category true two_ticket_store (VStr "Network") = 1%nat.
Proof.
  unfold two_ticket_store. split.
  - rewrite (create_advances_store_sequence (H := utc_runtime) example_later second_body []
               example_store (VStr "Power")); [vm_compute; reflexivity |].
    intros Heq. apply (f_equal length) in Heq. vm_compute in Heq. discriminate.
  - rewrite (create_advances_store_sequence (H := utc_runtime) example_later second_body []
               example_store (VStr "Network")); [vm_compute; reflexivity |].
    intros Heq. apply (f_equal length) in Heq. vm_compute in Heq. discriminate.
Defined.

Lemma create_advances_mirror_sequence_witness :
  existing_in_category false two_ticket_store (VStr "Power") = 1%nat.
Proof.
  destruct example_file as [Hwf Hfile]. unfold two_ticket_store.
  rewrite (create_advances_mirror_sequence (H := utc_runtime) true example_later second_body []
             example_store _ _ (VStr "Power") Hwf Hfile).
  - vm_compute. reflexivity.
  - vm_compute. reflexivity.
  - unfold no_newline. by_eval.
Defined.

Lemma create_appends_to_csv_listing_witness :
  exists t,
    get_all (H := utc_runtime) false two_ticket_store
    = RList (get_all_csv example_store ++ [t])
    /\ get t "ticket_id" = VStr second_id.
Proof.
  destruct example_file as [Hwf Hfile].
  destruct (create_appends_to_csv_listing (H := utc_runtime) true example_later second_body []
              example_store _ _ Hwf Hfile) as (t & Hget & Hid & _).
  - vm_compute. reflexivity.
  - unfold no_newline. by_eval.
  - exists t. split; [exact Hget |]. rewrite Hid. vm_compute. reflexivity.
Defined.

(** ** The tokenizer on fields without quotes *)

Lemma bare_run_field f rest :
  has_char comma f = false ->
  match rest with EmptyString => True | String c _ => is_comma c = true end ->
  bare_run (f +:+ rest) = (f, rest).
Proof.
  intros Hf Hrest. induction f as [|c f IH].
  - rewrite app_nil_l. destruct rest as [|c rest]; [done |]. cbn [bare_run]. by rewrite Hrest.
  - cbn [has_char] in Hf. apply orb_false_iff in Hf as [Hc Hf].
    rewrite app_cons. cbn [bare_run]. unfold is_comma. rewrite Ascii.eqb_sym, Hc.
    by rewrite (IH Hf).
Qed.

Lemma token_at_bare f rest :
  nonempty f = true -> has_char comma f = false -> no_quote_ahead f ->
  match rest with EmptyString => True | String c _ => is_comma c = true end ->
  token_at (f +:+ rest) = Some (f, rest).
Proof.
  intros Hne Hf Hq Hrest. destruct f as [|c f]; [done |].
  pose proof (bare_run_field (String c f) rest Hf Hrest) as Hrun.
  rewrite app_cons in *. unfold token_at. rewrite Hrun.
  cbn [no_quote_ahead] in Hq. rewrite Hq.
  cbn [has_char] in Hf. apply orb_false_iff in Hf as [Hc _].
  unfold is_comma. by rewrite Ascii.eqb_sym, Hc.
Qed.

Lemma match_all_go_bare (l : list string) : forall fuel,
  Forall (fun f => has_char comma f = false /\ no_quote_ahead f) l ->
  (String.length (join "," l) < fuel)%nat ->
  match_all_go fuel token_regex (join "," l) = filter (fun f => nonempty f = true) l.
Proof.
  induction l as [|f l IH]; intros fuel Hall Hfuel.
  - destruct fuel; [simpl in Hfuel; lia | done].
  - apply Forall_cons in Hall as [[Hf Hq] Hall]. rewrite filter_cons.
    destruct l as [|g l].
    + cbn [join] in *. rewrite filter_nil.
      destruct fuel as [|fuel]; [lia |]. cbn [match_all_go]. rewrite regex_at_token.
      destruct f as [|c f]; [done |].
      rewrite <- (append_nil_r (String c f)) at 1.
      rewrite token_at_bare by done. rewrite decide_True by done.
      by destruct fuel.
    + rewrite join_cons2 in *. change ("," +:+ ?x) with (String comma x) in *.
      rewrite append_length in Hfuel. cbn [String.length] in Hfuel.
      destruct fuel as [|fuel]; [lia |]. cbn [match_all_go]. rewrite regex_at_token.
      destruct f as [|c f].
      * rewrite app_nil_l, token_at_comma. rewrite decide_False by done.
        apply IH; [done |]. cbn [String.length] in Hfuel. lia.
      * rewrite token_at_bare by done. rewrite decide_True by done.
        cbn match. f_equal.
        destruct fuel as [|fuel]; [cbn [String.length] in Hfuel; lia |].
        cbn [match_all_go]. rewrite regex_at_token, token_at_comma.
        apply IH; [done |]. cbn [String.length] in Hfuel. lia.
Qed.

(** X19. On a line of fields that hold no comma and do not start with a
    quote, the tokenizer returns the fields that are not empty, in order:
    an empty field between two commas gives no token, so the cells after
    it move one column to the left. *)
Theorem csv_tokens_skip_empty_bare_fields (fields : list string) :
  Forall (fun f => has_char comma f = false /\ no_quote_ahead f) fields ->
  csv_tokens (join "," fields) = filter (fun f => nonempty f = true) fields.
Proof.
  intros Hall. unfold csv_tokens, match_all. apply match_all_go_bare; [done | lia].
Qed.

Lemma csv_tokens_skip_empty_bare_fields_witness :
  csv_tokens "T-1,,Power" = ["T-1"; "Power"]
  /\ cell (csv_tokens "T-1,,Power") 1 = "Power".
Proof.
  assert (csv_tokens (join "," ["T-1"; EmptyString; "Power"]) = ["T-1"; "Power"]) as Htok.
  { rewrite csv_tokens_skip_empty_bare_fields; [reflexivity |].
    repeat constructor. }
  split; [exact Htok |]. change "T-1,,Power" with (join "," ["T-1"; EmptyString; "Power"]).
  rewrite Htok. reflexivity.
Defined.

(** ** The history, read back *)

Lemma digit_not_newline c : is_digit c = true -> Ascii.eqb newline c = false.
Proof. intros Hc. destruct (Ascii.eqb_spec newline c) as [<- | _]; done. Qed.

Lemma no_newline_dec_of_Z z : no_newline (dec_of_Z z).
Proof.
  unfold no_newline, dec_of_Z. destruct (z <? 0); cbn [has_char];
    rewrite ?orb_false_l; apply has_char_digits; try apply digit_not_newline;
    by destruct (dec_of_N_spec (Z.to_N (- z))) as (_ & Hd & _);
    by destruct (dec_of_N_spec (Z.to_N z)) as (_ & Hd' & _).
Qed.

Lemma no_newline_pad_num w z : no_newline (pad_num w z).
Proof.
  unfold no_newline, pad_num, padStart0. rewrite has_char_app.
  rewrite (has_char_digits newline (repeat_char "0" _));
    [| apply digit_not_newline | apply all_chars_repeat_zero].
  apply no_newline_dec_of_Z.
Qed.

Lemma no_newline_toISOString t : no_newline (toISOString t).
Proof.
  unfold no_newline, toISOString, iso_year.
  repeat rewrite has_char_app.
  rewrite !(no_newline_pad_num 2), !(no_newline_pad_num 3).
  destruct (_ && _); [by rewrite (no_newline_pad_num 4) |].
  rewrite has_char_app, (no_newline_pad_num 6). by destruct (_ <? _).
Qed.

Lemma history_of_csv_snoc id hh hrows vals :
  wf_csv hh hrows -> vals ≠ [] ->
  Forall (fun v => no_newline (cell_text v)) vals ->
  history_of_csv id (csv_file hh hrows +:+ csv_line vals)
  = history_of_csv id (csv_file hh hrows)
    ++ filter (fun o => get o "ticket_id" = VStr id)
         [row_object (parse_header hh) (map csvEscape vals)].
Proof.
  intros Hwf Hne Hvals. unfold history_of_csv, csv_line.
  rewrite csv_file_snoc, (file_lines_csv_file _ _ Hwf).
  rewrite file_lines_csv_file by by apply written_row_wf.
  rewrite map_app, filter_app. cbn [map]. by rewrite csv_tokens_written.
Qed.

Lemma history_entry_fields id stamp action changes editor :
  let e := row_object HISTORY_HEADER
             (map csvEscape [VStr id; VStr stamp; VStr action; VStr changes; editor]) in
  get e "ticket_id" = VStr id
  /\ get e "timestamp" = VStr stamp
  /\ get e "action" = VStr action
  /\ get e "changes" = VStr changes
  /\ get e "editor" = VStr (cell_text editor).
Proof.
  assert (NoDup HISTORY_HEADER) as Hnd by by_eval.
  cbv zeta. unfold get.
  rewrite (row_object_lookup_index HISTORY_HEADER _ 0 "ticket_id" Hnd eq_refl).
  rewrite (row_object_lookup_index HISTORY_HEADER _ 1 "timestamp" Hnd eq_refl).
  rewrite (row_object_lookup_index HISTORY_HEADER _ 2 "action" Hnd eq_refl).
  rewrite (row_object_lookup_index HISTORY_HEADER _ 3 "changes" Hnd eq_refl).
  rewrite (row_object_lookup_index HISTORY_HEADER _ 4 "editor" Hnd eq_refl).
  unfold cell. cbn [map lookup list_lookup default from_option]. unfold Datatypes.id.
  by rewrite !unquote_csvEscape, !cell_text_str.
Qed.

Section history.
Context `{Runtime}.

(** X20. A delete is recorded: read from the history file afterwards,
    the history of the ticket is its history from before with one more
    entry at the end, which names the ticket, the time of the request,
    the action [delete], no changes and the editor of the request. *)
Theorem delete_is_recorded_in_history (up : bool) (now : datetime) (id : string)
    (body : gmap string jsval) (st : store) (hl : string) (rows : list string)
    (hh : string) (hrows : list string) :
  wf_csv hl rows ->
  tickets_file st = Some (csv_file hl rows) ->
  Exists (fun line => line_has_id id line = true) rows ->
  wf_csv hh hrows ->
  history_file st = Some (csv_file hh hrows) ->
  parse_header hh = HISTORY_HEADER ->
  no_newline id ->
  no_newline (cell_text (or_empty (get body "editor"))) ->
  exists e,
    get_history false id (delete_ticket up now id body st).1
    = RList (history_of_csv id (csv_file hh hrows) ++ [e])
    /\ get_history false id st = RList (history_of_csv id (csv_file hh hrows))
    /\ get e "ticket_id" = VStr id
    /\ get e "timestamp" = VStr (toISOString now)
    /\ get e "action" = VStr "delete"
    /\ get e "changes" = VStr "{}"
    /\ get e "editor" = VStr (cell_text (or_empty (get body "editor"))).
Proof.
  intros Hwf Hfile Hex Hhwf Hhfile Hhdr Hid Hed.
  rewrite (delete_found up now id body st hl rows Hwf Hfile Hex). cbn [fst].
  unfold get_history. cbn [history_file]. rewrite Hhfile.
  unfold append_file. cbn [default from_option]. unfold Datatypes.id.
  rewrite history_of_csv_snoc; [| done | done |].
  2:{ repeat constructor; rewrite ?cell_text_str; try done. apply no_newline_toISOString. }
  rewrite Hhdr.
  destruct (history_entry_fields id (toISOString now) "delete" "{}"
              (or_empty (get body "editor"))) as (H1 & H2 & H3 & H4 & H5).
  eexists. rewrite filter_cons_True by exact H1. rewrite filter_nil.
  split_and!; try done.
Qed.

(** X21. A create is recorded in the same way: the history file read
    afterwards gives, for the id of the new ticket, the history from
    before and then an entry with the action [create], the body as JSON
    text and the reporter as editor. *)
Theorem create_is_recorded_in_history (up : bool) (now : datetime)
    (body : gmap string jsval) (files : list string) (st : store) (id : string)
    (hh : string) (hrows : list string) :
  post_ticket_id up now body st = VStr id ->
  wf_csv hh hrows ->
  history_file st = Some (csv_file hh hrows) ->
  parse_header hh = HISTORY_HEADER ->
  no_newline id ->
  no_newline (JSON_stringify (<["attachments" := VStr (join ";" files)]> body)) ->
  no_newline (cell_text (or_empty (get body "reported_by"))) ->
  exists e,
    get_history false id (post up now body files st).1
    = RList (history_of_csv id (csv_file hh hrows) ++ [e])
    /\ get e "ticket_id" = VStr id
    /\ get e "timestamp" = VStr (toISOString now)
    /\ get e "action" = VStr "create"
    /\ get e "changes"
       = VStr (JSON_stringify (<["attachments" := VStr (join ";" files)]> body))
    /\ get e "editor" = VStr (cell_text (or_empty (get body "reported_by"))).
Proof.
  intros Htid Hhwf Hhfile Hhdr Hid Hjson Hed.
  unfold get_history, post. cbn [fst history_file]. fold (post_ticket_id up now body st).
  rewrite Htid, Hhfile.
  unfold append_file. cbn [default from_option]. unfold Datatypes.id.
  rewrite history_of_csv_snoc; [| done | done |].
  2:{ repeat constructor; rewrite ?cell_text_str; try done. apply no_newline_toISOString. }
  rewrite Hhdr.
  destruct (history_entry_fields id (toISOString now) "create"
              (JSON_stringify (<["attachments" := VStr (join ";" files)]> body))
              (or_empty (get body "reported_by"))) as (H1 & H2 & H3 & H4 & H5).
  eexists. rewrite filter_cons_True by exact H1. rewrite filter_nil.
  split_and!; try done.
Qed.

End history.

Lemma example_history_files :
  (wf_csv history_header_line (history_rows example_store)
   /\ history_file example_store
      = Some (csv_file history_header_line (history_rows example_store)))
  /\ (wf_csv history_header_line (history_rows two_ticket_store)
      /\ history_file two_ticket_store
         = Some (csv_file history_header_line (history_rows two_ticket_store))).
Proof.
  split; (split; [| vm_compute; reflexivity]); split_and!;
    try (vm_compute; reflexivity);
    try (split; [vm_compute; reflexivity | discriminate]);
    try (unfold no_newline; by_eval);
    unfold ends_solid; by_eval.
Qed.

Lemma delete_is_recorded_in_history_witness :
  exists e,
    get_history false example_id
      (delete_ticket (H := utc_runtime) true example_later example_id
         {["editor" := VStr "ada"]} two_ticket_store).1
    = RList (history_of_csv example_id
               (csv_file history_header_line (history_rows two_ticket_store)) ++ [e])
    /\ get e "action" = VStr "delete"
    /\ get e "editor" = VStr "ada".
Proof.
  destruct two_ticket_file as [Hwf Hfile].
  destruct example_history_files as [_ [Hhwf Hhfile]].
  destruct (delete_is_recorded_in_history (H := utc_runtime) true example_later example_id
              {["editor" := VStr "ada"]} two_ticket_store
              (join "," TICKETS_HEADER) two_ticket_rows
              history_header_line (history_rows two_ticket_store) Hwf Hfile)
    as (e & Hget & _ & _ & _ & Haction & _ & Heditor).
  - by_eval.
  - exact Hhwf.
  - exact Hhfile.
  - vm_compute. reflexivity.
  - vm_compute. reflexivity.
  - vm_compute. reflexivity.
  - exists e. split; [exact Hget |]. split; [exact Haction |]. rewrite Heditor.
    vm_compute. reflexivity.
Defined.

Lemma create_is_recorded_in_history_witness :
  exists e,
    get_history false second_id two_ticket_store
    = RList (history_of_csv second_id
               (csv_file history_header_line (history_rows example_store)) ++ [e])
    /\ get e "action" = VStr "create"
    /\ get e "editor" = VStr "grace".
Proof.
  destruct example_history_files as [[Hhwf Hhfile] _].
  destruct (create_is_recorded_in_history (H := utc_runtime) true example_later second_body []
              example_store second_id history_header_line (history_rows example_store))
    as (e & Hget & _ & _ & Haction & _ & Heditor).
  - vm_compute. reflexivity.
  - exact Hhwf.
  - exact Hhfile.
  - vm_compute. reflexivity.
  - vm_compute. reflexivity.
  - vm_compute. reflexivity.
  - vm_compute. reflexivity.
  - exists e. split; [exact Hget |]. split; [exact Haction |]. rewrite Heditor.
    vm_compute. reflexivity.
Defined.

(** ** The identifier, for names of the tables' own *)

(** X24. The generated identifier, for a category and a building whose texts
    are no property names of [Object.prototype]: the text KASI, the
    building code, the date, the category code and the sequence, joined
    by dashes. The building code is the building itself when it is one of
    the five known names and LOS5 otherwise; the category code is the code
    the table gives (two to four capital letters) and GEN for any other
    category; the date is the year, month and day of the clock, eight
    digits; the sequence is the number of tickets of that category plus
    one, written with at least four digits, zero-padded, and exactly four
    below 10000. The tickets are counted in the store when it answers, and
    otherwise in the CSV file: the data rows whose cell in the column
    headed category is the category. *)
Theorem ticket_id_format (up : bool) (st : store) (now : datetime)
    (category building : jsval) :
  0 <= dt_year now <= 9999 -> 1 <= dt_month now <= 12 -> 1 <= dt_day now <= 31 ->
  inherited (to_str category) = None ->
  inherited (to_str building) = None ->
  let buildingCode :=
    if decide (to_str building ∈ KNOWN_BUILDINGS) then to_str building else "LOS5" in
  let short := default "GEN" (assoc (to_str category) CATEGORY_CODES) in
  let date :=
    pad_num 4 (dt_year now) +:+ pad_num 2 (dt_month now) +:+ pad_num 2 (dt_day now) in
  let count := existing_in_category up st category in
  let sequence := sequence_text count in
  generateTicketId up st now category building
  = "KASI-" +:+ buildingCode +:+ "-" +:+ date +:+ "-" +:+ short +:+ "-" +:+ sequence
  /\ (String.length date = 8%nat /\ all_chars is_digit date = true)
  /\ Forall (fun kv => code_ok kv.2 = true) CATEGORY_CODES
  /\ (digits_value sequence = Some (N.of_nat count + 1)%N
      /\ all_chars is_digit sequence = true
      /\ (4 <= String.length sequence)%nat
      /\ (Z.of_nat count + 1 < 10000 -> String.length sequence = 4%nat))
  /\ (up = true ->
      count = length (filter (fun d => get (fields d) "category" = category) (tickets_db st)))
  /\ (up = false ->
      forall hl rows j,
        wf_csv hl rows ->
        tickets_file st = Some (csv_file hl rows) ->
        index_of "category" (parse_header hl) = Some j ->
        count = length (filter (fun line => cell_opt (csv_tokens line) j = category) rows)).
Proof.
  intros Hy Hm Hd Hcat Hbuilding buildingCode short date count sequence.
  destruct (yyyymmdd_spec now Hy Hm Hd) as (Hdate & Hlen & Hdig).
  fold date in Hdate. rewrite Hdate in Hlen, Hdig.
  destruct (pad_num_spec 4 (Z.of_nat count + 1)) as (Hval & Hsdig & Hslen & Hsfour); [lia |].
  split_and!; try done.
  - unfold generateTicketId. fold count. fold sequence.
    rewrite short_code_spec, building_code_spec, Hdate, Hcat, Hbuilding.
    unfold short, buildingCode. by destruct (assoc _ _).
  - by_eval.
  - unfold sequence, sequence_text. fold (pad_num 4 (Z.of_nat count + 1)).
    rewrite Hval. f_equal. lia.
  - intros Hsmall. apply (Hsfour 3%nat); [| lia].
    change (10 ^ Z.of_nat 4) with 10000. lia.
  - by intros ->.
  - intros -> hl rows j Hwf Hfile Hj. unfold count, existing_in_category.
    rewrite Hfile. by apply csv_category_count_wf.
Qed.

Lemma ticket_id_format_witness :
  generateTicketId true example_store example_later (VStr "Network") (VStr "LOS9")
  = "KASI-LOS5-20251007-NET-0002"
  /\ generateTicketId false example_store example_later (VStr "Network") (VStr "LOS9")
     = "KASI-LOS5-20251007-NET-0002".
Proof.
  split.
  - destruct (ticket_id_format true example_store example_later (VStr "Network")
                (VStr "LOS9")) as (Hid & _).
    + vm_compute. split; discriminate.
    + vm_compute. split; discriminate.
    + vm_compute. split; discriminate.
    + reflexivity.
    + reflexivity.
    + rewrite Hid. vm_compute. reflexivity.
  - destruct (ticket_id_format false example_store example_later (VStr "Network")
                (VStr "LOS9")) as (Hid & _).
    + vm_compute. split; discriminate.
    + vm_compute. split; discriminate.
    + vm_compute. split; discriminate.
    + reflexivity.
    + reflexivity.
    + rewrite Hid. vm_compute. reflexivity.
Defined.

(** ** [closedAt] and the schema *)

Section closedAt.
Context `{Runtime}.

Lemma put_db_closedAt up now id body files docs :
  map closedAt (put_db up now id body files docs) = map closedAt docs.
Proof.
  unfold put_db. destruct up; [| done].
  destruct (find_doc id docs) as [doc|] eqn:Hfind; [| done].
  destruct (apply_update now body files doc) as [doc'|] eqn:Hup; [| done].
  pose proof (updated_closedAt _ _ _ _ _ Hup) as Hc. clear Hup.
  induction docs as [|d docs IH]; [done |]. cbn [find_doc update_first] in *.
  destruct (has_id id d).
  - injection Hfind as ->. cbn [map]. by rewrite Hc.
  - cbn [map]. by rewrite (IH Hfind).
Qed.

(** C4, as the code has it. On an update of a ticket the store holds, the
    handler decides by the status what to do with closedAt: set it when
    the status goes from a value other than Closed to Closed, clear it
    when the status leaves Closed. The update goes through (the stored
    document gets the new status and the instant of the update), but the
    schema of the store has no path closedAt and drops it from the update:
    closedAt of the stored document is what it was before, and no update
    changes closedAt of any document. A ticket without closedAt that is
    closed has none afterwards. *)
Theorem closedAt_is_dropped_by_schema (now : datetime) (id : string)
    (body : gmap string jsval) (files : list string) (st : store) (doc : ticket_doc) :
  find_doc id (tickets_db st) = Some doc ->
  is_Some (db_fileNames files doc) ->
  let old := get (fields doc) "status" in
  let st' := (put true now id body files st).1 in
  exists doc',
    find_doc id (tickets_db st') = Some doc'
    /\ get (fields doc') "status" = js_nullish (get body "status") old
    /\ updatedAt doc' = now
    /\ (old ≠ VStr "Closed" -> get (fields doc') "status" = VStr "Closed" ->
        closedAt_logic now body doc = SetClosedAt now)
    /\ (old = VStr "Closed" -> get (fields doc') "status" ≠ VStr "Closed" ->
        closedAt_logic now body doc = ClearClosedAt)
    /\ closedAt doc' = closedAt doc
    /\ map closedAt (tickets_db st') = map closedAt (tickets_db st).
Proof.
  intros Hfind [fn Hfn] old st'.
  assert (exists doc', apply_update now body files doc = Some doc') as [doc' Hup].
  { unfold apply_update. rewrite Hfn. eauto. }
  exists doc'. unfold st'. rewrite put_tickets_db.
  pose proof (updated_status _ _ _ _ _ Hup) as Hstatus. fold old in Hstatus.
  pose proof (closedAt_logic_cases now body doc) as Hlogic. cbv zeta in Hlogic.
  fold old in Hlogic. rewrite <- Hstatus in Hlogic.
  split_and!.
  - unfold put_db. rewrite Hfind, Hup.
    apply (find_doc_update_first _ _ doc); [done |].
    apply find_doc_has_id in Hfind. unfold has_id in *.
    by rewrite (apply_update_keeps_id _ _ _ _ _ Hup).
  - done.
  - by apply apply_update_Some in Hup as (? & _ & _ & _ & _ & ->).
  - intros Ho Hn. rewrite Hlogic. by rewrite decide_True, decide_False.
  - intros Ho Hn. rewrite Hlogic. by rewrite decide_False, decide_True.
  - by apply (updated_closedAt _ _ _ _ _ Hup).
  - apply put_db_closedAt.
Qed.

End closedAt.

Lemma closedAt_is_dropped_by_schema_witness :
  exists doc',
    find_doc example_id
      (tickets_db (put (H := utc_runtime) true example_later example_id close_body []
                     example_store).1) = Some doc'
    /\ get (fields doc') "status" = VStr "Closed"
    /\ closedAt_logic example_later close_body example_doc = SetClosedAt example_later
    /\ closedAt doc' = None.
Proof.
  destruct (closedAt_is_dropped_by_schema (H := utc_runtime) example_later example_id
              close_body [] example_store example_doc)
    as (doc' & Hfind & Hstatus & _ & Hset & _ & Hclosed & _).
  - vm_compute. reflexivity.
  - eexists. vm_compute. reflexivity.
  - exists doc'. split; [exact Hfind |].
    assert (get (fields doc') "status" = VStr "Closed") as Hs
      by (rewrite Hstatus; vm_compute; reflexivity).
    split; [exact Hs |]. split.
    + apply Hset; [| exact Hs]. vm_compute. discriminate.
    + rewrite Hclosed. vm_compute. reflexivity.
Defined.

(** ** A line feed in a value *)

Lemma join_app sep (l1 l2 : list string) :
  l1 ≠ [] -> l2 ≠ [] -> join sep (l1 ++ l2) = join sep l1 +:+ sep +:+ join sep l2.
Proof.
  intros H1 H2. induction l1 as [|x l1 IH]; [done |].
  destruct l1 as [|y l1].
  - destruct l2 as [|z l2]; [done |]. reflexivity.
  - change ((x :: y :: l1) ++ l2) with (x :: y :: (l1 ++ l2)).
    rewrite !(join_cons2 sep x).
    change (y :: l1 ++ l2) with ((y :: l1) ++ l2). rewrite IH by done.
    by rewrite !append_assoc.
Qed.

Lemma double_quotes_app a b : double_quotes (a +:+ b) = double_quotes a +:+ double_quotes b.
Proof.
  induction a as [|c a IH]; [by rewrite !app_nil_l |].
  rewrite app_cons. cbn [double_quotes]. destruct (is_dquote c); by rewrite !app_cons, IH.
Qed.

Lemma token_at_split s tok rest : token_at s = Some (tok, rest) -> s = tok +:+ rest.
Proof.
  destruct s as [|c t]; [done |]. unfold token_at.
  assert (forall b, (if is_comma c then None else Some (bare_run (String c t))) = Some b ->
                    String c t = b.1 +:+ b.2) as Hbare.
  { intros b. destruct (is_comma c); [done |]. intros [= <-]. apply bare_run_split. }
  destruct (is_dquote c).
  - destruct (quoted_tail t) as [[m r]|] eqn:Hq.
    + intros [= <- <-]. rewrite app_cons. f_equal. by apply quoted_tail_split.
    + intros Hb. apply (Hbare _ Hb).
  - intros Hb. apply (Hbare _ Hb).
Qed.

Lemma match_all_go_no_newline fuel : forall s,
  no_newline s -> Forall no_newline (match_all_go fuel token_regex s).
Proof.
  unfold no_newline. induction fuel as [|fuel IH]; intros s Hs; [constructor |].
  cbn [match_all_go]. rewrite regex_at_token.
  assert (Forall (fun t => has_char newline t = false)
            match s with EmptyString => [] | String _ t => match_all_go fuel token_regex t end)
    as Hskip.
  { destruct s as [|c t]; [constructor |]. apply IH.
    cbn [has_char] in Hs. by apply orb_false_iff in Hs as [_ Hs]. }
  destruct (token_at s) as [[tok rest]|] eqn:Htok; [| done].
  apply token_at_split in Htok. rewrite Htok, has_char_app in Hs.
  apply orb_false_iff in Hs as [Htokn Hrest].
  destruct tok as [|c tok]; constructor; try done. by apply IH.
Qed.

Lemma unquote_no_newline s : no_newline s -> no_newline (unquote s).
Proof.
  unfold no_newline, unquote. intros Hs.
  assert (has_char newline (strip_lead s) = false) as H1.
  { destruct s as [|c t]; [done |]. cbn [strip_lead]. destruct (is_dquote c); [| done].
    cbn [has_char] in Hs. by apply orb_false_iff in Hs as [_ Hs]. }
  assert (forall x, has_char newline x = false -> has_char newline (strip_trail x) = false)
    as H2.
  { induction x as [|c t IH]; [done |]. cbn [has_char strip_trail].
    intros [Hc Ht]%orb_false_iff. destruct t as [|c' t'].
    - by destruct (is_dquote c); cbn [has_char]; rewrite ?Hc.
    - cbn [has_char]. by rewrite Hc, (IH Ht). }
  assert (forall n x, (String.length x <= n)%nat -> has_char newline x = false ->
                      has_char newline (undouble x) = false) as H3.
  { induction n as [|n IH]; intros x Hlen Hx.
    - by destruct x; [| cbn in Hlen; lia].
    - destruct x as [|c [|c' t']]; [done | done |].
      cbn [undouble]. cbn [has_char String.length] in *.
      apply orb_false_iff in Hx as [Hc [Hc' Ht']%orb_false_iff].
      destruct (is_dquote c && is_dquote c').
      + cbn [has_char]. rewrite (IH t'); [done | lia | done].
      + cbn [has_char]. rewrite Hc. apply (IH (String c' t')); [cbn; lia |].
        cbn [has_char]. by rewrite Hc', Ht'. }
  apply (H3 (String.length (strip_trail (strip_lead s)))); [lia |]. by apply H2.
Qed.

Lemma cell_no_newline line j : no_newline line -> no_newline (cell (csv_tokens line) j).
Proof.
  intros Hline. unfold cell. apply unquote_no_newline.
  pose proof (match_all_go_no_newline (S (String.length line)) line Hline) as Hall.
  fold (match_all token_regex line) in Hall. fold (csv_tokens line) in Hall.
  destruct (csv_tokens line !! j) as [tok|] eqn:Hj; [| done].
  rewrite Forall_forall in Hall. apply Hall. by eapply list_elem_of_lookup_2.
Qed.

Lemma trim_lines_last_solid (l : list string) x :
  ends_solid x -> trim_lines (l ++ [x; EmptyString]) = l ++ [x].
Proof.
  intros Hx. induction l as [|y l IH].
  - apply (trim_lines_solid [x]). by constructor.
  - change ((y :: l) ++ [x; EmptyString]) with (y :: (l ++ [x; EmptyString])).
    rewrite trim_lines_cons, IH. by destruct l.
Qed.

Lemma file_lines_last_solid hl rows x :
  starts_solid hl -> Forall no_newline (hl :: rows ++ [x]) -> ends_solid x ->
  file_lines (csv_file hl (rows ++ [x])) = (hl, rows ++ [x]).
Proof.
  intros Hstart Hnl Hx. unfold file_lines, trim.
  rewrite trim_start_solid.
  2:{ unfold csv_file. destruct (rows ++ [x]); cbn [join]; rewrite ?join_cons2;
      repeat apply starts_solid_app; done. }
  rewrite (proj2 (split_trim_end _)), csv_file_lines by done.
  rewrite <- app_assoc. cbn [app].
  change (hl :: rows ++ [x; EmptyString]) with ((hl :: rows) ++ [x; EmptyString]).
  by rewrite trim_lines_last_solid.
Qed.

Lemma written_row_line_feed (before after : list jsval) a b :
  before ≠ [] -> after ≠ [] ->
  join "," (map csvEscape (before ++ VStr (a +:+ str1 newline +:+ b) :: after))
  = (join "," (map csvEscape before) +:+ "," +:+ String dquote (double_quotes a))
    +:+ str1 newline
    +:+ (double_quotes b +:+ str1 dquote +:+ "," +:+ join "," (map csvEscape after)).
Proof.
  intros Hb Ha. rewrite map_app. cbn [map].
  rewrite join_app; [| by destruct before | done].
  destruct after as [|v after]; [done |]. cbn [map]. rewrite join_cons2.
  rewrite csvEscape_unfold, cell_text_str, !double_quotes_app.
  change (double_quotes (str1 newline)) with (str1 newline).
  rewrite !app_cons, !append_assoc. by rewrite ?app_cons.
Qed.

Section line_feed.
Context `{Runtime}.

(** C2, as the code has it. The reader cuts the file at every line feed
    before it looks at quotes, and the writer puts a value into the row
    as it is. A ticket whose description holds a line feed is therefore
    written as two lines and read back as two entries; neither of them
    has the description that was written. (The file, the header and the
    other values are as the handlers leave them, free of line feeds.) *)
Theorem line_feed_splits_csv_row (up : bool) (now : datetime) (body : gmap string jsval)
    (files : list string) (st : store) (hl : string) (rows : list string) (a b : string) :
  wf_csv hl rows ->
  tickets_file st = Some (csv_file hl rows) ->
  parse_header hl = TICKETS_HEADER ->
  get body "description" = VStr (a +:+ str1 newline +:+ b) ->
  no_newline a -> no_newline b ->
  let vals := create_row_values now (post_ticket_id up now body st) body (join ";" files) in
  Forall (fun v => no_newline (cell_text v)) (take 9 vals ++ drop 10 vals) ->
  exists t1 t2,
    get_all false (post up now body files st).1 = RList (get_all_csv st ++ [t1; t2])
    /\ get t1 "description" ≠ VStr (a +:+ str1 newline +:+ b)
    /\ get t2 "description" ≠ VStr (a +:+ str1 newline +:+ b).
Proof.
  intros Hwf Hfile Hhdr Hdesc Ha Hb vals Hvals.
  set (d := a +:+ str1 newline +:+ b) in *.
  set (before := take 9 vals). set (after := drop 10 vals).
  assert (vals = before ++ VStr d :: after) as Hsplit.
  { unfold before, after, vals, create_row_values. rewrite Hdesc, or_empty_str.
    reflexivity. }
  assert (before ≠ [] /\ after ≠ []) as [Hbne Hane].
  { unfold before, after, vals, create_row_values. by split. }
  fold before after in Hvals. apply Forall_app in Hvals as [Hbefore Hafter].
  set (l1 := join "," (map csvEscape before) +:+ "," +:+ String dquote (double_quotes a)).
  set (l2 := double_quotes b +:+ str1 dquote +:+ "," +:+ join "," (map csvEscape after)).
  assert (join "," (map csvEscape vals) = l1 +:+ str1 newline +:+ l2) as Hrow.
  { rewrite Hsplit. by apply written_row_line_feed. }
  assert (tickets_file (post up now body files st).1
          = Some (csv_file hl ((rows ++ [l1]) ++ [l2]))) as Hfile'.
  { rewrite (post_tickets_file up now body files st hl rows Hfile). fold vals. f_equal.
    rewrite <- !csv_file_snoc, Hrow. by rewrite !append_assoc. }
  assert (no_newline l1) as Hl1.
  { unfold no_newline, l1. rewrite !has_char_app. cbn [has_char].
    rewrite has_char_double_quotes by done.
    rewrite has_char_join; [done | done |]. apply Forall_fmap.
    eapply Forall_impl; [exact Hbefore |]. intros v Hv. by apply no_newline_csvEscape. }
  assert (no_newline l2) as Hl2.
  { unfold no_newline, l2. rewrite !has_char_app. cbn [has_char].
    rewrite has_char_double_quotes by done.
    rewrite has_char_join; [done | done |]. apply Forall_fmap.
    eapply Forall_impl; [exact Hafter |]. intros v Hv. by apply no_newline_csvEscape. }
  assert (ends_solid l2) as Hsolid2.
  { destruct (written_row_ends_quoted after Hane) as [x Hx]. unfold l2. rewrite Hx.
    rewrite <- !append_assoc. split.
    - by apply trim_end_snoc_solid.
    - intros Heq. apply (f_equal String.length) in Heq.
      rewrite append_length in Heq. cbn in Heq. lia. }
  assert (file_lines (csv_file hl ((rows ++ [l1]) ++ [l2])) = (hl, (rows ++ [l1]) ++ [l2]))
    as Hlines.
  { destruct Hwf as (Hstart & Hend & Hnl & Hsolid).
    apply file_lines_last_solid; [done | | done].
    apply Forall_cons in Hnl as [Hhl Hrows].
    apply Forall_cons. split; [done |].
    apply Forall_app. split; [apply Forall_app; split; [done | by constructor] |].
    by constructor. }
  exists (ticket_of_line TICKETS_HEADER l1), (ticket_of_line TICKETS_HEADER l2).
  assert (NoDup TICKETS_HEADER) as Hnd by by_eval.
  assert (forall line, no_newline line ->
            get (ticket_of_line TICKETS_HEADER line) "description" ≠ VStr d) as Hcell.
  { intros line Hline.
    rewrite (ticket_of_line_get _ _ 9 "description" Hnd eq_refl).
    rewrite decide_False by done. intros [= Heq].
    pose proof (cell_no_newline line 9 Hline) as Hc. unfold no_newline in Hc.
    rewrite Heq in Hc. unfold d in Hc. rewrite !has_char_app in Hc.
    change (has_char newline (str1 newline)) with true in Hc.
    by rewrite orb_true_l, orb_true_r in Hc. }
  split_and!; [| by apply Hcell | by apply Hcell].
  unfold get_all, get_all_csv. rewrite Hfile', Hfile.
  unfold read_tickets_csv. rewrite Hlines, (file_lines_csv_file _ _ Hwf), Hhdr.
  by rewrite !map_app, <- app_assoc.
Qed.

End line_feed.

Lemma line_feed_splits_csv_row_witness :
  (exists t1 t2,
     get_all (H := utc_runtime) false
       (post (H := utc_runtime) true example_later two_line_body [] example_store).1
     = RList (get_all_csv example_store ++ [t1; t2])
     /\ get t1 "description" ≠ VStr ("line1" +:+ str1 newline +:+ "line2")
     /\ get t2 "description" ≠ VStr ("line1" +:+ str1 newline +:+ "line2"))
  /\ listed (get_all (H := utc_runtime) false
               (post (H := utc_runtime) true example_later two_line_body [] example_store).1)
     = [(VStr example_id, VStr "link down, rack 4");
        (VStr "T-1", VStr "line1"); (VStr "line2", VStr EmptyString)].
Proof.
  split; [| vm_compute; reflexivity].
  destruct example_file as [Hwf Hfile].
  apply (line_feed_splits_csv_row (H := utc_runtime) true example_later two_line_body []
           example_store (join "," TICKETS_HEADER) [example_line] "line1" "line2" Hwf Hfile).
  - vm_compute. reflexivity.
  - vm_compute. reflexivity.
  - vm_compute. reflexivity.
  - vm_compute. reflexivity.
  - unfold no_newline. by_eval.
Defined.

(** ** Update and read *)


Lemma find_doc_snoc id docs d :
  VStr id ∉ map doc_id docs -> doc_id d = VStr id -> find_doc id (docs ++ [d]) = Some d.
Proof.
  intros Hfresh Hd. induction docs as [|x docs IH].
  - cbn [app find_doc]. unfold has_id. by rewrite bool_decide_eq_true_2.
  - cbn [map] in Hfresh. apply not_elem_of_cons in Hfresh as [Hx Hfresh].
    cbn [app find_doc]. unfold has_id at 1. rewrite bool_decide_eq_false_2 by done.
    by apply IH.
Qed.

Lemma find_line_snoc id rows line :
  Forall (fun l => line_has_id id l = false) rows -> line_has_id id line = true ->
  find_line id (rows ++ [line]) = Some line.
Proof.
  intros Hall Hline. induction Hall as [|x rows Hx _ IH].
  - cbn [app find_line]. by rewrite Hline.
  - cbn [app find_line]. by rewrite Hx.
Qed.

Lemma truthy_VBool b : truthy (VBool b) = b.
Proof. by destruct b. Qed.

Section update_read.
Context `{Runtime}.


(** X23. A ticket that the Record Store took on create can be read back:
    [GET /:id] with the new id answers with that id, the category of the
    create and one upload URL for every stored attachment name. *)
Theorem create_then_get_returns_ticket (now : datetime) (body : gmap string jsval)
    (files : list string) (st : store) (id category : string) :
  post_ticket_id true now body st = VStr id ->
  id ≠ "stats" ->
  get body "category" = VStr category ->
  tickets_db (post true now body files st).1 ≠ tickets_db st ->
  exists t,
    get_one true id (post true now body files st).1 = RJson t
    /\ get t "ticket_id" = VStr id
    /\ get t "category" = VStr category
    /\ get t "sla_breach" = yes_no (truthy (get body "sla_breach"))
    /\ get t "attachments" = VArr (map uploads_url (split_names (join ";" files))).
Proof.
  intros Htid _ Hcategory. rewrite post_tickets_db. unfold get_one.
  rewrite post_tickets_db.
  set (f := create_doc_fields now (post_ticket_id true now body st) body (join ";" files)).
  assert (get f "ticket_id" = VStr id) as Hf_id.
  { rewrite <- Htid. apply get_assign_all_in; [by_eval |]. apply list_elem_of_here. }
  assert (get f "category" = VStr category) as Hf_cat.
  { rewrite <- (or_empty_str category), <- Hcategory.
    apply get_assign_all_in; [by_eval |]. apply list_elem_of_further, list_elem_of_here. }
  assert (get f "attachments" = VArr (split_names (join ";" files))) as Hf_att.
  { transitivity (attachments_array (join ";" files) (VArr [])).
    - apply get_assign_all_in; [by_eval |].
      do 20 apply list_elem_of_further. apply list_elem_of_here.
    - unfold attachments_array. destruct (nonempty (join ";" files)) eqn:Hne; [done |].
      unfold nonempty in Hne. apply negb_false_iff, String.eqb_eq in Hne. by rewrite Hne. }
  assert (get f "sla_breach" = VBool (truthy (get body "sla_breach"))) as Hf_sla.
  { apply get_assign_all_in; [by_eval |].
    do 23 apply list_elem_of_further. apply list_elem_of_here. }
  unfold ticket_save. cbn [negb].
  destruct (required_ok (get f "ticket_id") && required_ok (get f "category")) eqn:Hreq;
    cbn [negb]; [| done].
  case_bool_decide as Hfresh; [done |]. cbn [or_unchanged]. intros _.
  rewrite Hf_id in Hfresh.
  rewrite (find_doc_snoc id (tickets_db st) (mkDoc f None now now)); [| done | done].
  cbn [mbind option_bind]. unfold ticket_of_doc. cbn [fields].
  rewrite Hf_att. cbn [doc_attachment_urls mbind option_bind].
  eexists. split; [reflexivity |].
  split_and!.
  - rewrite <- Hf_id. apply get_assign_all_in; [by_eval |]. apply list_elem_of_here.
  - rewrite <- (or_empty_str category), <- Hf_cat.
    apply get_assign_all_in; [by_eval |]. apply list_elem_of_further, list_elem_of_here.
  - rewrite <- (truthy_VBool (truthy (get body "sla_breach"))), <- Hf_sla.
    apply get_assign_all_in; [by_eval |].
    do 23 apply list_elem_of_further. apply list_elem_of_here.
  - apply get_assign_all_in; [by_eval |].
    do 20 apply list_elem_of_further. apply list_elem_of_here.
Qed.

End update_read.


Lemma create_then_get_returns_ticket_witness :
  exists t,
    get_one (H := utc_runtime) true second_id two_ticket_store = RJson t
    /\ get t "ticket_id" = VStr second_id
    /\ get t "category" = VStr "Power".
Proof.
  destruct (create_then_get_returns_ticket (H := utc_runtime) example_later second_body []
              example_store second_id "Power") as (t & Hget & Hid & Hcat & _).
  - vm_compute. reflexivity.
  - discriminate.
  - vm_compute. reflexivity.
  - intros Heq. apply (f_equal length) in Heq. vm_compute in Heq. discriminate.
  - by exists t.
Defined.

(** ** Documents without [closedAt] *)

Section no_closedAt.
Context `{Runtime}.

(** X26. No handler stores closedAt: when no document of the store has
    it, none has it after a create, an update or a delete. In such a store
    the closed series of the statistics dates every closed ticket by the
    day it was created. *)
Theorem closed_tickets_are_dated_by_creation (up : bool) (now : datetime) (id : string)
    (body : gmap string jsval) (files : list string) (st : store) :
  Forall (fun d => closedAt d = None) (tickets_db st) ->
  Forall (fun d => closedAt d = None) (tickets_db (post up now body files st).1)
  /\ Forall (fun d => closedAt d = None) (tickets_db (put up now id body files st).1)
  /\ Forall (fun d => closedAt d = None) (tickets_db (delete_ticket up now id body st).1)
  /\ forall mt,
       ticketsClosedOverTime mt (tickets_db st)
       = merge_sort group_le
           (group_count (map (fun d => ymd (createdAt d))
              (filter (fun d => mt d && is_closed d = true) (tickets_db st)))).
Proof.
  intros Hall. split_and!.
  - rewrite post_tickets_db.
    pose proof (ticket_save_cases up now
      (create_doc_fields now (post_ticket_id up now body st) body (join ";" files))
      (tickets_db st)) as Hcases.
    destruct (ticket_save _ _ _ _) as [docs' | e]; [| done].
    destruct Hcases as (_ & _ & ->). cbn [or_unchanged].
    apply Forall_app. split; [done |]. by apply Forall_singleton.
  - rewrite put_tickets_db.
    pose proof (put_db_closedAt up now id body files (tickets_db st)) as Hmap.
    assert (forall l, Forall (fun d => closedAt d = None) l
                      <-> Forall (fun x => x = None) (map closedAt l)) as Hiff
      by (intros l; by rewrite Forall_fmap).
    apply Hiff. rewrite Hmap. by apply Hiff.
  - rewrite delete_tickets_db. destruct up; [| done]. by apply delete_first_Forall.
  - intros mt. unfold ticketsClosedOverTime. do 2 f_equal.
    apply Forall_fmap_ext_1. rewrite Forall_forall in Hall |- *.
    intros d [_ Hd]%list_elem_of_filter. unfold closed_instant. by rewrite (Hall d Hd).
Qed.

End no_closedAt.

Lemma closed_tickets_are_dated_by_creation_witness :
  Forall (fun d => closedAt d = None)
    (tickets_db (put (H := utc_runtime) true example_later example_id close_body []
                   example_store).1)
  /\ ticketsClosedOverTime (fun _ => true)
       (tickets_db (put (H := utc_runtime) true example_later example_id close_body []
                      example_store).1)
     = [((2025, 10, 6), 1%nat)].
Proof.
  destruct (closed_tickets_are_dated_by_creation (H := utc_runtime) true example_later
              example_id close_body [] example_store) as (_ & Hput & _).
  { destruct (closed_tickets_are_dated_by_creation (H := utc_runtime) true example_now
                EmptyString example_body ["1-a.png"] empty_store) as (Hpost & _).
    - constructor.
    - exact Hpost. }
  split; [exact Hput | vm_compute; reflexivity].
Defined.
